(** * Command-line layer of cutadapt ([cutadapt/__main__.py])

    A shallow embedding of the pipeline- and output-construction code of
    [cutadapt/__main__.py]: argument checks, the parsing helpers, the
    construction of the processing pipeline, the opening of output files,
    the choice of the demultiplexing mode and the exit behaviour of [main].

    Python exceptions are the constructors of [exn]; fallible code returns
    [Res A := exn + A].  Code that opens files threads the list of files
    opened so far ([FIO]), so that what was opened before an exception
    stays visible.  Strings are Stdlib [string]s (ASCII). *)

From Stdlib Require Import ZArith List Bool String Ascii QArith Lia.
Import ListNotations.
Open Scope string_scope.
Open Scope Z_scope.

(* ------------------------------------------------------------------ *)
(** ** Exceptions and the result monad *)

Inductive exn :=
| CommandLineError (msg : string)
| ValueError (msg : string)
| AssertionError
| AttributeError (msg : string)
| InvalidTemplate (msg : string)
| PairedAdapterCutterError (msg : string)
| OSError (path : string)
| KeyboardInterrupt
| BrokenPipeError
| FileFormatError (msg : string)
| UnknownFileFormat (msg : string)
| EOFError (msg : string)
| TypeError (msg : string).

Definition Res (A : Type) : Type := (exn + A)%type.

Definition ret {A} (a : A) : Res A := inr a.
Definition raise {A} (e : exn) : Res A := inl e.
Definition bind {A B} (m : Res A) (k : A -> Res B) : Res B :=
  match m with inl e => inl e | inr a => k a end.

Notation "'let*' x ':=' m 'in' k" := (bind m (fun x => k))
  (at level 200, x name, m at level 100, right associativity).

Definition is_cmdline_error {A} (r : Res A) : bool :=
  match r with inl (CommandLineError _) => true | _ => false end.

(* ------------------------------------------------------------------ *)
(** ** Python string helpers *)

Definition str_eqb (s t : string) : bool := String.eqb s t.

(** Truthiness of an optional string attribute of [args]:
    [None] and [""] are false. *)
Definition truthy (o : option string) : bool :=
  match o with Some s => negb (String.eqb s "") | None => false end.

Definition is_some {A} (o : option A) : bool :=
  match o with Some _ => true | None => false end.

(** [sub in s] *)
Fixpoint contains (sub s : string) : bool :=
  String.prefix sub s ||
  match s with EmptyString => false | String _ s' => contains sub s' end.

(** [s.split(c)] for a one-character separator. *)
Fixpoint split_on (c : ascii) (s : string) : list string :=
  match s with
  | EmptyString => [EmptyString]
  | String x s' =>
      let rest := split_on c s' in
      if Ascii.eqb x c then EmptyString :: rest
      else match rest with
           | r :: rs => String x r :: rs
           | [] => [String x EmptyString]
           end
  end.

(** [s.replace(old, new)] for a non-empty [old]: left to right,
    non-overlapping.  [fuel] bounds the number of characters consumed. *)
Fixpoint replace_fuel (fuel : nat) (old new s : string) : string :=
  match fuel with
  | O => s
  | S f =>
      match s with
      | EmptyString => EmptyString
      | String c s' =>
          if String.prefix old s
          then new ++ replace_fuel f old new
                        (String.substring (String.length old)
                           (String.length s - String.length old) s)
          else String c (replace_fuel f old new s')
      end
  end.

Definition replace (s old new : string) : string :=
  replace_fuel (S (String.length s)) old new s.

(* ------------------------------------------------------------------ *)
(** ** Python's [int(s)] for base 10

    Leading and trailing white space is stripped, an optional sign is
    accepted, and the digits may be grouped by single underscores. *)

Definition is_space (c : ascii) : bool :=
  let n := nat_of_ascii c in
  (Nat.eqb n 32) || (Nat.leb 9 n && Nat.leb n 13) || (Nat.leb 28 n && Nat.leb n 31).

Definition is_digit (c : ascii) : bool :=
  let n := nat_of_ascii c in Nat.leb 48 n && Nat.leb n 57.

Definition digit_value (c : ascii) : Z := Z.of_nat (nat_of_ascii c) - 48.

Fixpoint lstrip (l : list ascii) : list ascii :=
  match l with
  | c :: l' => if is_space c then lstrip l' else l
  | [] => []
  end.

Definition strip (l : list ascii) : list ascii := rev (lstrip (rev (lstrip l))).

(** Digits after the first one; [prev_us] is set after an underscore. *)
Fixpoint digits_tail (acc : Z) (prev_us : bool) (l : list ascii) : option Z :=
  match l with
  | [] => if prev_us then None else Some acc
  | c :: l' =>
      if is_digit c then digits_tail (acc * 10 + digit_value c) false l'
      else if Ascii.eqb c "_"%char && negb prev_us then digits_tail acc true l'
      else None
  end.

Definition parse_digits (l : list ascii) : option Z :=
  match l with
  | c :: l' => if is_digit c then digits_tail (digit_value c) false l' else None
  | [] => None
  end.

Definition python_int (s : string) : option Z :=
  match strip (list_ascii_of_string s) with
  | c :: l =>
      if Ascii.eqb c "-"%char then option_map Z.opp (parse_digits l)
      else if Ascii.eqb c "+"%char then parse_digits l
      else parse_digits (c :: l)
  | [] => None
  end.

Definition int_error (v : string) : string :=
  "invalid literal for int() with base 10: '" ++ v ++ "'".

(** [[int(value) for value in values]]: the first literal that does not
    parse raises [ValueError]. *)
Fixpoint int_all (values : list string) : Res (list Z) :=
  match values with
  | [] => ret []
  | v :: vs =>
      match python_int v with
      | None => raise (ValueError (int_error v))
      | Some n => let* ns := int_all vs in ret (n :: ns)
      end
  end.

(** [str(n)] *)
Definition digit_char (d : Z) : ascii := ascii_of_nat (Z.to_nat (48 + d)).

Fixpoint nat_digits (fuel : nat) (n : Z) (acc : list ascii) : list ascii :=
  match fuel with
  | O => acc
  | S f =>
      let acc' := digit_char (n mod 10) :: acc in
      if n <? 10 then acc' else nat_digits f (n / 10) acc'
  end.

Definition z_to_string (n : Z) : string :=
  let ds m := nat_digits (S (Z.to_nat (Z.log2 m))) m [] in
  if n <? 0 then string_of_list_ascii ("-"%char :: ds (- n))
  else string_of_list_ascii (ds n).

(* ------------------------------------------------------------------ *)
(** ** [parse_cutoffs] and [parse_lengths] *)

Definition parse_cutoffs (s : string) : Res (Z * Z) :=
  match int_all (split_on ","%char s) with
  | inl (ValueError e) =>
      raise (CommandLineError ("Quality cutoff value not recognized: " ++ e))
  | inl e => raise e
  | inr cutoffs =>
      let cutoffs :=
        match cutoffs with [c] => inr [0; c] | [_; _] => inr cutoffs | _ => inl tt end in
      match cutoffs with
      | inr (c0 :: c1 :: _) => ret (c0, c1)
      | _ => raise (CommandLineError
               "Expected one value or two values separated by comma for the quality cutoff")
      end
  end.

Definition parse_length_field (f : string) : Res (option Z) :=
  if String.eqb f "" then ret None
  else match python_int f with
       | Some n => ret (Some n)
       | None => raise (ValueError (int_error f))
       end.

Fixpoint parse_length_fields (fields : list string) : Res (list (option Z)) :=
  match fields with
  | [] => ret []
  | f :: fs =>
      let* v := parse_length_field f in
      let* vs := parse_length_fields fs in ret (v :: vs)
  end.

Definition parse_lengths (s : string) : Res (list (option Z)) :=
  let fields := split_on ":"%char s in
  if negb (Nat.eqb (List.length fields) 1 || Nat.eqb (List.length fields) 2)
  then raise (CommandLineError "Only at most one colon is allowed")
  else match parse_length_fields fields with
       | inl (ValueError e) => raise (CommandLineError ("Value not recognized: " ++ e))
       | inl e => raise e
       | inr values =>
           match values with
           | [None; None] =>
               raise (CommandLineError
                 ("Cannot parse '" ++ s ++ "': At least one length needs to be given"))
           | _ => ret values
           end
       end.


(* ------------------------------------------------------------------ *)
(** ** The parsed command line ([args], an argparse [Namespace])

    One field per attribute read by the modelled code, with the type and
    default that [get_argument_parser] gives it.  Options without a
    default are [option]s; [store_true] options are [bool]s; [append]
    options are lists.  Adapter options keep their [(kind, spec)] pairs. *)

Record args := mkArgs {
  quiet : bool;
  report : option string;
  cores : Z;
  gc_content : Q;
  index : bool;
  adapters : list (string * string);
  times : Z;
  overlap : Z;
  action : option string;
  reverse_complement : bool;
  cut : list Z;
  nextseq_trim : option Z;
  quality_cutoff : option string;
  quality_base : Z;
  length : option Z;
  trim_n : bool;
  length_tag : option string;
  strip_suffix : list string;
  prefix : string;
  suffix : string;
  rename : option string;
  zero_cap : bool;
  minimum_length : option string;
  maximum_length : option string;
  max_n : option Q;
  max_expected_errors : option Q;
  discard_trimmed : bool;
  discard_untrimmed : bool;
  discard_casava : bool;
  output : option string;
  fasta : bool;
  info_file : option string;
  rest_file : option string;
  wildcard_file : option string;
  too_short_output : option string;
  too_long_output : option string;
  untrimmed_output : option string;
  adapters2 : list (string * string);
  cut2 : list Z;
  quality_cutoff2 : option string;
  paired_output : option string;
  pair_adapters : bool;
  pair_filter : option string;
  interleaved : bool;
  untrimmed_paired_output : option string;
  too_short_paired_output : option string;
  too_long_paired_output : option string;
  inputs : list string
}.

(** The namespace produced for a command line that gives no option. *)
Definition default_args : args := {|
  quiet := false; report := None; cores := 1; gc_content := 50%Q; index := true;
  adapters := []; times := 1; overlap := 3; action := Some "trim";
  reverse_complement := false; cut := []; nextseq_trim := None;
  quality_cutoff := None; quality_base := 33; length := None; trim_n := false;
  length_tag := None; strip_suffix := []; prefix := ""; suffix := "";
  rename := None; zero_cap := false; minimum_length := None;
  maximum_length := None; max_n := None; max_expected_errors := None;
  discard_trimmed := false; discard_untrimmed := false; discard_casava := false;
  output := None; fasta := false; info_file := None; rest_file := None;
  wildcard_file := None; too_short_output := None; too_long_output := None;
  untrimmed_output := None; adapters2 := []; cut2 := []; quality_cutoff2 := None;
  paired_output := None; pair_adapters := false; pair_filter := None;
  interleaved := false; untrimmed_paired_output := None;
  too_short_paired_output := None; too_long_paired_output := None; inputs := []
|}.

(** Namespaces that differ from another one in a single attribute. *)
Definition set_interleaved v (a : args) : args :=
  mkArgs
    a.(quiet) a.(report) a.(cores) a.(gc_content) a.(index) a.(adapters) a.(times)
    a.(overlap) a.(action) a.(reverse_complement) a.(cut) a.(nextseq_trim)
    a.(quality_cutoff) a.(quality_base) a.(length) a.(trim_n) a.(length_tag)
    a.(strip_suffix) a.(prefix) a.(suffix) a.(rename) a.(zero_cap) a.(minimum_length)
    a.(maximum_length) a.(max_n) a.(max_expected_errors) a.(discard_trimmed)
    a.(discard_untrimmed) a.(discard_casava) a.(output) a.(fasta) a.(info_file)
    a.(rest_file) a.(wildcard_file) a.(too_short_output) a.(too_long_output)
    a.(untrimmed_output) a.(adapters2) a.(cut2) a.(quality_cutoff2) a.(paired_output)
    a.(pair_adapters) a.(pair_filter) v a.(untrimmed_paired_output)
    a.(too_short_paired_output) a.(too_long_paired_output) a.(inputs).

Definition set_prefix v (a : args) : args :=
  mkArgs
    a.(quiet) a.(report) a.(cores) a.(gc_content) a.(index) a.(adapters) a.(times)
    a.(overlap) a.(action) a.(reverse_complement) a.(cut) a.(nextseq_trim)
    a.(quality_cutoff) a.(quality_base) a.(length) a.(trim_n) a.(length_tag)
    a.(strip_suffix) v a.(suffix) a.(rename) a.(zero_cap) a.(minimum_length)
    a.(maximum_length) a.(max_n) a.(max_expected_errors) a.(discard_trimmed)
    a.(discard_untrimmed) a.(discard_casava) a.(output) a.(fasta) a.(info_file)
    a.(rest_file) a.(wildcard_file) a.(too_short_output) a.(too_long_output)
    a.(untrimmed_output) a.(adapters2) a.(cut2) a.(quality_cutoff2) a.(paired_output)
    a.(pair_adapters) a.(pair_filter) a.(interleaved) a.(untrimmed_paired_output)
    a.(too_short_paired_output) a.(too_long_paired_output) a.(inputs).

Definition set_suffix v (a : args) : args :=
  mkArgs
    a.(quiet) a.(report) a.(cores) a.(gc_content) a.(index) a.(adapters) a.(times)
    a.(overlap) a.(action) a.(reverse_complement) a.(cut) a.(nextseq_trim)
    a.(quality_cutoff) a.(quality_base) a.(length) a.(trim_n) a.(length_tag)
    a.(strip_suffix) a.(prefix) v a.(rename) a.(zero_cap) a.(minimum_length)
    a.(maximum_length) a.(max_n) a.(max_expected_errors) a.(discard_trimmed)
    a.(discard_untrimmed) a.(discard_casava) a.(output) a.(fasta) a.(info_file)
    a.(rest_file) a.(wildcard_file) a.(too_short_output) a.(too_long_output)
    a.(untrimmed_output) a.(adapters2) a.(cut2) a.(quality_cutoff2) a.(paired_output)
    a.(pair_adapters) a.(pair_filter) a.(interleaved) a.(untrimmed_paired_output)
    a.(too_short_paired_output) a.(too_long_paired_output) a.(inputs).

Definition set_quality_cutoff v (a : args) : args :=
  mkArgs
    a.(quiet) a.(report) a.(cores) a.(gc_content) a.(index) a.(adapters) a.(times)
    a.(overlap) a.(action) a.(reverse_complement) a.(cut) a.(nextseq_trim) v
    a.(quality_base) a.(length) a.(trim_n) a.(length_tag) a.(strip_suffix) a.(prefix)
    a.(suffix) a.(rename) a.(zero_cap) a.(minimum_length) a.(maximum_length) a.(max_n)
    a.(max_expected_errors) a.(discard_trimmed) a.(discard_untrimmed) a.(discard_casava)
    a.(output) a.(fasta) a.(info_file) a.(rest_file) a.(wildcard_file) a.(too_short_output)
    a.(too_long_output) a.(untrimmed_output) a.(adapters2) a.(cut2) a.(quality_cutoff2)
    a.(paired_output) a.(pair_adapters) a.(pair_filter) a.(interleaved)
    a.(untrimmed_paired_output) a.(too_short_paired_output) a.(too_long_paired_output)
    a.(inputs).

Definition set_quality_cutoff2 v (a : args) : args :=
  mkArgs
    a.(quiet) a.(report) a.(cores) a.(gc_content) a.(index) a.(adapters) a.(times)
    a.(overlap) a.(action) a.(reverse_complement) a.(cut) a.(nextseq_trim)
    a.(quality_cutoff) a.(quality_base) a.(length) a.(trim_n) a.(length_tag)
    a.(strip_suffix) a.(prefix) a.(suffix) a.(rename) a.(zero_cap) a.(minimum_length)
    a.(maximum_length) a.(max_n) a.(max_expected_errors) a.(discard_trimmed)
    a.(discard_untrimmed) a.(discard_casava) a.(output) a.(fasta) a.(info_file)
    a.(rest_file) a.(wildcard_file) a.(too_short_output) a.(too_long_output)
    a.(untrimmed_output) a.(adapters2) a.(cut2) v a.(paired_output) a.(pair_adapters)
    a.(pair_filter) a.(interleaved) a.(untrimmed_paired_output) a.(too_short_paired_output)
    a.(too_long_paired_output) a.(inputs).

Definition set_minimum_length v (a : args) : args :=
  mkArgs
    a.(quiet) a.(report) a.(cores) a.(gc_content) a.(index) a.(adapters) a.(times)
    a.(overlap) a.(action) a.(reverse_complement) a.(cut) a.(nextseq_trim)
    a.(quality_cutoff) a.(quality_base) a.(length) a.(trim_n) a.(length_tag)
    a.(strip_suffix) a.(prefix) a.(suffix) a.(rename) a.(zero_cap) v a.(maximum_length)
    a.(max_n) a.(max_expected_errors) a.(discard_trimmed) a.(discard_untrimmed)
    a.(discard_casava) a.(output) a.(fasta) a.(info_file) a.(rest_file) a.(wildcard_file)
    a.(too_short_output) a.(too_long_output) a.(untrimmed_output) a.(adapters2) a.(cut2)
    a.(quality_cutoff2) a.(paired_output) a.(pair_adapters) a.(pair_filter) a.(interleaved)
    a.(untrimmed_paired_output) a.(too_short_paired_output) a.(too_long_paired_output)
    a.(inputs).

Definition set_maximum_length v (a : args) : args :=
  mkArgs
    a.(quiet) a.(report) a.(cores) a.(gc_content) a.(index) a.(adapters) a.(times)
    a.(overlap) a.(action) a.(reverse_complement) a.(cut) a.(nextseq_trim)
    a.(quality_cutoff) a.(quality_base) a.(length) a.(trim_n) a.(length_tag)
    a.(strip_suffix) a.(prefix) a.(suffix) a.(rename) a.(zero_cap) a.(minimum_length) v
    a.(max_n) a.(max_expected_errors) a.(discard_trimmed) a.(discard_untrimmed)
    a.(discard_casava) a.(output) a.(fasta) a.(info_file) a.(rest_file) a.(wildcard_file)
    a.(too_short_output) a.(too_long_output) a.(untrimmed_output) a.(adapters2) a.(cut2)
    a.(quality_cutoff2) a.(paired_output) a.(pair_adapters) a.(pair_filter) a.(interleaved)
    a.(untrimmed_paired_output) a.(too_short_paired_output) a.(too_long_paired_output)
    a.(inputs).

Definition set_cut v (a : args) : args :=
  mkArgs
    a.(quiet) a.(report) a.(cores) a.(gc_content) a.(index) a.(adapters) a.(times)
    a.(overlap) a.(action) a.(reverse_complement) v a.(nextseq_trim) a.(quality_cutoff)
    a.(quality_base) a.(length) a.(trim_n) a.(length_tag) a.(strip_suffix) a.(prefix)
    a.(suffix) a.(rename) a.(zero_cap) a.(minimum_length) a.(maximum_length) a.(max_n)
    a.(max_expected_errors) a.(discard_trimmed) a.(discard_untrimmed) a.(discard_casava)
    a.(output) a.(fasta) a.(info_file) a.(rest_file) a.(wildcard_file) a.(too_short_output)
    a.(too_long_output) a.(untrimmed_output) a.(adapters2) a.(cut2) a.(quality_cutoff2)
    a.(paired_output) a.(pair_adapters) a.(pair_filter) a.(interleaved)
    a.(untrimmed_paired_output) a.(too_short_paired_output) a.(too_long_paired_output)
    a.(inputs).

Definition set_cut2 v (a : args) : args :=
  mkArgs
    a.(quiet) a.(report) a.(cores) a.(gc_content) a.(index) a.(adapters) a.(times)
    a.(overlap) a.(action) a.(reverse_complement) a.(cut) a.(nextseq_trim)
    a.(quality_cutoff) a.(quality_base) a.(length) a.(trim_n) a.(length_tag)
    a.(strip_suffix) a.(prefix) a.(suffix) a.(rename) a.(zero_cap) a.(minimum_length)
    a.(maximum_length) a.(max_n) a.(max_expected_errors) a.(discard_trimmed)
    a.(discard_untrimmed) a.(discard_casava) a.(output) a.(fasta) a.(info_file)
    a.(rest_file) a.(wildcard_file) a.(too_short_output) a.(too_long_output)
    a.(untrimmed_output) a.(adapters2) v a.(quality_cutoff2) a.(paired_output)
    a.(pair_adapters) a.(pair_filter) a.(interleaved) a.(untrimmed_paired_output)
    a.(too_short_paired_output) a.(too_long_paired_output) a.(inputs).

Definition set_untrimmed_paired_output v (a : args) : args :=
  mkArgs
    a.(quiet) a.(report) a.(cores) a.(gc_content) a.(index) a.(adapters) a.(times)
    a.(overlap) a.(action) a.(reverse_complement) a.(cut) a.(nextseq_trim)
    a.(quality_cutoff) a.(quality_base) a.(length) a.(trim_n) a.(length_tag)
    a.(strip_suffix) a.(prefix) a.(suffix) a.(rename) a.(zero_cap) a.(minimum_length)
    a.(maximum_length) a.(max_n) a.(max_expected_errors) a.(discard_trimmed)
    a.(discard_untrimmed) a.(discard_casava) a.(output) a.(fasta) a.(info_file)
    a.(rest_file) a.(wildcard_file) a.(too_short_output) a.(too_long_output)
    a.(untrimmed_output) a.(adapters2) a.(cut2) a.(quality_cutoff2) a.(paired_output)
    a.(pair_adapters) a.(pair_filter) a.(interleaved) v a.(too_short_paired_output)
    a.(too_long_paired_output) a.(inputs).

Definition set_times v (a : args) : args :=
  mkArgs
    a.(quiet) a.(report) a.(cores) a.(gc_content) a.(index) a.(adapters) v a.(overlap)
    a.(action) a.(reverse_complement) a.(cut) a.(nextseq_trim) a.(quality_cutoff)
    a.(quality_base) a.(length) a.(trim_n) a.(length_tag) a.(strip_suffix) a.(prefix)
    a.(suffix) a.(rename) a.(zero_cap) a.(minimum_length) a.(maximum_length) a.(max_n)
    a.(max_expected_errors) a.(discard_trimmed) a.(discard_untrimmed) a.(discard_casava)
    a.(output) a.(fasta) a.(info_file) a.(rest_file) a.(wildcard_file) a.(too_short_output)
    a.(too_long_output) a.(untrimmed_output) a.(adapters2) a.(cut2) a.(quality_cutoff2)
    a.(paired_output) a.(pair_adapters) a.(pair_filter) a.(interleaved)
    a.(untrimmed_paired_output) a.(too_short_paired_output) a.(too_long_paired_output)
    a.(inputs).

Definition set_overlap v (a : args) : args :=
  mkArgs
    a.(quiet) a.(report) a.(cores) a.(gc_content) a.(index) a.(adapters) a.(times) v
    a.(action) a.(reverse_complement) a.(cut) a.(nextseq_trim) a.(quality_cutoff)
    a.(quality_base) a.(length) a.(trim_n) a.(length_tag) a.(strip_suffix) a.(prefix)
    a.(suffix) a.(rename) a.(zero_cap) a.(minimum_length) a.(maximum_length) a.(max_n)
    a.(max_expected_errors) a.(discard_trimmed) a.(discard_untrimmed) a.(discard_casava)
    a.(output) a.(fasta) a.(info_file) a.(rest_file) a.(wildcard_file) a.(too_short_output)
    a.(too_long_output) a.(untrimmed_output) a.(adapters2) a.(cut2) a.(quality_cutoff2)
    a.(paired_output) a.(pair_adapters) a.(pair_filter) a.(interleaved)
    a.(untrimmed_paired_output) a.(too_short_paired_output) a.(too_long_paired_output)
    a.(inputs).

Definition set_too_short_output v (a : args) : args :=
  mkArgs
    a.(quiet) a.(report) a.(cores) a.(gc_content) a.(index) a.(adapters) a.(times)
    a.(overlap) a.(action) a.(reverse_complement) a.(cut) a.(nextseq_trim)
    a.(quality_cutoff) a.(quality_base) a.(length) a.(trim_n) a.(length_tag)
    a.(strip_suffix) a.(prefix) a.(suffix) a.(rename) a.(zero_cap) a.(minimum_length)
    a.(maximum_length) a.(max_n) a.(max_expected_errors) a.(discard_trimmed)
    a.(discard_untrimmed) a.(discard_casava) a.(output) a.(fasta) a.(info_file)
    a.(rest_file) a.(wildcard_file) v a.(too_long_output) a.(untrimmed_output) a.(adapters2)
    a.(cut2) a.(quality_cutoff2) a.(paired_output) a.(pair_adapters) a.(pair_filter)
    a.(interleaved) a.(untrimmed_paired_output) a.(too_short_paired_output)
    a.(too_long_paired_output) a.(inputs).

Definition set_too_short_paired_output v (a : args) : args :=
  mkArgs
    a.(quiet) a.(report) a.(cores) a.(gc_content) a.(index) a.(adapters) a.(times)
    a.(overlap) a.(action) a.(reverse_complement) a.(cut) a.(nextseq_trim)
    a.(quality_cutoff) a.(quality_base) a.(length) a.(trim_n) a.(length_tag)
    a.(strip_suffix) a.(prefix) a.(suffix) a.(rename) a.(zero_cap) a.(minimum_length)
    a.(maximum_length) a.(max_n) a.(max_expected_errors) a.(discard_trimmed)
    a.(discard_untrimmed) a.(discard_casava) a.(output) a.(fasta) a.(info_file)
    a.(rest_file) a.(wildcard_file) a.(too_short_output) a.(too_long_output)
    a.(untrimmed_output) a.(adapters2) a.(cut2) a.(quality_cutoff2) a.(paired_output)
    a.(pair_adapters) a.(pair_filter) a.(interleaved) a.(untrimmed_paired_output) v
    a.(too_long_paired_output) a.(inputs).

Definition set_quiet v (a : args) : args :=
  mkArgs
    v a.(report) a.(cores) a.(gc_content) a.(index) a.(adapters) a.(times) a.(overlap)
    a.(action) a.(reverse_complement) a.(cut) a.(nextseq_trim) a.(quality_cutoff)
    a.(quality_base) a.(length) a.(trim_n) a.(length_tag) a.(strip_suffix) a.(prefix)
    a.(suffix) a.(rename) a.(zero_cap) a.(minimum_length) a.(maximum_length) a.(max_n)
    a.(max_expected_errors) a.(discard_trimmed) a.(discard_untrimmed) a.(discard_casava)
    a.(output) a.(fasta) a.(info_file) a.(rest_file) a.(wildcard_file) a.(too_short_output)
    a.(too_long_output) a.(untrimmed_output) a.(adapters2) a.(cut2) a.(quality_cutoff2)
    a.(paired_output) a.(pair_adapters) a.(pair_filter) a.(interleaved)
    a.(untrimmed_paired_output) a.(too_short_paired_output) a.(too_long_paired_output)
    a.(inputs).

Definition set_report v (a : args) : args :=
  mkArgs
    a.(quiet) v a.(cores) a.(gc_content) a.(index) a.(adapters) a.(times) a.(overlap)
    a.(action) a.(reverse_complement) a.(cut) a.(nextseq_trim) a.(quality_cutoff)
    a.(quality_base) a.(length) a.(trim_n) a.(length_tag) a.(strip_suffix) a.(prefix)
    a.(suffix) a.(rename) a.(zero_cap) a.(minimum_length) a.(maximum_length) a.(max_n)
    a.(max_expected_errors) a.(discard_trimmed) a.(discard_untrimmed) a.(discard_casava)
    a.(output) a.(fasta) a.(info_file) a.(rest_file) a.(wildcard_file) a.(too_short_output)
    a.(too_long_output) a.(untrimmed_output) a.(adapters2) a.(cut2) a.(quality_cutoff2)
    a.(paired_output) a.(pair_adapters) a.(pair_filter) a.(interleaved)
    a.(untrimmed_paired_output) a.(too_short_paired_output) a.(too_long_paired_output)
    a.(inputs).

Definition set_cores v (a : args) : args :=
  mkArgs
    a.(quiet) a.(report) v a.(gc_content) a.(index) a.(adapters) a.(times) a.(overlap)
    a.(action) a.(reverse_complement) a.(cut) a.(nextseq_trim) a.(quality_cutoff)
    a.(quality_base) a.(length) a.(trim_n) a.(length_tag) a.(strip_suffix) a.(prefix)
    a.(suffix) a.(rename) a.(zero_cap) a.(minimum_length) a.(maximum_length) a.(max_n)
    a.(max_expected_errors) a.(discard_trimmed) a.(discard_untrimmed) a.(discard_casava)
    a.(output) a.(fasta) a.(info_file) a.(rest_file) a.(wildcard_file) a.(too_short_output)
    a.(too_long_output) a.(untrimmed_output) a.(adapters2) a.(cut2) a.(quality_cutoff2)
    a.(paired_output) a.(pair_adapters) a.(pair_filter) a.(interleaved)
    a.(untrimmed_paired_output) a.(too_short_paired_output) a.(too_long_paired_output)
    a.(inputs).

Definition set_gc_content v (a : args) : args :=
  mkArgs
    a.(quiet) a.(report) a.(cores) v a.(index) a.(adapters) a.(times) a.(overlap) a.(action)
    a.(reverse_complement) a.(cut) a.(nextseq_trim) a.(quality_cutoff) a.(quality_base)
    a.(length) a.(trim_n) a.(length_tag) a.(strip_suffix) a.(prefix) a.(suffix) a.(rename)
    a.(zero_cap) a.(minimum_length) a.(maximum_length) a.(max_n) a.(max_expected_errors)
    a.(discard_trimmed) a.(discard_untrimmed) a.(discard_casava) a.(output) a.(fasta)
    a.(info_file) a.(rest_file) a.(wildcard_file) a.(too_short_output) a.(too_long_output)
    a.(untrimmed_output) a.(adapters2) a.(cut2) a.(quality_cutoff2) a.(paired_output)
    a.(pair_adapters) a.(pair_filter) a.(interleaved) a.(untrimmed_paired_output)
    a.(too_short_paired_output) a.(too_long_paired_output) a.(inputs).

Definition set_fasta v (a : args) : args :=
  mkArgs
    a.(quiet) a.(report) a.(cores) a.(gc_content) a.(index) a.(adapters) a.(times)
    a.(overlap) a.(action) a.(reverse_complement) a.(cut) a.(nextseq_trim)
    a.(quality_cutoff) a.(quality_base) a.(length) a.(trim_n) a.(length_tag)
    a.(strip_suffix) a.(prefix) a.(suffix) a.(rename) a.(zero_cap) a.(minimum_length)
    a.(maximum_length) a.(max_n) a.(max_expected_errors) a.(discard_trimmed)
    a.(discard_untrimmed) a.(discard_casava) a.(output) v a.(info_file) a.(rest_file)
    a.(wildcard_file) a.(too_short_output) a.(too_long_output) a.(untrimmed_output)
    a.(adapters2) a.(cut2) a.(quality_cutoff2) a.(paired_output) a.(pair_adapters)
    a.(pair_filter) a.(interleaved) a.(untrimmed_paired_output) a.(too_short_paired_output)
    a.(too_long_paired_output) a.(inputs).

Definition set_rest_file v (a : args) : args :=
  mkArgs
    a.(quiet) a.(report) a.(cores) a.(gc_content) a.(index) a.(adapters) a.(times)
    a.(overlap) a.(action) a.(reverse_complement) a.(cut) a.(nextseq_trim)
    a.(quality_cutoff) a.(quality_base) a.(length) a.(trim_n) a.(length_tag)
    a.(strip_suffix) a.(prefix) a.(suffix) a.(rename) a.(zero_cap) a.(minimum_length)
    a.(maximum_length) a.(max_n) a.(max_expected_errors) a.(discard_trimmed)
    a.(discard_untrimmed) a.(discard_casava) a.(output) a.(fasta) a.(info_file) v
    a.(wildcard_file) a.(too_short_output) a.(too_long_output) a.(untrimmed_output)
    a.(adapters2) a.(cut2) a.(quality_cutoff2) a.(paired_output) a.(pair_adapters)
    a.(pair_filter) a.(interleaved) a.(untrimmed_paired_output) a.(too_short_paired_output)
    a.(too_long_paired_output) a.(inputs).

Definition set_output v (a : args) : args :=
  mkArgs a.(quiet) a.(report) a.(cores) a.(gc_content) a.(index) a.(adapters) a.(times)
    a.(overlap) a.(action) a.(reverse_complement) a.(cut) a.(nextseq_trim)
    a.(quality_cutoff) a.(quality_base) a.(length) a.(trim_n) a.(length_tag)
    a.(strip_suffix) a.(prefix) a.(suffix) a.(rename) a.(zero_cap) a.(minimum_length)
    a.(maximum_length) a.(max_n) a.(max_expected_errors) a.(discard_trimmed)
    a.(discard_untrimmed) a.(discard_casava) v a.(fasta) a.(info_file) a.(rest_file)
    a.(wildcard_file) a.(too_short_output) a.(too_long_output) a.(untrimmed_output)
    a.(adapters2) a.(cut2) a.(quality_cutoff2) a.(paired_output) a.(pair_adapters)
    a.(pair_filter) a.(interleaved) a.(untrimmed_paired_output)
    a.(too_short_paired_output) a.(too_long_paired_output) a.(inputs).

Definition set_paired_output v (a : args) : args :=
  mkArgs a.(quiet) a.(report) a.(cores) a.(gc_content) a.(index) a.(adapters) a.(times)
    a.(overlap) a.(action) a.(reverse_complement) a.(cut) a.(nextseq_trim)
    a.(quality_cutoff) a.(quality_base) a.(length) a.(trim_n) a.(length_tag)
    a.(strip_suffix) a.(prefix) a.(suffix) a.(rename) a.(zero_cap) a.(minimum_length)
    a.(maximum_length) a.(max_n) a.(max_expected_errors) a.(discard_trimmed)
    a.(discard_untrimmed) a.(discard_casava) a.(output) a.(fasta) a.(info_file)
    a.(rest_file) a.(wildcard_file) a.(too_short_output) a.(too_long_output)
    a.(untrimmed_output) a.(adapters2) a.(cut2) a.(quality_cutoff2) v a.(pair_adapters)
    a.(pair_filter) a.(interleaved) a.(untrimmed_paired_output)
    a.(too_short_paired_output) a.(too_long_paired_output) a.(inputs).

Definition set_discard_untrimmed v (a : args) : args :=
  mkArgs a.(quiet) a.(report) a.(cores) a.(gc_content) a.(index) a.(adapters) a.(times)
    a.(overlap) a.(action) a.(reverse_complement) a.(cut) a.(nextseq_trim)
    a.(quality_cutoff) a.(quality_base) a.(length) a.(trim_n) a.(length_tag)
    a.(strip_suffix) a.(prefix) a.(suffix) a.(rename) a.(zero_cap) a.(minimum_length)
    a.(maximum_length) a.(max_n) a.(max_expected_errors) a.(discard_trimmed) v
    a.(discard_casava) a.(output) a.(fasta) a.(info_file) a.(rest_file)
    a.(wildcard_file) a.(too_short_output) a.(too_long_output) a.(untrimmed_output)
    a.(adapters2) a.(cut2) a.(quality_cutoff2) a.(paired_output) a.(pair_adapters)
    a.(pair_filter) a.(interleaved) a.(untrimmed_paired_output)
    a.(too_short_paired_output) a.(too_long_paired_output) a.(inputs).

Definition set_discard_trimmed v (a : args) : args :=
  mkArgs a.(quiet) a.(report) a.(cores) a.(gc_content) a.(index) a.(adapters) a.(times)
    a.(overlap) a.(action) a.(reverse_complement) a.(cut) a.(nextseq_trim)
    a.(quality_cutoff) a.(quality_base) a.(length) a.(trim_n) a.(length_tag)
    a.(strip_suffix) a.(prefix) a.(suffix) a.(rename) a.(zero_cap) a.(minimum_length)
    a.(maximum_length) a.(max_n) a.(max_expected_errors) v a.(discard_untrimmed)
    a.(discard_casava) a.(output) a.(fasta) a.(info_file) a.(rest_file)
    a.(wildcard_file) a.(too_short_output) a.(too_long_output) a.(untrimmed_output)
    a.(adapters2) a.(cut2) a.(quality_cutoff2) a.(paired_output) a.(pair_adapters)
    a.(pair_filter) a.(interleaved) a.(untrimmed_paired_output)
    a.(too_short_paired_output) a.(too_long_paired_output) a.(inputs).

Definition set_rename v (a : args) : args :=
  mkArgs a.(quiet) a.(report) a.(cores) a.(gc_content) a.(index) a.(adapters) a.(times)
    a.(overlap) a.(action) a.(reverse_complement) a.(cut) a.(nextseq_trim)
    a.(quality_cutoff) a.(quality_base) a.(length) a.(trim_n) a.(length_tag)
    a.(strip_suffix) a.(prefix) a.(suffix) v a.(zero_cap) a.(minimum_length)
    a.(maximum_length) a.(max_n) a.(max_expected_errors) a.(discard_trimmed)
    a.(discard_untrimmed) a.(discard_casava) a.(output) a.(fasta) a.(info_file)
    a.(rest_file) a.(wildcard_file) a.(too_short_output) a.(too_long_output)
    a.(untrimmed_output) a.(adapters2) a.(cut2) a.(quality_cutoff2) a.(paired_output)
    a.(pair_adapters) a.(pair_filter) a.(interleaved) a.(untrimmed_paired_output)
    a.(too_short_paired_output) a.(too_long_paired_output) a.(inputs).

Definition set_pair_adapters v (a : args) : args :=
  mkArgs a.(quiet) a.(report) a.(cores) a.(gc_content) a.(index) a.(adapters) a.(times)
    a.(overlap) a.(action) a.(reverse_complement) a.(cut) a.(nextseq_trim)
    a.(quality_cutoff) a.(quality_base) a.(length) a.(trim_n) a.(length_tag)
    a.(strip_suffix) a.(prefix) a.(suffix) a.(rename) a.(zero_cap) a.(minimum_length)
    a.(maximum_length) a.(max_n) a.(max_expected_errors) a.(discard_trimmed)
    a.(discard_untrimmed) a.(discard_casava) a.(output) a.(fasta) a.(info_file)
    a.(rest_file) a.(wildcard_file) a.(too_short_output) a.(too_long_output)
    a.(untrimmed_output) a.(adapters2) a.(cut2) a.(quality_cutoff2) a.(paired_output) v
    a.(pair_filter) a.(interleaved) a.(untrimmed_paired_output)
    a.(too_short_paired_output) a.(too_long_paired_output) a.(inputs).

Definition set_reverse_complement v (a : args) : args :=
  mkArgs a.(quiet) a.(report) a.(cores) a.(gc_content) a.(index) a.(adapters) a.(times)
    a.(overlap) a.(action) v a.(cut) a.(nextseq_trim) a.(quality_cutoff)
    a.(quality_base) a.(length) a.(trim_n) a.(length_tag) a.(strip_suffix) a.(prefix)
    a.(suffix) a.(rename) a.(zero_cap) a.(minimum_length) a.(maximum_length) a.(max_n)
    a.(max_expected_errors) a.(discard_trimmed) a.(discard_untrimmed) a.(discard_casava)
    a.(output) a.(fasta) a.(info_file) a.(rest_file) a.(wildcard_file)
    a.(too_short_output) a.(too_long_output) a.(untrimmed_output) a.(adapters2) a.(cut2)
    a.(quality_cutoff2) a.(paired_output) a.(pair_adapters) a.(pair_filter)
    a.(interleaved) a.(untrimmed_paired_output) a.(too_short_paired_output)
    a.(too_long_paired_output) a.(inputs).

Definition set_untrimmed_output v (a : args) : args :=
  mkArgs a.(quiet) a.(report) a.(cores) a.(gc_content) a.(index) a.(adapters) a.(times)
    a.(overlap) a.(action) a.(reverse_complement) a.(cut) a.(nextseq_trim)
    a.(quality_cutoff) a.(quality_base) a.(length) a.(trim_n) a.(length_tag)
    a.(strip_suffix) a.(prefix) a.(suffix) a.(rename) a.(zero_cap) a.(minimum_length)
    a.(maximum_length) a.(max_n) a.(max_expected_errors) a.(discard_trimmed)
    a.(discard_untrimmed) a.(discard_casava) a.(output) a.(fasta) a.(info_file)
    a.(rest_file) a.(wildcard_file) a.(too_short_output) a.(too_long_output) v
    a.(adapters2) a.(cut2) a.(quality_cutoff2) a.(paired_output) a.(pair_adapters)
    a.(pair_filter) a.(interleaved) a.(untrimmed_paired_output)
    a.(too_short_paired_output) a.(too_long_paired_output) a.(inputs).

Definition set_inputs v (a : args) : args :=
  mkArgs a.(quiet) a.(report) a.(cores) a.(gc_content) a.(index) a.(adapters) a.(times)
    a.(overlap) a.(action) a.(reverse_complement) a.(cut) a.(nextseq_trim)
    a.(quality_cutoff) a.(quality_base) a.(length) a.(trim_n) a.(length_tag)
    a.(strip_suffix) a.(prefix) a.(suffix) a.(rename) a.(zero_cap) a.(minimum_length)
    a.(maximum_length) a.(max_n) a.(max_expected_errors) a.(discard_trimmed)
    a.(discard_untrimmed) a.(discard_casava) a.(output) a.(fasta) a.(info_file)
    a.(rest_file) a.(wildcard_file) a.(too_short_output) a.(too_long_output)
    a.(untrimmed_output) a.(adapters2) a.(cut2) a.(quality_cutoff2) a.(paired_output)
    a.(pair_adapters) a.(pair_filter) a.(interleaved) a.(untrimmed_paired_output)
    a.(too_short_paired_output) a.(too_long_paired_output) v.

Definition nonempty {A} (l : list A) : bool :=
  match l with [] => false | _ => true end.

Definition str_truthy (s : string) : bool := negb (String.eqb s "").

(* ------------------------------------------------------------------ *)
(** ** [determine_paired], [check_arguments], [estimate_compression_threads] *)

Definition determine_paired (a : args) : bool :=
  truthy a.(paired_output)
  || a.(interleaved)
  || nonempty a.(adapters2)
  || nonempty a.(cut2)
  || truthy a.(pair_filter)
  || truthy a.(untrimmed_paired_output)
  || truthy a.(too_short_paired_output)
  || truthy a.(too_long_paired_output)
  || truthy a.(quality_cutoff2).

Definition check_pair_outputs (a : args) : Res unit :=
  fold_left
    (fun acc '(out, paired_out, argname) =>
       let* _ := acc in
       if Bool.eqb (truthy out) (truthy paired_out) then ret tt
       else raise (CommandLineError
         ("When trimming paired-end data, you must use either none or both of the --"
          ++ argname ++ "-output/--" ++ argname ++ "-paired-output options.")))
    [(a.(untrimmed_output), a.(untrimmed_paired_output), "untrimmed");
     (a.(too_short_output), a.(too_short_paired_output), "too-short");
     (a.(too_long_output), a.(too_long_paired_output), "too-long")]
    (ret tt).

Definition check_arguments (a : args) (paired : bool) : Res unit :=
  let* _ :=
    if negb paired then
      if truthy a.(untrimmed_paired_output) then
        raise (CommandLineError "Option --untrimmed-paired-output can only be used when trimming paired-end reads.")
      else if a.(pair_adapters) then
        raise (CommandLineError "Option --pair-adapters can only be used when trimming paired-end reads")
      else ret tt
    else ret tt in
  let* _ :=
    if paired && negb a.(interleaved) then
      if negb (truthy a.(paired_output)) then
        raise (CommandLineError "When a paired-end trimming option such as -A/-G/-B/-U, is used, a second output file needs to be specified via -p (--paired-output).")
      else if negb (truthy a.(output)) then
        raise (CommandLineError "When you use -p or --paired-output, you must also use the -o option.")
      else check_pair_outputs a
    else ret tt in
  if a.(overlap) <? 1 then raise (CommandLineError "The overlap must be at least 1.")
  else if negb (Qle_bool 0 a.(gc_content) && Qle_bool a.(gc_content) 100) then
    raise (CommandLineError "GC content must be given as percentage between 0 and 100")
  else if a.(pair_adapters) && negb (a.(times) =? 1) then
    raise (CommandLineError "--pair-adapters cannot be used with --times")
  else ret tt.

Definition estimate_compression_threads (cores : Z) : Z := Z.max 0 (Z.min cores 4).

(* ------------------------------------------------------------------ *)
(** ** Adapters, modifiers and pipelines *)

Record adapter := mkAdapter {
  adapter_name : string;
  adapter_kind : string;
  adapter_sequence : string
}.

Inductive modifier :=
| UnconditionalCutter (len : Z)
| NextseqQualityTrimmer (cutoff base : Z)
| QualityTrimmer (cutoff_front cutoff_back base : Z)
| AdapterCutter (ads : list adapter) (times : Z) (act : option string) (allow_index : bool)
| ReverseComplementer (m : modifier) (rc_suffix : option string)
| Shortener (len : Z)
| NEndTrimmer
| LengthTagModifier (tag : string)
| SuffixRemover (sfx : string)
| PrefixSuffixAdder (pfx sfx : string)
| ZeroCapper (base : Z)
| Renamer (template : string).

Inductive paired_modifier :=
| PairedAdapterCutter (ads1 ads2 : list adapter) (act : option string)
| PairedEndRenamer (template : string).

(** One entry of the pipeline's modifier list: a modifier for single-end
    reads, a pair of optional modifiers for R1 and R2, or a modifier that
    sees the whole pair. *)
Inductive step :=
| Single (m : modifier)
| Pair (m1 m2 : option modifier)
| PairedStep (pm : paired_modifier).

(** [SingleEndPipeline] ([pl_paired = false]) and [PairedEndPipeline]
    ([pl_paired = true]) with the attributes set by the CLI layer. *)
Record pipeline := mkPipeline {
  pl_paired : bool;
  pl_pair_filter_mode : option string;
  pl_override_untrimmed_pair_filter : bool;
  pl_modifiers : list step;
  pl_minimum_length : option (list (option Z));
  pl_maximum_length : option (list (option Z));
  pl_max_n : option Q;
  pl_max_expected_errors : option Q;
  pl_discard_casava : bool;
  pl_discard_trimmed : bool;
  pl_discard_untrimmed : bool
}.

Definition SingleEndPipeline : pipeline :=
  mkPipeline false None false [] None None None None false false false.

Definition PairedEndPipeline (pair_filter_mode : string) : pipeline :=
  mkPipeline true (Some pair_filter_mode) false [] None None None None false false false.

Definition with_modifiers (p : pipeline) (ms : list step) : pipeline :=
  mkPipeline p.(pl_paired) p.(pl_pair_filter_mode) p.(pl_override_untrimmed_pair_filter)
    ms p.(pl_minimum_length) p.(pl_maximum_length) p.(pl_max_n)
    p.(pl_max_expected_errors) p.(pl_discard_casava) p.(pl_discard_trimmed)
    p.(pl_discard_untrimmed).

Definition set_override (p : pipeline) : pipeline :=
  mkPipeline p.(pl_paired) p.(pl_pair_filter_mode) true
    p.(pl_modifiers) p.(pl_minimum_length) p.(pl_maximum_length) p.(pl_max_n)
    p.(pl_max_expected_errors) p.(pl_discard_casava) p.(pl_discard_trimmed)
    p.(pl_discard_untrimmed).

(** [SingleEndPipeline.add(m)]; the paired pipeline's [add] takes two. *)
Definition add1 (p : pipeline) (m : modifier) : Res pipeline :=
  if p.(pl_paired) then raise (TypeError "add() missing 1 required positional argument")
  else ret (with_modifiers p (p.(pl_modifiers) ++ [Single m])%list).

(** [PairedEndPipeline.add(m1, m2)] *)
Definition add2 (p : pipeline) (m1 m2 : option modifier) : Res pipeline :=
  if p.(pl_paired) then ret (with_modifiers p (p.(pl_modifiers) ++ [Pair m1 m2])%list)
  else raise (TypeError "add() takes 2 positional arguments but 3 were given").

(** [PairedEndPipeline.add_both(m)]: the modifier and a copy of it. *)
Definition add_both (p : pipeline) (m : modifier) : Res pipeline := add2 p (Some m) (Some m).

Definition add_paired_modifier (p : pipeline) (pm : paired_modifier) : Res pipeline :=
  if p.(pl_paired) then ret (with_modifiers p (p.(pl_modifiers) ++ [PairedStep pm])%list)
  else raise (AttributeError "'SingleEndPipeline' object has no attribute 'add_paired_modifier'").

(* ------------------------------------------------------------------ *)
(** ** [add_unconditional_cutters] and [add_quality_trimmers] *)

(** The body of the loop of [add_unconditional_cutters] for the [i]-th
    list ([i = 0]: [-u] for R1, [i = 1]: [-U] for R2). *)
Definition add_cut (i : nat) (p : Res pipeline) (c : Z) : Res pipeline :=
  let* p := p in
  if c =? 0 then ret p
  else match i with
       | O => if p.(pl_paired) then add2 p (Some (UnconditionalCutter c)) None
              else add1 p (UnconditionalCutter c)
       | _ => if p.(pl_paired) then add2 p None (Some (UnconditionalCutter c))
              else raise AssertionError
       end.

Definition add_cut_arg (i : nat) (p : pipeline) (cut_arg : list Z) : Res pipeline :=
  match cut_arg with
  | [] => ret p
  | _ =>
      if Nat.ltb 2 (List.length cut_arg) then
        raise (CommandLineError "You cannot remove bases from more than two ends.")
      else match cut_arg with
           | [c0; c1] =>
               if 0 <? c0 * c1 then
                 raise (CommandLineError "You cannot remove bases from the same end twice.")
               else fold_left (add_cut i) cut_arg (ret p)
           | _ => fold_left (add_cut i) cut_arg (ret p)
           end
  end.

Definition add_unconditional_cutters (p : pipeline) (cut1 cut2 : list Z) : Res pipeline :=
  let* p := add_cut_arg 0 p cut1 in
  add_cut_arg 1 p cut2.

Definition qtrimmer (cutoff : option string) (quality_base : Z) : Res (option modifier) :=
  match cutoff with
  | Some c =>
      if String.eqb c "0" then ret None
      else let* cs := parse_cutoffs c in
           ret (Some (QualityTrimmer (fst cs) (snd cs) quality_base))
  | None => ret None
  end.

Definition add_quality_trimmers (p : pipeline) (cutoff1 cutoff2 : option string)
    (quality_base : Z) : Res pipeline :=
  let* q0 := qtrimmer cutoff1 quality_base in
  let* q1 := qtrimmer cutoff2 quality_base in
  if p.(pl_paired) then
    let q1 := if is_some cutoff1 && negb (is_some cutoff2) then q0 else q1 in
    if is_some q0 || is_some q1 then add2 p q0 q1 else ret p
  else match q0 with
       | Some q => add1 p q
       | None => ret p
       end.

(* ------------------------------------------------------------------ *)
(** ** Modifier constructors that can fail *)

(** Modelled from the spec: the constructor of [PairedAdapterCutter]
    ([cutadapt/modifiers.py], not part of the sources).  R1 adapter [i] is
    paired with R2 adapter [i]; lists that cannot be paired (different
    lengths, or no adapters) are rejected at construction. *)
Definition mk_PairedAdapterCutter (ads1 ads2 : list adapter) (act : option string)
    : Res paired_modifier :=
  if negb (Nat.eqb (List.length ads1) (List.length ads2)) then
    raise (PairedAdapterCutterError
      "The number of adapters to trim from R1 and R2 must be the same.")
  else if negb (nonempty ads1) then raise (PairedAdapterCutterError "No adapters given")
  else ret (PairedAdapterCutter ads1 ads2 act).

(** Modelled from the spec: the variables of a [--rename] template
    ([cutadapt/modifiers.py], not part of the sources): the names written
    between [{] and [}]. *)
Fixpoint template_vars_from (s : string) (cur : option string) : list string :=
  match s with
  | EmptyString => []
  | String c s' =>
      if Ascii.eqb c "{"%char then template_vars_from s' (Some "")
      else if Ascii.eqb c "}"%char then
        match cur with
        | Some v => v :: template_vars_from s' None
        | None => template_vars_from s' None
        end
      else match cur with
           | Some v => template_vars_from s' (Some (v ++ String c ""))
           | None => template_vars_from s' None
           end
  end.

Definition template_vars (template : string) : list string :=
  template_vars_from template None.

(** Modelled from the spec: the variables [Renamer] supports. *)
Definition renamer_variables : list string :=
  ["id"; "header"; "comment"; "adapter_name"; "match_sequence";
   "cut_prefix"; "cut_suffix"; "rc"].

(** Modelled from the spec: the variables of [PairedEndRenamer], the
    single-end ones and their [_1]/[_2] suffixed forms. *)
Definition paired_renamer_variables : list string :=
  renamer_variables
  ++ map (fun v => v ++ "_1") renamer_variables
  ++ map (fun v => v ++ "_2") renamer_variables.

Definition mem (x : string) (l : list string) : bool :=
  existsb (String.eqb x) l.

(** Modelled from the spec: an unknown variable in the template raises
    [InvalidTemplate] when the renamer is constructed. *)
Definition check_template (template : string) (variables : list string) : Res unit :=
  match filter (fun v => negb (mem v variables)) (template_vars template) with
  | [] => ret tt
  | v :: _ => raise (InvalidTemplate ("Unknown variable '" ++ v ++ "' in template"))
  end.

Definition mk_Renamer (template : string) : Res modifier :=
  let* _ := check_template template renamer_variables in ret (Renamer template).

Definition mk_PairedEndRenamer (template : string) : Res paired_modifier :=
  let* _ := check_template template paired_renamer_variables in
  ret (PairedEndRenamer template).

(* ------------------------------------------------------------------ *)
(** ** [add_adapter_cutter] and [pipeline_from_parsed_args] *)

Section Construction.

(** Whether the constructor of [AdapterCutter] ([cutadapt/modifiers.py],
    not part of the sources) raises [ValueError], and with which message,
    is left open: what is proved in this section holds for every such
    behaviour. *)
Variable AdapterCutter_error : list adapter -> Z -> option string -> bool -> option string.

Definition mk_AdapterCutter (ads : list adapter) (times : Z) (act : option string)
    (allow_index : bool) : Res modifier :=
  match AdapterCutter_error ads times act allow_index with
  | Some m => raise (ValueError m)
  | None => ret (AdapterCutter ads times act allow_index)
  end.

Definition add_adapter_cutter (p : pipeline) (ads ads2 : list adapter) (paired : bool)
    (pair_adapters : bool) (act : option string) (times : Z)
    (reverse_complement : bool) (add_rc_suffix : bool) (allow_index : bool)
    : Res pipeline :=
  if pair_adapters then
    if reverse_complement then
      raise (CommandLineError "Cannot use --revcomp with --pair-adapters")
    else match mk_PairedAdapterCutter ads ads2 act with
         | inl (PairedAdapterCutterError m) => raise (CommandLineError ("--pair-adapters: " ++ m))
         | inl e => raise e
         | inr cutter => add_paired_modifier p cutter
         end
  else
    let cutters :=
      let* ac := if nonempty ads then let* m := mk_AdapterCutter ads times act allow_index in
                                      ret (Some m)
                 else ret None in
      let* ac2 := if nonempty ads2 then let* m := mk_AdapterCutter ads2 times act allow_index in
                                        ret (Some m)
                  else ret None in
      ret (ac, ac2) in
    match cutters with
    | inl (ValueError m) => raise (CommandLineError m)
    | inl e => raise e
    | inr (ac, ac2) =>
        if paired then
          if reverse_complement then
            raise (CommandLineError "--revcomp not implemented for paired-end reads")
          else if is_some ac || is_some ac2 then add2 p ac ac2
          else ret p
        else match ac with
             | Some ac =>
                 let m := if reverse_complement
                          then ReverseComplementer ac (if add_rc_suffix then Some " rc" else None)
                          else ac in
                 add1 p m
             | None => ret p
             end
    end.

Definition modifiers_applying_to_both_ends_if_paired (a : args) : list modifier :=
  (match a.(length) with Some l => [Shortener l] | None => [] end)
  ++ (if a.(trim_n) then [NEndTrimmer] else [])
  ++ (if truthy a.(length_tag) then
        match a.(length_tag) with Some t => [LengthTagModifier t] | None => [] end
      else [])
  ++ map SuffixRemover a.(strip_suffix)
  ++ (if str_truthy a.(prefix) || str_truthy a.(suffix)
      then [PrefixSuffixAdder a.(prefix) a.(suffix)] else [])
  ++ (if a.(zero_cap) then [ZeroCapper a.(quality_base)] else []).

(** The [--rename] part of [pipeline_from_parsed_args]: an
    [InvalidTemplate] raised while the renamer is built becomes a
    [CommandLineError]. *)
Definition add_renamer (p : pipeline) (paired : bool) (template : string) : Res pipeline :=
  let r :=
    if paired then let* pm := mk_PairedEndRenamer template in add_paired_modifier p pm
    else let* m := mk_Renamer template in add1 p m in
  match r with
  | inl (InvalidTemplate m) => raise (CommandLineError m)
  | _ => r
  end.

Definition parse_length_param (paired : bool) (param : option string)
    : Res (option (list (option Z))) :=
  match param with
  | None => ret None
  | Some s =>
      let* lengths := parse_lengths s in
      if negb paired && Nat.eqb (List.length lengths) 2 then
        raise (CommandLineError "Two minimum or maximum lengths given for single-end data")
      else if paired && Nat.eqb (List.length lengths) 1 then
        ret (Some (lengths ++ lengths)%list)
      else ret (Some lengths)
  end.

Definition initial_pipeline (a : args) (paired : bool) : pipeline :=
  if paired then
    PairedEndPipeline (match a.(pair_filter) with None => "any" | Some m => m end)
  else SingleEndPipeline.

(** The condition of lines 668-669 of [pipeline_from_parsed_args]. *)
Definition overrides_untrimmed_pair_filter (p : pipeline) (a : args)
    (ads ads2 : list adapter) : bool :=
  p.(pl_paired)
  && (negb (nonempty ads2) || negb (nonempty ads))
  && (a.(discard_untrimmed) || truthy a.(untrimmed_output)
      || truthy a.(untrimmed_paired_output)).

(** Lines 654-670: the pipeline before any modifier is added. *)
Definition pipeline_init (a : args) (paired : bool) (ads ads2 : list adapter) : pipeline :=
  let p := initial_pipeline a paired in
  if overrides_untrimmed_pair_filter p a ads ads2 then set_override p else p.

Definition pipeline_from_parsed_args (a : args) (paired : bool) (ads ads2 : list adapter)
    : Res pipeline :=
  let act := match a.(action) with
             | Some x => if String.eqb x "none" then None else Some x
             | None => None
             end in
  let p := pipeline_init a paired ads ads2 in
  let* p := add_unconditional_cutters p a.(cut) a.(cut2) in
  let pipeline_add := if paired then add_both else add1 in
  let* p := match a.(nextseq_trim) with
            | Some c => pipeline_add p (NextseqQualityTrimmer c a.(quality_base))
            | None => ret p
            end in
  let* p := add_quality_trimmers p a.(quality_cutoff) a.(quality_cutoff2) a.(quality_base) in
  let* p := add_adapter_cutter p ads ads2 paired a.(pair_adapters) act a.(times)
              a.(reverse_complement) (negb (truthy a.(rename))) a.(index) in
  let* p := fold_left (fun acc m => let* p := acc in pipeline_add p m)
              (modifiers_applying_to_both_ends_if_paired a) (ret p) in
  let* _ := if truthy a.(rename) && (str_truthy a.(prefix) || str_truthy a.(suffix)) then
              raise (CommandLineError
                "Option --rename cannot be combined with --prefix (-x) or --suffix (-y)")
            else ret tt in
  let* p := match a.(rename) with
            | Some r => if str_truthy r && negb (String.eqb r "{header}")
                        then add_renamer p paired r else ret p
            | None => ret p
            end in
  let* minl := parse_length_param paired a.(minimum_length) in
  let* maxl := parse_length_param paired a.(maximum_length) in
  ret (mkPipeline p.(pl_paired) p.(pl_pair_filter_mode) p.(pl_override_untrimmed_pair_filter)
         p.(pl_modifiers) minl maxl a.(max_n) a.(max_expected_errors)
         a.(discard_casava) a.(discard_trimmed) a.(discard_untrimmed)).

End Construction.

(* ------------------------------------------------------------------ *)
(** ** Opening output files

    The files opened so far form a log of [(role, path)] entries; a file
    handle is represented by the path it was opened on.  An exception does
    not undo the openings that preceded it. *)

Definition combo := (option string * option string)%type.

Inductive role :=
| RestFile | InfoFile | WildcardFile
| TooShort | TooShort2 | TooLong | TooLong2
| Untrimmed | Untrimmed2 | Out | Out2
| DemultiplexOut (name : string) | DemultiplexOut2 (name : string)
| CombinatorialOut (key : combo) | CombinatorialOut2 (key : combo).

(** The roles of the files that receive trimmed reads ([-o]/[-p] and
    the demultiplexed outputs derived from them). *)
Definition trimmed_output_role (r : role) : bool :=
  match r with
  | Out | Out2 | DemultiplexOut _ | DemultiplexOut2 _
  | CombinatorialOut _ | CombinatorialOut2 _ => true
  | _ => false
  end.

Definition opened := list (role * string).

Definition FIO (A : Type) : Type := opened -> opened * Res A.

Definition fret {A} (a : A) : FIO A := fun log => (log, inr a).
Definition fraise {A} (e : exn) : FIO A := fun log => (log, inl e).
Definition lift {A} (r : Res A) : FIO A := fun log => (log, r).
Definition fbind {A B} (m : FIO A) (k : A -> FIO B) : FIO B :=
  fun log => match m log with
             | (log', inl e) => (log', inl e)
             | (log', inr a) => k a log'
             end.

Notation "x <- m ;; k" := (fbind m (fun x => k))
  (at level 61, m at next level, right associativity).

Fixpoint fmap_list {A B} (f : A -> FIO B) (l : list A) : FIO (list B) :=
  match l with
  | [] => fret []
  | x :: xs => y <- f x ;; ys <- fmap_list f xs ;; fret (y :: ys)
  end.

(** [None] for the [False] that [determine_demultiplex_mode] returns. *)
Inductive demultiplex_mode := Normal | Combinatorial.

Definition determine_demultiplex_mode (a : args) : Res (option demultiplex_mode) :=
  let demultiplex := match a.(output) with Some o => contains "{name}" o | None => false end in
  let* _ := match a.(paired_output) with
            | Some po =>
                if negb (Bool.eqb demultiplex (contains "{name}" po)) then
                  raise (CommandLineError "When demultiplexing paired-end data, '{name}' must appear in both output file names (-o and -p)")
                else ret tt
            | None => ret tt
            end in
  let demultiplex_combinatorial :=
    match a.(output), a.(paired_output) with
    | Some o, Some po =>
        contains "{name1}" o && contains "{name2}" o
        && contains "{name1}" po && contains "{name2}" po
    | _, _ => false
    end in
  if demultiplex && demultiplex_combinatorial then
    raise (CommandLineError "You cannot combine {name} with {name1} and {name2}")
  else if demultiplex then ret (Some Normal)
  else if demultiplex_combinatorial then ret (Some Combinatorial)
  else ret None.

Section Files.

(** Whether the file system lets a path be opened for writing: [xopen]
    raises [OSError] otherwise. *)
Variable can_open : string -> bool.

Definition xopen (r : role) (path : string) : FIO string :=
  fun log => if can_open path then ((log ++ [(r, path)])%list, inr path)
             else (log, inl (OSError path)).

Definition xopen_or_none (r : role) (path : option string) : FIO (option string) :=
  match path with
  | Some p => f <- xopen r p ;; fret (Some f)
  | None => fret None
  end.

(** [FileOpener.xopen_pair] ([cutadapt/utils.py], not part of the
    sources): a second path without a first one raises [ValueError];
    otherwise each of the two paths that is given is opened. *)
Definition xopen_pair (r1 r2 : role) (p1 p2 : option string)
    : FIO (option string * option string) :=
  match p1, p2 with
  | None, Some _ =>
      fraise (ValueError "When giving paths for paired-end files, only providing the second file is not supported")
  | _, _ =>
      f1 <- xopen_or_none r1 p1 ;;
      f2 <- xopen_or_none r2 p2 ;;
      fret (f1, f2)
  end.

Definition py_replace (s : option string) (old new : string) : Res string :=
  match s with
  | Some s => ret (replace s old new)
  | None => raise (AttributeError "'NoneType' object has no attribute 'replace'")
  end.

Definition combinatorial_keys (a : args) (names names2 : list string) : list combo :=
  let extra := if a.(discard_untrimmed) then []
               else ([(None, None)]
                     ++ map (fun n2 => (None, Some n2)) names2
                     ++ map (fun n1 => (Some n1, None)) names)%list in
  (list_prod (map Some names) (map Some names2) ++ extra)%list.

Definition fname (n : option string) : string :=
  match n with Some n => n | None => "unknown" end.

Definition combinatorial_path (template : option string) (k : combo) : Res string :=
  let* p := py_replace template "{name1}" (fname (fst k)) in
  py_replace (Some p) "{name2}" (fname (snd k)).

Definition open_combinatorial_out (names names2 : list string) (a : args)
    : FIO (list (combo * string) * list (combo * string)) :=
  files <- fmap_list (fun k =>
             path1 <- lift (combinatorial_path a.(output) k) ;;
             path2 <- lift (combinatorial_path a.(paired_output) k) ;;
             f1 <- xopen (CombinatorialOut k) path1 ;;
             f2 <- xopen (CombinatorialOut2 k) path2 ;;
             fret ((k, f1), (k, f2)))
           (combinatorial_keys a names names2) ;;
  if truthy a.(untrimmed_output) || truthy a.(untrimmed_paired_output) then
    fraise (CommandLineError "Combinatorial demultiplexing (with {name1} and {name2}) cannot be combined with --untrimmed-output or --untrimmed-paired-output")
  else fret (map fst files, map snd files).

Definition open_demultiplex_out (names : list string) (a : args)
    : FIO (list (string * string) * option (list (string * string))
           * option string * option string) :=
  files <- fmap_list (fun name =>
             path1 <- lift (py_replace a.(output) "{name}" name) ;;
             f1 <- xopen (DemultiplexOut name) path1 ;;
             f2 <- (match a.(paired_output) with
                    | Some po => f <- xopen (DemultiplexOut2 name) (replace po "{name}" name) ;;
                                 fret (Some f)
                    | None => fret None
                    end) ;;
             fret ((name, f1), (name, f2)))
           names ;;
  untrimmed_path <- lift (py_replace a.(output) "{name}" "unknown") ;;
  let untrimmed_path := if truthy a.(untrimmed_output)
                        then match a.(untrimmed_output) with Some u => u | None => untrimmed_path end
                        else untrimmed_path in
  untrimmed <- (if a.(discard_untrimmed) then fret None
                else f <- xopen Untrimmed untrimmed_path ;; fret (Some f)) ;;
  untrimmed2 <- (match a.(paired_output) with
                 | Some po =>
                     let p2 := if truthy a.(untrimmed_paired_output)
                               then match a.(untrimmed_paired_output) with Some u => u | None => po end
                               else replace po "{name}" "unknown" in
                     if a.(discard_untrimmed) then fret None
                     else f <- xopen Untrimmed2 p2 ;; fret (Some f)
                 | None => fret None
                 end) ;;
  let demultiplex_out := map fst files in
  let demultiplex_out2 :=
    match a.(paired_output) with
    | Some _ => Some (flat_map (fun '(n, f) => match f with Some f => [(n, f)] | None => [] end)
                                (map snd files))
    | None => None
    end in
  fret (demultiplex_out, demultiplex_out2, untrimmed, untrimmed2).

(** The [OutputFiles] instance; a file is represented by its path. *)
Record output_files := mkOutputFiles {
  of_rest : option string;
  of_info : option string;
  of_wildcard : option string;
  of_too_short : option string;
  of_too_short2 : option string;
  of_too_long : option string;
  of_too_long2 : option string;
  of_untrimmed : option string;
  of_untrimmed2 : option string;
  of_out : option string;
  of_out2 : option string;
  of_demultiplex_out : option (list (string * string));
  of_demultiplex_out2 : option (list (string * string));
  of_combinatorial_out : option (list (combo * string));
  of_combinatorial_out2 : option (list (combo * string));
  of_force_fasta : bool
}.

Definition b2z (b : bool) : Z := if b then 1 else 0.

(** Lines 409-421: the side files opened before any check. *)
Definition open_side_files (a : args)
    : FIO (option string * option string * option string
           * (option string * option string) * (option string * option string)) :=
  rest_file <- xopen_or_none RestFile a.(rest_file) ;;
  info_file <- xopen_or_none InfoFile a.(info_file) ;;
  wildcard <- xopen_or_none WildcardFile a.(wildcard_file) ;;
  too_short <- (if is_some a.(minimum_length)
                then xopen_pair TooShort TooShort2 a.(too_short_output) a.(too_short_paired_output)
                else fret (None, None)) ;;
  too_long <- (if is_some a.(maximum_length)
               then xopen_pair TooLong TooLong2 a.(too_long_output) a.(too_long_paired_output)
               else fret (None, None)) ;;
  fret (rest_file, info_file, wildcard, too_short, too_long).

Definition discard_options_count (a : args) : Z :=
  b2z a.(discard_trimmed) + b2z a.(discard_untrimmed) + b2z (is_some a.(untrimmed_output)).

Definition open_output_files (a : args) (default_outfile : string)
    (names names2 : list string) : FIO output_files :=
  side <- open_side_files a ;;
  let '(rest_file, info_file, wildcard, (too_short, too_short2), (too_long, too_long2)) := side in
  if 1 <? discard_options_count a then
    fraise (CommandLineError "Only one of the --discard-trimmed, --discard-untrimmed and --untrimmed-output options can be used at the same time.")
  else
  mode <- lift (determine_demultiplex_mode a) ;;
  if is_some mode && a.(discard_trimmed) then
    fraise (CommandLineError "Do not use --discard-trimmed when demultiplexing.")
  else
  let mk untrimmed untrimmed2 out out2 dm dm2 cb cb2 :=
    mkOutputFiles rest_file info_file wildcard too_short too_short2 too_long too_long2
      untrimmed untrimmed2 out out2 dm dm2 cb cb2 a.(fasta) in
  match mode with
  | Some Normal =>
      r <- open_demultiplex_out names a ;;
      let '(dm, dm2, untrimmed, untrimmed2) := r in
      fret (mk untrimmed untrimmed2 None None (Some dm) dm2 None None)
  | Some Combinatorial =>
      r <- open_combinatorial_out names names2 a ;;
      fret (mk None None None None None None (Some (fst r)) (Some (snd r)))
  | None =>
      u <- xopen_pair Untrimmed Untrimmed2 a.(untrimmed_output) a.(untrimmed_paired_output) ;;
      o <- xopen_pair Out Out2 a.(output) a.(paired_output) ;;
      let out := match fst o with Some f => f | None => default_outfile end in
      fret (mk (fst u) (snd u) (Some out) (snd o) None None None None)
  end.

End Files.

(* ------------------------------------------------------------------ *)
(** ** [setup_input_files] and [main] *)

Definition nl : string := String (ascii_of_nat 10) EmptyString.
Definition dq : string := String (ascii_of_nat 34) EmptyString.

Fixpoint join (sep : string) (l : list string) : string :=
  match l with
  | [] => ""
  | [x] => x
  | x :: xs => x ++ sep ++ join sep xs
  end.

Definition setup_input_files (ins : list string) (paired interleaved : bool)
    : Res (string * option string) :=
  match ins with
  | [] => raise (CommandLineError "You did not provide any input file names. Please give me something to do!")
  | input_filename :: rest =>
      if Nat.ltb 2 (List.length ins) then
        raise (CommandLineError
          ("You provided " ++ z_to_string (Z.of_nat (List.length ins))
           ++ " input file names, but either one or two are expected. "
           ++ "The file names were:" ++ nl ++ " - "
           ++ join (nl ++ " - ") (map (fun p => "'" ++ p ++ "'") ins)
           ++ nl ++ "Hint: If your path contains spaces, you need to enclose it in quotes"))
      else if paired && negb interleaved then
        match rest with
        | [] => raise (CommandLineError "You used an option that enabled paired-end mode (such as -p, -A, -G, -B, -U), but then you also need to provide two input files (you provided one) or use --interleaved.")
        | p2 :: _ => ret (input_filename, Some p2)
        end
      else match rest with
           | [] => ret (input_filename, None)
           | _ => raise (CommandLineError "It appears you want to trim paired-end data because you provided two input files, but then you also need to provide two output files (with -o and -p) or use the --interleaved option.")
           end
  end.

(** What [parser.parse_known_args] produces: the namespace and the
    arguments it did not recognise, or a call of [parser.error] for a
    malformed option value. *)
Inductive parse_outcome :=
| Parsed (a : args) (leftover_args : list string)
| ParseError (msg : string).

(** How the process ends: [main] returns (and [main_cli] exits with 0),
    [sys.exit(status)] is called, or an exception escapes. *)
Inductive termination :=
| Returned
| Exit (status : Z)
| Uncaught (e : exn).

(** The end of a run of [main]: how it terminated, the text that the
    code of [__main__.py] wrote to standard error (the log records of
    the [logging] module, configured in [cutadapt/log.py], are not part
    of it), and whether the pipeline runner was started. *)
Record main_result := mkMainResult {
  mr_termination : termination;
  mr_stderr : string;
  mr_ran : bool
}.

(** [CutadaptArgumentParser.error]: two hint lines, then [ArgumentParser.exit]
    prints the message and calls [sys.exit(2)]. *)
Definition parser_error (prog message : string) : main_result :=
  mkMainResult (Exit 2)
    ("Run " ++ dq ++ "cutadapt --help" ++ dq ++ " to see command-line options." ++ nl
     ++ "See https://cutadapt.readthedocs.io/ for full documentation." ++ nl
     ++ nl ++ prog ++ ": error: " ++ message ++ nl)
    false.

Section Main.

Variable AdapterCutter_error : list adapter -> Z -> option string -> bool -> option string.
Variable can_open : string -> bool.
(** [adapters_from_args] (the adapter parser is not part of the sources). *)
Variable adapters_from_args : args -> Res (list adapter * list adapter).
(** [setup_runner]: it turns the errors of opening the inputs into
    [CommandLineError]s. *)
Variable setup_runner : Res unit.
Variable available_cpu_count : Z.

(** The [try] block of lines 909-920. *)
Definition main_setup (a : args) (paired : bool) (default_outfile : string) : Res unit :=
  let is_interleaved_input := a.(interleaved) && Nat.eqb (List.length a.(inputs)) 1 in
  let* _ := setup_input_files a.(inputs) paired is_interleaved_input in
  let* _ := check_arguments a paired in
  let* ads := adapters_from_args a in
  let* _ := pipeline_from_parsed_args AdapterCutter_error a paired (fst ads) (snd ads) in
  let names := map adapter_name (fst ads) in
  let names2 := map adapter_name (snd ads) in
  let* _ := snd (open_output_files can_open a default_outfile names names2 []) in
  setup_runner.

(** [main]: [run] is what [r.run()] does once the runner is set up. *)
Definition main (prog : string) (parsed : parse_outcome) (default_outfile : string)
    (run : Res unit) : main_result :=
  match parsed with
  | ParseError m => parser_error prog m
  | Parsed a leftover_args =>
      if a.(quiet) && truthy a.(report) then
        parser_error prog "Options --quiet and --report cannot be used at the same time"
      else if nonempty leftover_args then
        parser_error prog ("unrecognized arguments: " ++ join " " leftover_args)
      else if a.(cores) <? 0 then
        parser_error prog "Value for --cores cannot be negative"
      else
        let paired := determine_paired a in
        match main_setup a paired default_outfile with
        | inl (CommandLineError m) => parser_error prog m
        | inl e => mkMainResult (Uncaught e) "" false
        | inr _ =>
            match run with
            | inr _ => mkMainResult Returned "" true
            | inl KeyboardInterrupt => mkMainResult (Exit 130) ("Interrupted" ++ nl) true
            | inl BrokenPipeError => mkMainResult (Exit 1) "" true
            | inl (FileFormatError m) | inl (UnknownFileFormat m) | inl (EOFError m) =>
                mkMainResult (Exit 1) ("cutadapt: error: " ++ m ++ nl) true
            | inl e => mkMainResult (Uncaught e) "" true
            end
        end
  end.

(** The number of cores [main] works with, and [None] when it stops
    because [--cores] is negative. *)
Definition main_cores (a : args) : option Z :=
  if a.(cores) <? 0 then None
  else Some (if a.(cores) =? 0 then available_cpu_count else a.(cores)).

End Main.

(* ------------------------------------------------------------------ *)
(** ** Vocabulary of the properties *)

(** The options that, following the spec's list, enable paired-end mode
    when they are supplied at all. *)
Definition paired_option_given (a : args) : bool :=
  is_some a.(paired_output) || a.(interleaved) || nonempty a.(adapters2)
  || nonempty a.(cut2) || is_some a.(pair_filter) || is_some a.(untrimmed_paired_output)
  || is_some a.(too_short_paired_output) || is_some a.(too_long_paired_output)
  || is_some a.(quality_cutoff2).

(** An option was supplied with a non-empty string value. *)
Definition supplied_nonempty (o : option string) : Prop :=
  exists s, o = Some s /\ s <> "".

(** No string option that enables paired-end mode was given the empty
    string. *)
Definition no_empty_paired_option (a : args) : Prop :=
  a.(paired_output) <> Some "" /\ a.(pair_filter) <> Some ""
  /\ a.(untrimmed_paired_output) <> Some "" /\ a.(too_short_paired_output) <> Some ""
  /\ a.(too_long_paired_output) <> Some "" /\ a.(quality_cutoff2) <> Some "".

(** A list of [-u] (or [-U]) values that [add_unconditional_cutters]
    accepts: at most two values and, for two, a product that is not
    positive (the two are not both positive nor both negative). *)
Definition cut_list_ok (l : list Z) : bool :=
  Nat.leb (List.length l) 2
  && (if Nat.eqb (List.length l) 2 then nth 0 l 0 * nth 1 l 0 <=? 0 else true).

(** The spec's wording: at most two values, of opposite signs when two. *)
Definition cut_list_opposite_signs (l : list Z) : bool :=
  Nat.leb (List.length l) 2
  && (if Nat.eqb (List.length l) 2 then nth 0 l 0 * nth 1 l 0 <? 0 else true).

Definition count_newlines (s : string) : nat :=
  List.length (filter (fun c => Ascii.eqb c (ascii_of_nat 10)) (list_ascii_of_string s)).

(** The two flags that the construction of a pipeline fixes at the start. *)
Definition flags (p : pipeline) : bool * bool :=
  (p.(pl_paired), p.(pl_override_untrimmed_pair_filter)).


(** The path [open_combinatorial_out] uses for key [k] and template [t]. *)
Definition comb_path (t : string) (k : combo) : string :=
  replace (replace t "{name1}" (fname (fst k))) "{name2}" (fname (snd k)).

(** The file pair of key [k] was opened, at the paths obtained from the
    templates of [-o] and [-p]. *)
Definition combinatorial_pair_opened (a : args) (log : opened) (k : combo) : Prop :=
  exists o po, output a = Some o /\ paired_output a = Some po /\
    In (CombinatorialOut k, comb_path o k) log /\ In (CombinatorialOut2 k, comb_path po k) log.

(** The spec's condition for combinatorial demultiplexing: both output
    templates contain [{name1}] and [{name2}]. *)
(** A template contains [{name}]. *)
Definition has_name (t : option string) : bool :=
  match t with Some s => contains "{name}" s | None => false end.

Definition templates_have_name1_name2 (a : args) : bool :=
  match output a, paired_output a with
  | Some o, Some po =>
      contains "{name1}" o && contains "{name2}" o
      && contains "{name1}" po && contains "{name2}" po
  | _, _ => false
  end.

(** A second path is given without the first one: [xopen_pair] refuses
    such a pair. *)
Definition lone_second (p1 p2 : option string) : bool :=
  match p1, p2 with None, Some _ => true | _, _ => false end.

(** The too-short and too-long pairs that [open_side_files] opens (under
    [-m] and [-M] respectively) have no lone second path. *)
Definition side_pairs_ok (a : args) : bool :=
  negb (is_some a.(minimum_length)
        && lone_second a.(too_short_output) a.(too_short_paired_output))
  && negb (is_some a.(maximum_length)
           && lone_second a.(too_long_output) a.(too_long_paired_output)).

(** A file-opening computation only appends entries whose role satisfies
    [P] to the log. *)
Definition writes {A} (P : role -> bool) (m : FIO A) : Prop :=
  forall log, exists l', fst (m log) = (log ++ l')%list /\ Forall (fun e => P (fst e) = true) l'.

Definition no_trimmed (r : role) : bool := negb (trimmed_output_role r).

(** The two log entries [open_combinatorial_out] writes for one key. *)
Definition comb_entries (o po : string) (k : combo) : opened :=
  [(CombinatorialOut k, comb_path o k); (CombinatorialOut2 k, comb_path po k)].

(** Whether character [c] occurs in [s]. *)
Fixpoint has_char (c : ascii) (s : string) : bool :=
  match s with
  | EmptyString => false
  | String x s' => Ascii.eqb x c || has_char c s'
  end.

(** One step of reading a decimal digit string. *)
Definition digit_step (acc : Z) (c : ascii) : Z := acc * 10 + digit_value c.

(** The only exception a computation can raise is [CommandLineError]. *)
Definition cmdline_only {A} (r : Res A) : Prop :=
  forall e, r = inl e -> exists m, e = CommandLineError m.

(** The variables a [--rename] template may use in the given mode. *)
Definition supported_variables (paired : bool) : list string :=
  if paired then paired_renamer_variables else renamer_variables.

(** The two hint lines [CutadaptArgumentParser.error] prints. *)
Definition usage_hint : string :=
  "Run " ++ dq ++ "cutadapt --help" ++ dq ++ " to see command-line options." ++ nl
  ++ "See https://cutadapt.readthedocs.io/ for full documentation." ++ nl.

(** [main] gets past its checks of [--quiet]/[--report], of the leftover
    arguments and of [--cores]. *)
Definition main_guards_pass (a : args) (leftover : list string) : bool :=
  negb (a.(quiet) && truthy a.(report)) && negb (nonempty leftover) && (0 <=? a.(cores)).

(* ================================================================== *)
(** * Properties *)

Example parse_cutoffs_doctest1 : parse_cutoffs "5" = inr (0, 5).
Proof. reflexivity. Qed.
Example parse_cutoffs_doctest2 : parse_cutoffs "6,7" = inr (6, 7).
Proof. reflexivity. Qed.
Example parse_cutoffs_spaces : parse_cutoffs " 1_0 , -3" = inr (10, -3).
Proof. reflexivity. Qed.
Example parse_lengths_doctest : parse_lengths ":25" = inr [None; Some 25].
Proof. reflexivity. Qed.
Example z_to_string_ex : z_to_string (-1204) = "-1204".
Proof. reflexivity. Qed.
Example replace_ex : replace "out_{name1}_{name2}.fq" "{name1}" "A" = "out_A_{name2}.fq".
Proof. reflexivity. Qed.
Example template_vars_ex : template_vars "{id}_x{rc}" = ["id"; "rc"].
Proof. reflexivity. Qed.

(** ** Pipeline flags are fixed before the first modifier is added *)

Ltac res_destruct H :=
  match type of H with
  | bind ?m _ = _ =>
      let E := fresh "E" in
      destruct m as [?e | ?x] eqn:E; cbn [bind] in H; [discriminate H | ]
  end.

Lemma add1_flags p m p' : add1 p m = inr p' -> flags p' = flags p.
Proof. unfold add1. destruct (pl_paired p) eqn:E; intro H; inversion H; reflexivity. Qed.

Lemma add2_flags p m1 m2 p' : add2 p m1 m2 = inr p' -> flags p' = flags p.
Proof. unfold add2. destruct (pl_paired p) eqn:E; intro H; inversion H; reflexivity. Qed.

Lemma add_both_flags p m p' : add_both p m = inr p' -> flags p' = flags p.
Proof. apply add2_flags. Qed.

Lemma add_paired_modifier_flags p m p' : add_paired_modifier p m = inr p' -> flags p' = flags p.
Proof. unfold add_paired_modifier. destruct (pl_paired p); intro H; inversion H; reflexivity. Qed.

Lemma fold_add_cut_flags i l : forall r p0 p',
  (forall p, r = inr p -> flags p = flags p0) ->
  fold_left (add_cut i) l r = inr p' -> flags p' = flags p0.
Proof.
  induction l as [|c l IH]; simpl; intros r p0 p' Hr H.
  - auto.
  - refine (IH _ p0 p' _ H). intros p Hp.
    destruct r as [e|q]; cbn [add_cut bind] in Hp; [discriminate|].
    rewrite <- (Hr q eq_refl).
    destruct (c =? 0); [inversion Hp; reflexivity|].
    destruct i; destruct (pl_paired q);
      first [ apply add1_flags in Hp | apply add2_flags in Hp | discriminate ]; exact Hp.
Qed.

Lemma add_cut_arg_flags i p l p' : add_cut_arg i p l = inr p' -> flags p' = flags p.
Proof.
  unfold add_cut_arg. intro H.
  destruct l as [|c0 [|c1 [|c2 l]]]; try (inversion H; reflexivity);
    try (destruct (Nat.ltb _ _); [discriminate|]);
    try (destruct (0 <? c0 * c1); [discriminate|]);
    (eapply fold_add_cut_flags; [|exact H]; intros q Hq; inversion Hq; reflexivity).
Qed.

Lemma add_unconditional_cutters_flags p c1 c2 p' :
  add_unconditional_cutters p c1 c2 = inr p' -> flags p' = flags p.
Proof.
  unfold add_unconditional_cutters. intro H. res_destruct H.
  apply add_cut_arg_flags in E. apply add_cut_arg_flags in H. congruence.
Qed.

Lemma add_quality_trimmers_flags p c1 c2 b p' :
  add_quality_trimmers p c1 c2 b = inr p' -> flags p' = flags p.
Proof.
  unfold add_quality_trimmers. intro H. res_destruct H. res_destruct H.
  destruct (pl_paired p).
  - destruct (_ || _); [apply add2_flags in H; exact H | inversion H; reflexivity].
  - destruct x; [apply add1_flags in H; exact H | inversion H; reflexivity].
Qed.

Lemma add_adapter_cutter_flags ace p ads ads2 paired pa act times rc suf idx p' :
  add_adapter_cutter ace p ads ads2 paired pa act times rc suf idx = inr p' ->
  flags p' = flags p.
Proof.
  unfold add_adapter_cutter, bind, mk_AdapterCutter, raise, ret. intro H.
  repeat match goal with
         | H : inl _ = inr _ |- _ => discriminate H
         | H : inr _ = inr _ |- _ => inversion H; clear H; subst; reflexivity
         | H : add1 _ _ = inr _ |- _ => apply add1_flags in H; exact H
         | H : add2 _ _ _ = inr _ |- _ => apply add2_flags in H; exact H
         | H : add_paired_modifier _ _ = inr _ |- _ => apply add_paired_modifier_flags in H; exact H
         | H : context [if ?x then _ else _] |- _ => destruct x eqn:?
         | H : context [match ?x with _ => _ end] |- _ => destruct x eqn:?
         end.
Qed.

Lemma fold_pipeline_add_flags (add : pipeline -> modifier -> Res pipeline) ms :
  (forall p m p', add p m = inr p' -> flags p' = flags p) ->
  forall r p0 p',
  (forall p, r = inr p -> flags p = flags p0) ->
  fold_left (fun acc m => let* p := acc in add p m) ms r = inr p' -> flags p' = flags p0.
Proof.
  intros Hadd. induction ms as [|m ms IH]; simpl; intros r p0 p' Hr H.
  - auto.
  - refine (IH _ p0 p' _ H). intros p Hp.
    destruct r as [e|q]; cbn [bind] in Hp; [discriminate|].
    rewrite <- (Hr q eq_refl). exact (Hadd _ _ _ Hp).
Qed.

Lemma add_renamer_flags p paired t p' : add_renamer p paired t = inr p' -> flags p' = flags p.
Proof.
  unfold add_renamer. intro H.
  destruct paired; cbn zeta in H.
  - destruct (mk_PairedEndRenamer t) as [e|pm]; cbn [bind] in H.
    + destruct e; discriminate H.
    + destruct (add_paired_modifier p pm) as [e'|q] eqn:E'; [destruct e'; discriminate H|].
      inversion H; subst. exact (add_paired_modifier_flags _ _ _ E').
  - destruct (mk_Renamer t) as [e|m]; cbn [bind] in H.
    + destruct e; discriminate H.
    + destruct (add1 p m) as [e'|q] eqn:E'; [destruct e'; discriminate H|].
      inversion H; subst. exact (add1_flags _ _ _ E').
Qed.

(** Every modifier-adding step keeps the flags of the initial pipeline. *)
Lemma pipeline_from_parsed_args_flags ace a paired ads ads2 p' :
  pipeline_from_parsed_args ace a paired ads ads2 = inr p' ->
  flags p' = flags (pipeline_init a paired ads ads2).
Proof.
  unfold pipeline_from_parsed_args. cbv zeta. intro H.
  res_destruct H. res_destruct H. res_destruct H. res_destruct H. res_destruct H.
  res_destruct H. res_destruct H. res_destruct H. res_destruct H.
  inversion H; subst; clear H.
  unfold flags at 1; cbn [pl_paired pl_override_untrimmed_pair_filter].
  change (flags x5 = flags (pipeline_init a paired ads ads2)).
  apply add_unconditional_cutters_flags in E.
  assert (E0' : flags x0 = flags x).
  { destruct (nextseq_trim a); [destruct paired; [apply add_both_flags in E0 | apply add1_flags in E0]; exact E0|].
    inversion E0; reflexivity. }
  apply add_quality_trimmers_flags in E1.
  apply add_adapter_cutter_flags in E2.
  assert (E3' : flags x3 = flags x2).
  { eapply fold_pipeline_add_flags; [| | exact E3].
    - destruct paired; [exact add_both_flags | exact add1_flags].
    - intros q Hq; inversion Hq; reflexivity. }
  assert (E5' : flags x5 = flags x3).
  { destruct (rename a) as [r|]; [|inversion E5; reflexivity].
    destruct (str_truthy r && _); [apply add_renamer_flags in E5; exact E5 | inversion E5; reflexivity]. }
  congruence.
Qed.

Lemma truthy_is_some (o : option string) : truthy o = true -> is_some o = true.
Proof. destruct o; simpl; congruence. Qed.

Lemma truthy_supplied (o : option string) : truthy o = true <-> supplied_nonempty o.
Proof.
  unfold supplied_nonempty. destruct o as [s|]; simpl.
  - destruct (String.eqb_spec s ""); simpl; split.
    + discriminate.
    + intros [s' [E H]]. injection E as <-. contradiction.
    + intros _. exists s. split; [reflexivity | assumption].
    + reflexivity.
  - split; [discriminate | intros [s' [E _]]; discriminate E].
Qed.

Lemma nonempty_true {A} (l : list A) : nonempty l = true <-> l <> [].
Proof. destruct l; simpl; split; congruence. Qed.

Lemma truthy_nonempty_is_some (o : option string) : o <> Some "" -> truthy o = is_some o.
Proof.
  destruct o as [s|]; simpl; [|reflexivity]. intro H.
  destruct (String.eqb_spec s ""); [subst; contradiction | reflexivity].
Qed.

(** ** C1: the override of the untrimmed pair filter *)

(** Claim C1, counterexample: with [-p] and [--discard-untrimmed] but no
    adapter for either read, the constructed paired-end pipeline has the
    override set, although adapters were not given for only one read. *)
Lemma C1_override_set_without_adapters :
  let a := set_discard_untrimmed true (set_paired_output (Some "out.2.fastq") default_args) in
  determine_paired a = true /\
  match pipeline_from_parsed_args (fun _ _ _ _ => None) a (determine_paired a) [] [] with
  | inr p => pl_override_untrimmed_pair_filter p = true
  | inl _ => False
  end.
Proof. vm_compute. split; reflexivity. Qed.

(** Claim C1 (amended): the pipeline built by [pipeline_from_parsed_args]
    has the override of the untrimmed pair filter set exactly when it is
    a paired-end pipeline, the R1 or the R2 adapter list is empty (also
    when both are), and [--discard-untrimmed] is set or a non-empty path
    is given to [--untrimmed-output] or [--untrimmed-paired-output]. *)
Theorem pipeline_override_untrimmed_pair_filter ace a paired ads ads2 p :
  pipeline_from_parsed_args ace a paired ads ads2 = inr p ->
  pl_override_untrimmed_pair_filter p =
    paired && (negb (nonempty ads) || negb (nonempty ads2))
    && (discard_untrimmed a || truthy (untrimmed_output a)
        || truthy (untrimmed_paired_output a)).
Proof.
  intro H. apply pipeline_from_parsed_args_flags in H.
  unfold flags in H. injection H as _ Hov. rewrite Hov.
  unfold pipeline_init, overrides_untrimmed_pair_filter, initial_pipeline.
  destruct paired, (nonempty ads), (nonempty ads2), (discard_untrimmed a),
    (truthy (untrimmed_output a)), (truthy (untrimmed_paired_output a)); reflexivity.
Qed.

Lemma pipeline_override_untrimmed_pair_filter_witness :
  exists p, pipeline_from_parsed_args (fun _ _ _ _ => None)
              (set_untrimmed_output (Some "untrimmed.fastq")
                 (set_paired_output (Some "out.2.fastq") default_args))
              true [mkAdapter "1" "back" "AGATCGGAAGAGC"] [] = inr p
            /\ pl_override_untrimmed_pair_filter p = true.
Proof.
  destruct (pipeline_from_parsed_args (fun _ _ _ _ => None)
              (set_untrimmed_output (Some "untrimmed.fastq")
                 (set_paired_output (Some "out.2.fastq") default_args))
              true [mkAdapter "1" "back" "AGATCGGAAGAGC"] []) as [e|p] eqn:H.
  - vm_compute in H. discriminate H.
  - exists p. split; [reflexivity|].
    rewrite (pipeline_override_untrimmed_pair_filter _ _ _ _ _ _ H). reflexivity.
Defined.

(** ** C5: compression threads *)

(** Claim C5: when [main] goes on with a number of cores (the value of
    [-j], or the detected count for [-j 0]; a negative [-j] stops it
    before), the number of compression threads is [min(cores, 4)], and it
    is never negative. *)
Theorem compression_threads_min_cores cpu a c :
  0 <= cpu -> main_cores cpu a = Some c ->
  estimate_compression_threads c = Z.min c 4 /\ 0 <= estimate_compression_threads c.
Proof.
  unfold main_cores, estimate_compression_threads. intros Hcpu H.
  destruct (cores a <? 0) eqn:Hneg; [discriminate H|].
  apply Z.ltb_ge in Hneg. injection H as <-.
  destruct (cores a =? 0); lia.
Qed.

Lemma compression_threads_min_cores_witness :
  (0 <= 8 /\ main_cores 8 (set_inputs ["reads.fastq"] default_args) = Some 1)
  /\ estimate_compression_threads 1 = Z.min 1 4 /\ 0 <= estimate_compression_threads 1.
Proof.
  assert (H : 0 <= 8 /\ main_cores 8 (set_inputs ["reads.fastq"] default_args) = Some 1)
    by (split; [lia | reflexivity]).
  split; [exact H|].
  exact (compression_threads_min_cores 8 _ 1 (proj1 H) (proj2 H)).
Defined.

(** ** C8: what enables paired-end mode *)

(** Claim C8, counterexample: [-p ''] is supplied, yet paired-end mode is
    not enabled (the empty string is false in Python). *)
Lemma C8_empty_paired_output_not_paired :
  let a := set_paired_output (Some "") default_args in
  paired_option_given a = true /\ determine_paired a = false.
Proof. split; reflexivity. Qed.

(** Claim C8: paired-end mode is enabled only when one of the listed
    options was supplied; it is enabled exactly when [--interleaved] is
    given, an [-A]/[-G]/[-B] adapter or a [-U] value is given, or one of
    [-p], [--pair-filter], [--untrimmed-paired-output],
    [--too-short-paired-output], [--too-long-paired-output] and [-Q] is
    given a non-empty string, so such an option given the empty string
    does not enable it; without empty strings, it is enabled exactly when
    one of the options was supplied. *)
Theorem determine_paired_options a :
  (determine_paired a = true -> paired_option_given a = true) /\
  (determine_paired a = true <->
     supplied_nonempty (paired_output a) \/ interleaved a = true \/
     adapters2 a <> [] \/ cut2 a <> [] \/ supplied_nonempty (pair_filter a) \/
     supplied_nonempty (untrimmed_paired_output a) \/
     supplied_nonempty (too_short_paired_output a) \/
     supplied_nonempty (too_long_paired_output a) \/
     supplied_nonempty (quality_cutoff2 a)) /\
  (no_empty_paired_option a -> determine_paired a = paired_option_given a).
Proof.
  split; [|split].
  - unfold determine_paired, paired_option_given.
    intro H. repeat (apply orb_true_iff in H as [H|H]); rewrite ?orb_true_iff;
      repeat first [ left; solve [eapply truthy_is_some; eauto]
                   | right; solve [eapply truthy_is_some; eauto]
                   | left; solve [auto]
                   | right; solve [auto]
                   | left ].
  - unfold determine_paired. rewrite !orb_true_iff, !truthy_supplied, !nonempty_true.
    tauto.
  - unfold determine_paired, paired_option_given, no_empty_paired_option.
    intros (H1 & H2 & H3 & H4 & H5 & H6).
    rewrite !truthy_nonempty_is_some by assumption. reflexivity.
Qed.

Lemma determine_paired_options_witness :
  determine_paired (set_quality_cutoff2 (Some "20") default_args) = true.
Proof.
  apply (proj2 (proj1 (proj2 (determine_paired_options
                                (set_quality_cutoff2 (Some "20") default_args))))).
  right. right. right. right. right. right. right. right.
  exists "20". split; [reflexivity | discriminate].
Defined.

(** ** C3: unconditional cuts *)

Lemma add_cut_inl i e c : add_cut i (inl e) c = inl e.
Proof. reflexivity. Qed.

Lemma fold_add_cut_inl i l e : fold_left (add_cut i) l (inl e) = inl e.
Proof. induction l; simpl; auto. Qed.

(** The loop never raises [CommandLineError]. *)
Lemma fold_add_cut_no_cmdline_error i l : forall r,
  is_cmdline_error r = false -> is_cmdline_error (fold_left (add_cut i) l r) = false.
Proof.
  induction l as [|c l IH]; simpl; intros r Hr; [exact Hr|].
  apply IH. destruct r as [e|p]; [exact Hr|].
  cbn [add_cut bind]. destruct (c =? 0); [reflexivity|].
  unfold add1, add2.
  destruct i; destruct (pl_paired p); reflexivity.
Qed.

(** For R1 ([i = 0]), and for R2 on a paired-end pipeline, the loop
    always succeeds. *)
Lemma fold_add_cut_succeeds i l : forall p,
  (i = O \/ pl_paired p = true) ->
  exists p', fold_left (add_cut i) l (inr p) = inr p' /\ pl_paired p' = pl_paired p.
Proof.
  induction l as [|c l IH]; simpl; intros p Hi.
  - exists p; auto.
  - cbn [add_cut bind].
    assert (Hstep : exists q, (if c =? 0 then ret p
              else match i with
                   | O => if pl_paired p then add2 p (Some (UnconditionalCutter c)) None
                          else add1 p (UnconditionalCutter c)
                   | S _ => if pl_paired p then add2 p None (Some (UnconditionalCutter c))
                            else raise AssertionError
                   end) = inr q /\ pl_paired q = pl_paired p).
    { destruct (c =? 0); [exists p; auto|].
      unfold add1, add2.
      destruct i as [|i']; destruct (pl_paired p) eqn:Hp.
      - eexists; split; [reflexivity | simpl; congruence].
      - eexists; split; [reflexivity | simpl; congruence].
      - eexists; split; [reflexivity | simpl; congruence].
      - exfalso. destruct Hi as [Hi|Hi]; discriminate Hi. }
    destruct Hstep as [q [Hq Hpq]]. rewrite Hq.
    destruct (IH q) as [p' [H1 H2]].
    { destruct Hi as [Hi|Hi]; [left; exact Hi | right; congruence]. }
    exists p'. split; [exact H1 | congruence].
Qed.

Lemma add_cut_arg_cmdline_error i p l :
  is_cmdline_error (add_cut_arg i p l) = negb (cut_list_ok l).
Proof.
  destruct l as [|c0 [|c1 [|c2 l]]].
  - reflexivity.
  - exact (fold_add_cut_no_cmdline_error i [c0] (ret p) eq_refl).
  - unfold add_cut_arg, cut_list_ok. cbn -[fold_left Z.mul Z.ltb Z.leb].
    rewrite Z.ltb_antisym.
    destruct (c0 * c1 <=? 0); simpl; [|reflexivity].
    exact (fold_add_cut_no_cmdline_error i [c0; c1] (ret p) eq_refl).
  - reflexivity.
Qed.

Lemma add_cut_arg_succeeds i p l :
  cut_list_ok l = true -> (i = O \/ pl_paired p = true) ->
  exists p', add_cut_arg i p l = inr p' /\ pl_paired p' = pl_paired p.
Proof.
  intros Hok Hi.
  destruct l as [|c0 [|c1 [|c2 l]]].
  - exists p. auto.
  - exact (fold_add_cut_succeeds i [c0] p Hi).
  - unfold add_cut_arg. unfold cut_list_ok in Hok. cbn -[fold_left Z.mul Z.ltb Z.leb] in Hok |- *.
    rewrite Z.ltb_antisym, Hok. exact (fold_add_cut_succeeds i [c0; c1] p Hi).
  - discriminate Hok.
Qed.

(** Claim C3, counterexample: the R1 cuts [-u 5 -u 0] are not of opposite
    signs, yet [add_unconditional_cutters] accepts them. *)
Lemma C3_same_sign_zero_accepted :
  cut_list_opposite_signs [5; 0] = false /\
  exists p, add_unconditional_cutters SingleEndPipeline [5; 0] [] = inr p.
Proof. split; [reflexivity | eexists; reflexivity]. Qed.

(** Claim C3 (amended): [add_unconditional_cutters] raises a
    [CommandLineError] exactly when the [-u] list or the [-U] list has
    more than two values, or has two values that are both positive or
    both negative (a product greater than zero; a zero is allowed with
    any value); on a paired-end pipeline it succeeds otherwise. *)
Theorem add_unconditional_cutters_checks p cut1 cut2 :
  is_cmdline_error (add_unconditional_cutters p cut1 cut2)
    = negb (cut_list_ok cut1 && cut_list_ok cut2) /\
  (pl_paired p = true ->
   ((exists p', add_unconditional_cutters p cut1 cut2 = inr p')
    <-> cut_list_ok cut1 && cut_list_ok cut2 = true)).
Proof.
  unfold add_unconditional_cutters. split.
  - destruct (cut_list_ok cut1) eqn:H1.
    + destruct (add_cut_arg_succeeds 0 p cut1 H1 (or_introl eq_refl)) as [p1 [E _]].
      rewrite E. cbn [bind]. apply add_cut_arg_cmdline_error.
    + pose proof (add_cut_arg_cmdline_error 0 p cut1) as H. rewrite H1 in H.
      destruct (add_cut_arg 0 p cut1); [exact H | discriminate H].
  - intro Hp. split.
    + intros [p' E].
      destruct (cut_list_ok cut1) eqn:H1.
      * destruct (add_cut_arg_succeeds 0 p cut1 H1 (or_introl eq_refl)) as [p1 [E1 _]].
        rewrite E1 in E. cbn [bind] in E.
        pose proof (add_cut_arg_cmdline_error 1 p1 cut2) as H2.
        rewrite E in H2. simpl. destruct (cut_list_ok cut2); [reflexivity | discriminate H2].
      * pose proof (add_cut_arg_cmdline_error 0 p cut1) as H. rewrite H1 in H.
        destruct (add_cut_arg 0 p cut1); [discriminate E | discriminate H].
    + intro Hok. apply andb_true_iff in Hok as [H1 H2].
      destruct (add_cut_arg_succeeds 0 p cut1 H1 (or_introl eq_refl)) as [p1 [E1 P1]].
      rewrite E1. cbn [bind].
      destruct (add_cut_arg_succeeds 1 p1 cut2 H2 (or_intror (eq_trans P1 Hp))) as [p2 [E2 _]].
      exists p2. exact E2.
Qed.

Lemma add_unconditional_cutters_checks_witness :
  pl_paired (PairedEndPipeline "any") = true /\
  exists p', add_unconditional_cutters (PairedEndPipeline "any") [5; -3] [0; 7] = inr p'.
Proof.
  split; [reflexivity|].
  apply (proj2 (proj2 (add_unconditional_cutters_checks (PairedEndPipeline "any") [5; -3] [0; 7])
                 eq_refl)).
  reflexivity.
Defined.

(** ** C4: combinatorial demultiplexing *)

(** Claim C4, counterexample: both templates contain [{name1}] and
    [{name2}], but they also contain [{name}]: no mode is selected,
    [CommandLineError] is raised. *)
Lemma C4_name_with_name1_name2_rejected :
  let a := set_output (Some "{name}_{name1}_{name2}.1.fastq")
             (set_paired_output (Some "{name}_{name1}_{name2}.2.fastq") default_args) in
  templates_have_name1_name2 a = true /\
  determine_demultiplex_mode a =
    inl (CommandLineError "You cannot combine {name} with {name1} and {name2}").
Proof. split; reflexivity. Qed.

Lemma fbind_writes {A B} P (m : FIO A) (k : A -> FIO B) :
  writes P m -> (forall x, writes P (k x)) -> writes P (fbind m k).
Proof.
  intros Hm Hk log. unfold fbind.
  destruct (Hm log) as [l1 [E1 F1]].
  destruct (m log) as [log1 [e|x]]; simpl in E1; subst log1.
  - exists l1. split; [reflexivity | exact F1].
  - destruct (Hk x (log ++ l1)%list) as [l2 [E2 F2]].
    exists (l1 ++ l2)%list. split.
    + rewrite E2, app_assoc. reflexivity.
    + apply Forall_app. split; assumption.
Qed.

Lemma fret_writes {A} P (v : A) : writes P (fret v).
Proof. intro log. exists []. rewrite app_nil_r. split; [reflexivity | constructor]. Qed.

Lemma fraise_writes {A} P e : writes P (@fraise A e).
Proof. intro log. exists []. rewrite app_nil_r. split; [reflexivity | constructor]. Qed.

Lemma lift_writes {A} P (r : Res A) : writes P (lift r).
Proof. intro log. exists []. rewrite app_nil_r. split; [reflexivity | constructor]. Qed.

Lemma xopen_writes can_open P r path : P r = true -> writes P (xopen can_open r path).
Proof.
  intros HP log. unfold xopen. destruct (can_open path).
  - exists [(r, path)]. split; [reflexivity | constructor; [exact HP | constructor]].
  - exists []. rewrite app_nil_r. split; [reflexivity | constructor].
Qed.

Lemma xopen_or_none_writes can_open P r path :
  P r = true -> writes P (xopen_or_none can_open r path).
Proof.
  intro HP. unfold xopen_or_none. destruct path.
  - apply fbind_writes; [apply xopen_writes; exact HP | intro; apply fret_writes].
  - apply fret_writes.
Qed.

Lemma xopen_pair_writes can_open P r1 r2 p1 p2 :
  P r1 = true -> P r2 = true -> writes P (xopen_pair can_open r1 r2 p1 p2).
Proof.
  intros H1 H2.
  assert (Hboth : writes P (f1 <- xopen_or_none can_open r1 p1 ;;
                            f2 <- xopen_or_none can_open r2 p2 ;; fret (f1, f2))).
  { apply fbind_writes; [apply xopen_or_none_writes; exact H1|]. intro.
    apply fbind_writes; [apply xopen_or_none_writes; exact H2|]. intro.
    apply fret_writes. }
  unfold xopen_pair. destruct p1, p2; first [exact Hboth | apply fraise_writes].
Qed.

(** The side files are never files for trimmed reads. *)
Lemma open_side_files_writes can_open a : writes no_trimmed (open_side_files can_open a).
Proof.
  unfold open_side_files.
  repeat (apply fbind_writes; [ first [ apply xopen_or_none_writes; reflexivity
                                      | destruct (is_some _);
                                        [apply xopen_pair_writes; reflexivity | apply fret_writes] ]
                              | intro ]).
  apply fret_writes.
Qed.

(** When every file can be opened and no side pair has a lone second path,
    the side files are opened without error. *)
Lemma open_side_files_ok a log :
  side_pairs_ok a = true ->
  exists v, snd (open_side_files (fun _ => true) a log) = inr v.
Proof.
  unfold side_pairs_ok, lone_second, open_side_files, xopen_pair, xopen_or_none, xopen, fbind, fret, fraise.
  destruct (rest_file a), (info_file a), (wildcard_file a), (is_some (minimum_length a)),
    (too_short_output a), (too_short_paired_output a), (is_some (maximum_length a)),
    (too_long_output a), (too_long_paired_output a); simpl; intro H;
    try discriminate H; eexists; reflexivity.
Qed.

Lemma determine_demultiplex_mode_combinatorial a :
  determine_demultiplex_mode a = inr (Some Combinatorial) <->
  templates_have_name1_name2 a = true /\
  has_name (output a) = false /\ has_name (paired_output a) = false.
Proof.
  unfold determine_demultiplex_mode, templates_have_name1_name2, has_name.
  destruct (output a) as [o|], (paired_output a) as [po|]; cbn [bind ret raise].
  - destruct (contains "{name}" o), (contains "{name}" po),
      (contains "{name1}" o), (contains "{name2}" o),
      (contains "{name1}" po), (contains "{name2}" po); simpl;
      split; intro H; try discriminate H;
      repeat match goal with H : _ /\ _ |- _ => destruct H end;
      try discriminate; auto.
  - destruct (contains "{name}" o); simpl; split; intro H;
      repeat match goal with H : _ /\ _ |- _ => destruct H end; try discriminate; auto.
  - destruct (contains "{name}" po); simpl; split; intro H;
      repeat match goal with H : _ /\ _ |- _ => destruct H end; try discriminate; auto.
  - simpl; split; intro H;
      repeat match goal with H : _ /\ _ |- _ => destruct H end; try discriminate; auto.
Qed.

Lemma fmap_list_exact {A B} (f : A -> FIO B) (g : A -> opened) (h : A -> B) l :
  (forall x log, f x log = ((log ++ g x)%list, inr (h x))) ->
  forall log, fmap_list f l log = ((log ++ List.concat (map g l))%list, inr (map h l)).
Proof.
  intro Hf. induction l as [|x l IH]; intro log; simpl.
  - rewrite app_nil_r. reflexivity.
  - unfold fbind. rewrite Hf, IH. rewrite app_assoc. reflexivity.
Qed.

Lemma open_combinatorial_out_exact names names2 a o po log :
  output a = Some o -> paired_output a = Some po ->
  open_combinatorial_out (fun _ => true) names names2 a log =
    ((log ++ List.concat (map (comb_entries o po) (combinatorial_keys a names names2)))%list,
     if truthy (untrimmed_output a) || truthy (untrimmed_paired_output a)
     then inl (CommandLineError "Combinatorial demultiplexing (with {name1} and {name2}) cannot be combined with --untrimmed-output or --untrimmed-paired-output")
     else inr (map (fun k => (k, comb_path o k)) (combinatorial_keys a names names2),
               map (fun k => (k, comb_path po k)) (combinatorial_keys a names names2))).
Proof.
  intros Ho Hpo. unfold open_combinatorial_out. unfold fbind at 1.
  rewrite (fmap_list_exact _ (comb_entries o po)
             (fun k => ((k, comb_path o k), (k, comb_path po k)))).
  - rewrite !map_map. simpl.
    destruct (_ || _); reflexivity.
  - intros k log'. unfold fbind, lift, xopen, fret, combinatorial_path.
    rewrite Ho, Hpo. simpl. rewrite <- app_assoc. reflexivity.
Qed.

Lemma open_output_files_combinatorial_log a d names names2 o po :
  output a = Some o -> paired_output a = Some po ->
  determine_demultiplex_mode a = inr (Some Combinatorial) ->
  discard_options_count a <= 1 -> discard_trimmed a = false ->
  side_pairs_ok a = true ->
  exists l1,
    Forall (fun e => no_trimmed (fst e) = true) l1 /\
    fst (open_output_files (fun _ => true) a d names names2 []) =
      (l1 ++ List.concat (map (comb_entries o po) (combinatorial_keys a names names2)))%list /\
    (if truthy (untrimmed_output a) || truthy (untrimmed_paired_output a)
     then is_cmdline_error (snd (open_output_files (fun _ => true) a d names names2 [])) = true
     else exists v, snd (open_output_files (fun _ => true) a d names names2 []) = inr v).
Proof.
  intros Ho Hpo Hmode Hcount Hdt Hside.
  destruct (open_side_files_writes (fun _ => true) a []) as [l1 [E1 F1]].
  destruct (open_side_files_ok a [] Hside) as [v Ev].
  exists l1. split; [exact F1|].
  remember (open_output_files (fun _ => true) a d names names2 []) as R eqn:ER.
  unfold open_output_files in ER. unfold fbind at 1 in ER.
  destruct (open_side_files (fun _ => true) a []) as [log1 r1] eqn:ES.
  simpl in E1, Ev. subst log1 r1. simpl app in ER.
  destruct v as [[[[rf inf] wc] [ts ts2]] [tl tl2]].
  assert (Hc : (1 <? discard_options_count a) = false) by (apply Z.ltb_ge; lia).
  rewrite Hc in ER. unfold fbind at 1, lift in ER. rewrite Hmode, Hdt in ER.
  cbn [is_some andb] in ER. unfold fbind at 1 in ER.
  rewrite (open_combinatorial_out_exact names names2 a o po l1 Ho Hpo) in ER.
  subst R.
  destruct (_ || _); simpl; [split; reflexivity | split; [reflexivity | eexists; reflexivity]].
Qed.

Lemma determine_demultiplex_mode_name_rejected a :
  templates_have_name1_name2 a = true ->
  has_name (output a) || has_name (paired_output a) = true ->
  exists m, determine_demultiplex_mode a = inl (CommandLineError m).
Proof.
  unfold determine_demultiplex_mode, templates_have_name1_name2, has_name.
  destruct (output a) as [o|], (paired_output a) as [po|]; intro Ht; try discriminate Ht.
  intro Hn. rewrite Ht.
  destruct (contains "{name}" o), (contains "{name}" po); cbn in *;
    try discriminate Hn; eexists; reflexivity.
Qed.

Lemma open_output_files_name_rejected a d names names2 log :
  templates_have_name1_name2 a = true ->
  has_name (output a) || has_name (paired_output a) = true ->
  side_pairs_ok a = true -> discard_options_count a <= 1 ->
  is_cmdline_error (snd (open_output_files (fun _ => true) a d names names2 log)) = true.
Proof.
  intros Ht Hn Hside Hcount.
  destruct (open_side_files_ok a log Hside) as [v Ev].
  destruct (determine_demultiplex_mode_name_rejected a Ht Hn) as [m Hm].
  unfold open_output_files. unfold fbind at 1.
  destruct (open_side_files (fun _ => true) a log) as [log1 r1] eqn:ES.
  simpl in Ev. subst r1.
  destruct v as [[[[rf inf] wc] [ts ts2]] [tl tl2]].
  assert (Hc : (1 <? discard_options_count a) = false) by (apply Z.ltb_ge; lia).
  rewrite Hc. unfold fbind at 1, lift. rewrite Hm. reflexivity.
Qed.

Lemma in_comb_entries o po keys k :
  In k keys ->
  In (CombinatorialOut k, comb_path o k) (List.concat (map (comb_entries o po) keys)) /\
  In (CombinatorialOut2 k, comb_path po k) (List.concat (map (comb_entries o po) keys)).
Proof.
  intro Hk. rewrite <- flat_map_concat_map. split; apply in_flat_map; exists k;
    split; [exact Hk | simpl; auto | exact Hk | simpl; auto].
Qed.

(** Claim C4 (amended): [determine_demultiplex_mode] selects the
    combinatorial mode exactly when both the [-o] and the [-p] template
    contain [{name1}] and [{name2}] and neither contains [{name}]; templates
    that contain [{name1}] and [{name2}] and also [{name}] (in either one)
    make it raise a [CommandLineError], which [open_output_files] raises
    once the side files are open (no lone [--too-short-paired-output] or
    [--too-long-paired-output] path under [-m]/[-M]) and at most one
    discard/untrimmed option is given.  When the combinatorial mode is
    selected and [open_output_files] passes these checks and the one on
    [--discard-trimmed], it opens a file pair for every (R1 name, R2 name)
    combination and, without [--discard-untrimmed], for (unknown, unknown),
    (unknown, R2 name) and (R1 name, unknown), the missing name written
    [unknown] in the paths; with [--discard-untrimmed] no pair with an
    unknown side is opened; afterwards it raises a [CommandLineError] if
    [--untrimmed-output] or [--untrimmed-paired-output] is given and
    succeeds otherwise (every file being openable). *)
Theorem combinatorial_demultiplexing a d names names2 :
  (determine_demultiplex_mode a = inr (Some Combinatorial) <->
   templates_have_name1_name2 a = true /\
   has_name (output a) = false /\ has_name (paired_output a) = false) /\
  (templates_have_name1_name2 a = true ->
   has_name (output a) || has_name (paired_output a) = true ->
   (exists m, determine_demultiplex_mode a = inl (CommandLineError m)) /\
   (side_pairs_ok a = true -> discard_options_count a <= 1 ->
    is_cmdline_error (snd (open_output_files (fun _ => true) a d names names2 [])) = true)) /\
  (determine_demultiplex_mode a = inr (Some Combinatorial) ->
   discard_options_count a <= 1 -> discard_trimmed a = false ->
   side_pairs_ok a = true ->
   let res := open_output_files (fun _ => true) a d names names2 [] in
   (forall n1 n2, In n1 names -> In n2 names2 ->
      combinatorial_pair_opened a (fst res) (Some n1, Some n2)) /\
   (discard_untrimmed a = false ->
      combinatorial_pair_opened a (fst res) (None, None) /\
      (forall n2, In n2 names2 -> combinatorial_pair_opened a (fst res) (None, Some n2)) /\
      (forall n1, In n1 names -> combinatorial_pair_opened a (fst res) (Some n1, None))) /\
   (discard_untrimmed a = true ->
      forall k path, In (CombinatorialOut k, path) (fst res) -> fst k <> None /\ snd k <> None) /\
   (truthy (untrimmed_output a) || truthy (untrimmed_paired_output a) = true ->
      is_cmdline_error (snd res) = true) /\
   (truthy (untrimmed_output a) || truthy (untrimmed_paired_output a) = false ->
      exists v, snd res = inr v)).
Proof.
  split; [apply determine_demultiplex_mode_combinatorial|].
  split.
  { intros Ht Hn. split; [exact (determine_demultiplex_mode_name_rejected a Ht Hn)|].
    intros Hside Hcount. exact (open_output_files_name_rejected a d names names2 [] Ht Hn Hside Hcount). }
  intros Hmode Hcount Hdt Hside res.
  pose proof (proj1 (determine_demultiplex_mode_combinatorial a) Hmode) as [Ht _].
  unfold templates_have_name1_name2 in Ht.
  destruct (output a) as [o|] eqn:Ho; [|discriminate Ht].
  destruct (paired_output a) as [po|] eqn:Hpo; [|discriminate Ht].
  destruct (open_output_files_combinatorial_log a d names names2 o po Ho Hpo Hmode Hcount Hdt Hside)
    as [l1 [F1 [Elog Hres]]].
  fold res in Elog, Hres.
  assert (Hopen : forall k, In k (combinatorial_keys a names names2) ->
                  combinatorial_pair_opened a (fst res) k).
  { intros k Hk. exists o, po. split; [exact Ho|]. split; [exact Hpo|].
    rewrite Elog. destruct (in_comb_entries o po _ k Hk) as [I1 I2].
    split; apply in_or_app; right; assumption. }
  unfold combinatorial_keys in Hopen.
  split; [|split; [|split; [|split]]].
  - intros n1 n2 H1 H2. apply Hopen. apply in_or_app. left.
    apply in_prod; apply in_map; assumption.
  - intro Hdu. rewrite Hdu in Hopen.
    split; [|split].
    + apply Hopen. apply in_or_app. right. left. reflexivity.
    + intros n2 H2. apply Hopen. apply in_or_app. right. simpl. right.
      apply in_or_app. left. apply in_map_iff. exists n2. split; [reflexivity | exact H2].
    + intros n1 H1. apply Hopen. apply in_or_app. right. simpl. right.
      apply in_or_app. right. apply in_map_iff. exists n1. split; [reflexivity | exact H1].
  - intros Hdu k path Hin. rewrite Elog in Hin.
    apply in_app_or in Hin as [Hin|Hin].
    + rewrite Forall_forall in F1. specialize (F1 _ Hin). discriminate F1.
    + rewrite <- flat_map_concat_map in Hin. apply in_flat_map in Hin as [k' [Hk' Hin]].
      unfold combinatorial_keys in Hk'. rewrite Hdu, app_nil_r in Hk'.
      simpl in Hin. destruct Hin as [Hin|[Hin|[]]]; [|discriminate Hin].
      injection Hin as <- _.
      destruct k' as [x y]. apply in_prod_iff in Hk' as [Hx Hy].
      apply in_map_iff in Hx as [n1 [<- _]]. apply in_map_iff in Hy as [n2 [<- _]].
      split; discriminate.
  - intro Hu. rewrite Hu in Hres. exact Hres.
  - intro Hu. rewrite Hu in Hres. exact Hres.
Qed.

Lemma combinatorial_demultiplexing_witness :
  combinatorial_pair_opened
    (set_output (Some "out_{name1}_{name2}.fq")
       (set_paired_output (Some "p_{name1}_{name2}.fq") default_args))
    (fst (open_output_files (fun _ => true)
       (set_output (Some "out_{name1}_{name2}.fq")
          (set_paired_output (Some "p_{name1}_{name2}.fq") default_args))
       "<stdout>" ["A"; "B"] ["X"; "Y"] []))
    (None, Some "Y").
Proof.
  destruct (combinatorial_demultiplexing
    (set_output (Some "out_{name1}_{name2}.fq")
       (set_paired_output (Some "p_{name1}_{name2}.fq") default_args))
    "<stdout>" ["A"; "B"] ["X"; "Y"]) as [_ [_ H]].
  destruct (H eq_refl ltac:(vm_compute; congruence) eq_refl eq_refl) as [_ [Hu _]].
  destruct (Hu eq_refl) as [_ [H2 _]].
  apply H2. simpl. right. left. reflexivity.
Defined.

(** Claim C10: when two or more of [--discard-trimmed],
    [--discard-untrimmed] and [--untrimmed-output] are in effect,
    [open_output_files] fails, and by then it has opened no output file
    for trimmed reads (only the rest, info, wildcard, too-short and
    too-long side files); the failure is the [CommandLineError] of the
    check unless opening a side file failed first. *)
Theorem discard_options_exclusive can_open a d names names2 :
  1 < discard_options_count a ->
  exists l' e,
    open_output_files can_open a d names names2 [] = (l', inl e) /\
    Forall (fun x => no_trimmed (fst x) = true) l' /\
    ((exists v, snd (open_side_files can_open a []) = inr v) ->
     e = CommandLineError "Only one of the --discard-trimmed, --discard-untrimmed and --untrimmed-output options can be used at the same time.").
Proof.
  intro Hc. destruct (open_side_files_writes can_open a []) as [l1 [E1 F1]].
  unfold open_output_files, fbind at 1.
  destruct (open_side_files can_open a []) as [log1 r1] eqn:ES.
  simpl in E1. subst log1.
  destruct r1 as [e|v].
  - exists l1, e. split; [reflexivity|]. split; [exact F1|].
    intros [v Hv]. discriminate Hv.
  - destruct v as [[[[rf inf] wc] [ts ts2]] [tl tl2]].
    apply Z.ltb_lt in Hc. rewrite Hc.
    eexists l1, _. split; [reflexivity|]. split; [exact F1|].
    intros _. reflexivity.
Qed.

Lemma discard_options_exclusive_witness :
  1 < discard_options_count (set_discard_untrimmed true (set_discard_trimmed true default_args)) /\
  is_cmdline_error (snd (open_output_files (fun _ => true)
    (set_discard_untrimmed true (set_discard_trimmed true default_args))
    "<stdout>" [] [] [])) = true.
Proof.
  split; [vm_compute; reflexivity|].
  destruct (discard_options_exclusive (fun _ => true)
    (set_discard_untrimmed true (set_discard_trimmed true default_args))
    "<stdout>" [] [] ltac:(vm_compute; reflexivity)) as [l' [e [E [_ He]]]].
  rewrite E. simpl. rewrite He; [reflexivity|].
  apply open_side_files_ok. vm_compute. reflexivity.
Defined.

(** ** Reading decimal integers *)

Lemma digit_value_char d : 0 <= d < 10 -> digit_value (digit_char d) = d.
Proof.
  intro Hd. unfold digit_value, digit_char.
  rewrite nat_ascii_embedding by lia. rewrite Z2Nat.id by lia. lia.
Qed.

Lemma is_digit_char d : 0 <= d < 10 -> is_digit (digit_char d) = true.
Proof.
  intro Hd. unfold is_digit, digit_char.
  rewrite nat_ascii_embedding by lia.
  apply andb_true_intro; split; apply Nat.leb_le; lia.
Qed.

Lemma nat_digits_S f n acc :
  nat_digits (S f) n acc =
  if n <? 10 then digit_char (n mod 10) :: acc
  else nat_digits f (n / 10) (digit_char (n mod 10) :: acc).
Proof. reflexivity. Qed.

Lemma nat_digits_spec fuel : forall n acc,
  0 <= n < 10 ^ (Z.of_nat (S fuel)) ->
  exists ds, nat_digits (S fuel) n acc = (ds ++ acc)%list /\ ds <> [] /\
    Forall (fun c => is_digit c = true) ds /\
    forall q, fold_left digit_step ds q = q * 10 ^ Z.of_nat (List.length ds) + n.
Proof.
  induction fuel as [|f IH]; intros n acc Hn.
  - simpl in Hn. simpl. assert (E : (n <? 10) = true) by (apply Z.ltb_lt; lia).
    rewrite E. exists [digit_char (n mod 10)]. split; [reflexivity|].
    split; [discriminate|]. split.
    + constructor; [apply is_digit_char; apply Z.mod_pos_bound; lia | constructor].
    + intro q. simpl. unfold digit_step. rewrite digit_value_char by (apply Z.mod_pos_bound; lia).
      rewrite Z.mod_small by lia. lia.
  - rewrite nat_digits_S. set (d := digit_char (n mod 10)).
    destruct (n <? 10) eqn:E.
    + apply Z.ltb_lt in E. exists [d]. split; [reflexivity|].
      split; [discriminate|]. split.
      * constructor; [apply is_digit_char; apply Z.mod_pos_bound; lia | constructor].
      * intro q. simpl. unfold digit_step, d.
        rewrite digit_value_char by (apply Z.mod_pos_bound; lia).
        rewrite Z.mod_small by lia. lia.
    + apply Z.ltb_ge in E.
      assert (Hn' : 0 <= n / 10 < 10 ^ Z.of_nat (S f)).
      { split; [apply Z.div_pos; lia|]. apply Z.div_lt_upper_bound; [lia|].
        rewrite Nat2Z.inj_succ, Z.pow_succ_r in Hn by lia. lia. }
      destruct (IH (n / 10) (d :: acc) Hn') as [ds [Eds [Hne [Hdig Hval]]]].
      exists (ds ++ [d])%list. rewrite Eds, <- app_assoc. split; [reflexivity|].
      split; [destruct ds; [contradiction | discriminate]|]. split.
      * apply Forall_app. split; [exact Hdig|].
        constructor; [apply is_digit_char; apply Z.mod_pos_bound; lia | constructor].
      * intro q. rewrite fold_left_app, Hval. simpl. unfold digit_step, d.
        rewrite digit_value_char by (apply Z.mod_pos_bound; lia).
        rewrite length_app, Nat2Z.inj_add, Z.pow_add_r by lia. simpl.
        pose proof (Z.div_mod n 10 ltac:(lia)). lia.
Qed.

Lemma digits_tail_app ds : forall q rest,
  Forall (fun c => is_digit c = true) ds ->
  digits_tail q false (ds ++ rest) = digits_tail (fold_left digit_step ds q) false rest.
Proof.
  induction ds as [|c ds IH]; intros q rest H; [reflexivity|].
  inversion H as [|? ? Hc Hds]; subst. simpl. rewrite Hc. apply IH. exact Hds.
Qed.

Lemma parse_digits_ok ds :
  ds <> [] -> Forall (fun c => is_digit c = true) ds ->
  parse_digits ds = Some (fold_left digit_step ds 0).
Proof.
  intros Hne H. destruct ds as [|c ds]; [contradiction|].
  inversion H as [|? ? Hc Hds]; subst. simpl. rewrite Hc.
  rewrite <- (app_nil_r ds) at 1. rewrite digits_tail_app by exact Hds.
  simpl. unfold digit_step at 2. f_equal; f_equal; try lia.
Qed.

Lemma log2_fuel m : 0 <= m -> 0 <= m < 10 ^ Z.of_nat (S (Z.to_nat (Z.log2 m))).
Proof.
  intro Hm. split; [exact Hm|].
  rewrite Nat2Z.inj_succ, Z2Nat.id by apply Z.log2_nonneg.
  destruct (Z.eq_dec m 0) as [->|Hm0]; [simpl; lia|].
  destruct (Z.log2_spec m ltac:(lia)) as [_ Hlt].
  eapply Z.lt_le_trans; [exact Hlt|].
  apply Z.pow_le_mono_l. split; [lia | lia].
Qed.

Lemma is_space_digit c : is_digit c = true -> is_space c = false.
Proof.
  unfold is_digit, is_space. intro H. apply andb_prop in H as [H1 H2].
  apply Nat.leb_le in H1, H2.
  destruct (Nat.eqb_spec (nat_of_ascii c) 32); [lia|].
  destruct (Nat.leb 9 (nat_of_ascii c) && Nat.leb (nat_of_ascii c) 13) eqn:E1.
  { apply andb_prop in E1 as [_ E]. apply Nat.leb_le in E. lia. }
  destruct (Nat.leb 28 (nat_of_ascii c) && Nat.leb (nat_of_ascii c) 31) eqn:E2.
  { apply andb_prop in E2 as [_ E]. apply Nat.leb_le in E. lia. }
  reflexivity.
Qed.

Lemma strip_keep l :
  (forall c t, l = c :: t -> is_space c = false) ->
  (forall c t, rev l = c :: t -> is_space c = false) ->
  strip l = l.
Proof.
  intros H1 H2. unfold strip.
  assert (E1 : lstrip l = l).
  { destruct l as [|c t]; [reflexivity|]. simpl. rewrite (H1 c t eq_refl). reflexivity. }
  rewrite E1. destruct (rev l) as [|c t] eqn:E.
  - simpl. rewrite <- (rev_involutive l), E. reflexivity.
  - simpl. rewrite (H2 c t eq_refl). rewrite <- E. apply rev_involutive.
Qed.

Lemma last_digit ds :
  ds <> [] -> Forall (fun c => is_digit c = true) ds ->
  exists c t, rev ds = c :: t /\ is_digit c = true.
Proof.
  intros Hne H. destruct (rev ds) as [|c t] eqn:E.
  - apply (f_equal (@rev ascii)) in E. rewrite rev_involutive in E. contradiction.
  - exists c, t. split; [reflexivity|].
    apply Forall_rev in H. rewrite E in H. inversion H. assumption.
Qed.

Lemma z_to_string_chars n :
  exists ds, list_ascii_of_string (z_to_string n) =
      (if n <? 0 then "-"%char :: ds else ds) /\ ds <> [] /\
    Forall (fun c => is_digit c = true) ds /\ fold_left digit_step ds 0 = Z.abs n.
Proof.
  unfold z_to_string.
  destruct (n <? 0) eqn:En; [apply Z.ltb_lt in En | apply Z.ltb_ge in En];
    rewrite list_ascii_of_string_of_list_ascii.
  - destruct (nat_digits_spec (Z.to_nat (Z.log2 (- n))) (- n) [] (log2_fuel (- n) ltac:(lia)))
      as [ds [E [Hne [Hd Hv]]]].
    exists ds. rewrite E, app_nil_r. split; [reflexivity|]. split; [exact Hne|].
    split; [exact Hd|]. rewrite Hv. lia.
  - destruct (nat_digits_spec (Z.to_nat (Z.log2 n)) n [] (log2_fuel n En))
      as [ds [E [Hne [Hd Hv]]]].
    exists ds. rewrite E, app_nil_r. split; [reflexivity|]. split; [exact Hne|].
    split; [exact Hd|]. rewrite Hv. lia.
Qed.

(** [int(str(n)) == n]. *)
Lemma python_int_z_to_string n : python_int (z_to_string n) = Some n.
Proof.
  destruct (z_to_string_chars n) as [ds [E [Hne [Hd Hv]]]].
  destruct (last_digit ds Hne Hd) as [c' [t' [Er Hc']]].
  unfold python_int. rewrite E.
  destruct ds as [|c t]; [contradiction|].
  assert (Hc : is_digit c = true) by (inversion Hd; assumption).
  destruct (n <? 0) eqn:En; [apply Z.ltb_lt in En | apply Z.ltb_ge in En].
  - rewrite strip_keep.
    + cbn -[parse_digits]. rewrite parse_digits_ok by (assumption || discriminate).
      rewrite Hv. simpl. f_equal. lia.
    + intros c0 t0 Eq. injection Eq as <- _. reflexivity.
    + intros c0 t0 Eq. change (rev ("-"%char :: c :: t)) with (rev (c :: t) ++ ["-"%char])%list in Eq.
      rewrite Er in Eq. injection Eq as <- _. apply is_space_digit. exact Hc'.
  - rewrite strip_keep.
    + destruct (Ascii.eqb_spec c "-"%char) as [->|_]; [discriminate Hc|].
      destruct (Ascii.eqb_spec c "+"%char) as [->|_]; [discriminate Hc|].
      rewrite parse_digits_ok by (assumption || discriminate). rewrite Hv. f_equal. lia.
    + intros c0 t0 Eq. injection Eq as <- _. apply is_space_digit. exact Hc.
    + intros c0 t0 Eq. rewrite Er in Eq. injection Eq as <- _. apply is_space_digit. exact Hc'.
Qed.

Lemma has_char_list c s : has_char c s = existsb (fun x => Ascii.eqb x c) (list_ascii_of_string s).
Proof. induction s as [|x s IH]; simpl; [reflexivity | rewrite IH; reflexivity]. Qed.

Lemma z_to_string_no_comma n : has_char ","%char (z_to_string n) = false.
Proof.
  destruct (z_to_string_chars n) as [ds [E [_ [Hd _]]]].
  rewrite has_char_list, E.
  assert (Hds : existsb (fun x => Ascii.eqb x ","%char) ds = false).
  { destruct (existsb _ ds) eqn:Ex; [|reflexivity].
    apply existsb_exists in Ex as [x [Hx Hxe]]. apply Ascii.eqb_eq in Hxe. subst x.
    rewrite Forall_forall in Hd. specialize (Hd _ Hx). discriminate Hd. }
  destruct (n <? 0); [exact Hds | exact Hds].
Qed.

Lemma split_on_nonempty c s : exists r rs, split_on c s = r :: rs.
Proof.
  destruct s as [|x s]; simpl; [eauto|].
  destruct (Ascii.eqb x c); [eauto|]. destruct (split_on c s); eauto.
Qed.

Lemma split_on_app c s1 s2 :
  has_char c s1 = false ->
  split_on c (s1 ++ s2) =
    match split_on c s2 with r :: rs => (s1 ++ r) :: rs | [] => [s1] end.
Proof.
  induction s1 as [|x s1 IH]; intro H.
  - simpl. destruct (split_on_nonempty c s2) as [r [rs ->]]. reflexivity.
  - simpl in H |- *. apply orb_false_elim in H as [Hx H]. rewrite Hx, IH by exact H.
    destruct (split_on_nonempty c s2) as [r [rs ->]]. reflexivity.
Qed.

Lemma append_empty_r s : (s ++ "")%string = s.
Proof. induction s as [|x s IH]; simpl; [reflexivity | rewrite IH; reflexivity]. Qed.

Lemma int_all_inl l e : int_all l = inl e -> exists v, e = ValueError (int_error v).
Proof.
  induction l as [|v vs IH]; simpl; [discriminate|].
  destruct (python_int v); [|intro H; injection H as <-; eauto].
  unfold bind. destruct (int_all vs); [exact IH | discriminate].
Qed.

Lemma int_all_inr l zs : int_all l = inr zs -> Forall2 (fun t n => python_int t = Some n) l zs.
Proof.
  revert zs. induction l as [|v vs IH]; intros zs; simpl.
  - intro H. injection H as <-. constructor.
  - destruct (python_int v) eqn:Ev; [|discriminate].
    unfold bind. destruct (int_all vs) eqn:E; [discriminate|].
    intro H. injection H as <-. constructor; [exact Ev | apply IH; reflexivity].
Qed.

(** Claim C9: [parse_cutoffs s] succeeds exactly when [s] consists of one
    field without a comma that [int()] accepts, giving [(0, n)], or of
    two comma-separated fields that [int()] accepts, giving [(a, b)];
    every other input raises a [CommandLineError].  The result is always
    a pair, and in particular [parse_cutoffs (str(n)) = (0, n)] and
    [parse_cutoffs (str(a) + "," + str(b)) = (a, b)] for all integers. *)
Theorem parse_cutoffs_spec :
  (forall s t n, split_on ","%char s = [t] -> python_int t = Some n ->
     parse_cutoffs s = inr (0, n)) /\
  (forall s t1 t2 a b, split_on ","%char s = [t1; t2] ->
     python_int t1 = Some a -> python_int t2 = Some b ->
     parse_cutoffs s = inr (a, b)) /\
  (forall s r, parse_cutoffs s = inr r ->
     (exists t n, split_on ","%char s = [t] /\ python_int t = Some n /\ r = (0, n)) \/
     (exists t1 t2 a b, split_on ","%char s = [t1; t2] /\
        python_int t1 = Some a /\ python_int t2 = Some b /\ r = (a, b))) /\
  (forall s e, parse_cutoffs s = inl e -> exists m, e = CommandLineError m) /\
  (forall n, parse_cutoffs (z_to_string n) = inr (0, n)) /\
  (forall a b, parse_cutoffs (z_to_string a ++ "," ++ z_to_string b) = inr (a, b)).
Proof.
  split; [|split; [|split; [|split; [|split]]]].
  - intros s t n Hs Hn. unfold parse_cutoffs. rewrite Hs. simpl. rewrite Hn. reflexivity.
  - intros s t1 t2 a b Hs Ha Hb. unfold parse_cutoffs. rewrite Hs. simpl.
    rewrite Ha, Hb. reflexivity.
  - intros s r. unfold parse_cutoffs.
    destruct (int_all (split_on ","%char s)) as [e|zs] eqn:E.
    + destruct e; discriminate.
    + apply int_all_inr in E.
      destruct zs as [|c [|c' [|c'' zs]]]; simpl; try discriminate; intro H; injection H as <-.
      * inversion E as [|t ? ts ? Ht Hts]; subst. inversion Hts; subst.
        left. exists t, c. auto.
      * inversion E as [|t1 ? ts ? Ht1 Hts]; subst.
        inversion Hts as [|t2 ? ts' ? Ht2 Hts']; subst. inversion Hts'; subst.
        right. exists t1, t2, c, c'. auto.
  - intros s e. unfold parse_cutoffs.
    destruct (int_all (split_on ","%char s)) as [e'|zs] eqn:E.
    + destruct (int_all_inl _ _ E) as [v ->]. simpl. intro H. injection H as <-. eauto.
    + destruct zs as [|c [|c' [|c'' zs]]]; simpl; try discriminate;
        intro H; injection H as <-; eauto.
  - intro n. unfold parse_cutoffs.
    rewrite <- (append_empty_r (z_to_string n)) at 1.
    rewrite split_on_app by apply z_to_string_no_comma. simpl.
    rewrite append_empty_r, python_int_z_to_string. reflexivity.
  - intros a b. unfold parse_cutoffs.
    rewrite split_on_app by apply z_to_string_no_comma.
    change ("," ++ z_to_string b)%string with (String ","%char (z_to_string b)).
    cbn [split_on]. rewrite Ascii.eqb_refl.
    rewrite <- (append_empty_r (z_to_string b)) at 1.
    rewrite split_on_app by apply z_to_string_no_comma. simpl.
    rewrite !append_empty_r, !python_int_z_to_string. reflexivity.
Qed.

Lemma parse_cutoffs_spec_witness :
  parse_cutoffs " 20" = inr (0, 20) /\ parse_cutoffs "6,-7" = inr (6, -7).
Proof.
  destruct parse_cutoffs_spec as [H1 [H2 _]]. split.
  - apply (H1 " 20" " 20" 20); reflexivity.
  - apply (H2 "6,-7" "6" "-7" 6 (-7)); reflexivity.
Defined.

(** ** Pipeline construction only raises [CommandLineError] *)

Lemma cmdline_only_inr {A} (x : A) : cmdline_only (inr x).
Proof. intros e H. discriminate H. Qed.

Lemma cmdline_only_cle {A} m : cmdline_only (@inl exn A (CommandLineError m)).
Proof. intros e H. injection H as <-. eauto. Qed.

Lemma cmdline_only_bind {A B} (m : Res A) (k : A -> Res B) :
  cmdline_only m -> (forall x, m = inr x -> cmdline_only (k x)) -> cmdline_only (bind m k).
Proof.
  intros Hm Hk. destruct m as [e'|x]; cbn [bind].
  - intros e H. injection H as <-. apply Hm. reflexivity.
  - apply Hk. reflexivity.
Qed.

Lemma cmdline_only_is_cmdline_error {A} (r : Res A) : is_cmdline_error r = true -> cmdline_only r.
Proof.
  destruct r as [[]|]; intro H; try discriminate H. apply cmdline_only_cle.
Qed.

Lemma cmdline_only_inl {A} e : cmdline_only (@inl exn A e) -> exists m, e = CommandLineError m.
Proof. intro H. apply H. reflexivity. Qed.

Lemma parse_cutoffs_cmdline_only s : cmdline_only (parse_cutoffs s).
Proof.
  unfold parse_cutoffs. destruct (int_all (split_on ","%char s)) as [e'|zs] eqn:E.
  - destruct (int_all_inl _ _ E) as [v ->]. apply cmdline_only_cle.
  - destruct zs as [|c [|c' [|c'' zs]]]; first [apply cmdline_only_cle | apply cmdline_only_inr].
Qed.

Lemma qtrimmer_cmdline_only c b : cmdline_only (qtrimmer c b).
Proof.
  unfold qtrimmer. destruct c as [c|]; [|apply cmdline_only_inr].
  destruct (String.eqb c "0"); [apply cmdline_only_inr|].
  apply cmdline_only_bind; [apply parse_cutoffs_cmdline_only | intros; apply cmdline_only_inr].
Qed.

Lemma add_quality_trimmers_cmdline_only p c1 c2 b : cmdline_only (add_quality_trimmers p c1 c2 b).
Proof.
  unfold add_quality_trimmers.
  apply cmdline_only_bind; [apply qtrimmer_cmdline_only|intros q0 _].
  apply cmdline_only_bind; [apply qtrimmer_cmdline_only|intros q1 _].
  destruct (pl_paired p) eqn:Ep.
  - destruct (is_some _ || is_some _); [|apply cmdline_only_inr].
    unfold add2. rewrite Ep. apply cmdline_only_inr.
  - destruct q0 as [m|]; [|apply cmdline_only_inr]. unfold add1. rewrite Ep. apply cmdline_only_inr.
Qed.

Lemma add_cut_arg_cmdline_only i p l :
  (i = O \/ pl_paired p = true \/ l = []) ->
  cmdline_only (add_cut_arg i p l) /\
  (forall p', add_cut_arg i p l = inr p' -> pl_paired p' = pl_paired p).
Proof.
  intro Hi. split.
  - destruct (cut_list_ok l) eqn:Ok.
    + destruct Hi as [Hi|[Hi| ->]].
      * destruct (add_cut_arg_succeeds i p l Ok (or_introl Hi)) as [p' [-> _]]. apply cmdline_only_inr.
      * destruct (add_cut_arg_succeeds i p l Ok (or_intror Hi)) as [p' [-> _]]. apply cmdline_only_inr.
      * apply cmdline_only_inr.
    + apply cmdline_only_is_cmdline_error. rewrite add_cut_arg_cmdline_error, Ok. reflexivity.
  - intros p' H. apply add_cut_arg_flags in H. unfold flags in H. congruence.
Qed.

Lemma add_unconditional_cutters_cmdline_only p cut1 cut2 :
  (pl_paired p = true \/ cut2 = []) -> cmdline_only (add_unconditional_cutters p cut1 cut2).
Proof.
  intro H. unfold add_unconditional_cutters.
  destruct (add_cut_arg_cmdline_only 0 p cut1 (or_introl eq_refl)) as [H1 H1'].
  apply cmdline_only_bind; [exact H1|]. intros p' Ep'.
  apply (add_cut_arg_cmdline_only 1 p' cut2). right.
  rewrite (H1' p' Ep'). exact H.
Qed.

Lemma pipeline_add_ok (paired : bool) p m :
  pl_paired p = paired ->
  exists p', (if paired then add_both else add1) p m = inr p' /\ pl_paired p' = paired.
Proof.
  intro Hp. destruct paired; unfold add_both, add2, add1; rewrite Hp; eexists; split;
    try reflexivity; simpl; exact Hp.
Qed.

Lemma fold_pipeline_add_ok (paired : bool) ms : forall p,
  pl_paired p = paired ->
  exists p', fold_left (fun acc m => let* p := acc in (if paired then add_both else add1) p m)
               ms (inr p) = inr p' /\ pl_paired p' = paired.
Proof.
  induction ms as [|m ms IH]; intros p Hp; simpl; [eauto|].
  destruct (pipeline_add_ok paired p m Hp) as [p1 [-> Hp1]]. exact (IH p1 Hp1).
Qed.

Lemma add_adapter_cutter_cmdline_only ace p ads ads2 paired pa act times rc suf idx :
  pl_paired p = paired -> (pa = true -> paired = true) ->
  cmdline_only (add_adapter_cutter ace p ads ads2 paired pa act times rc suf idx).
Proof.
  intros Hp Hpa. unfold add_adapter_cutter.
  destruct pa.
  - rewrite (Hpa eq_refl) in Hp. destruct rc; [apply cmdline_only_cle|].
    unfold mk_PairedAdapterCutter.
    destruct (negb (Nat.eqb _ _)); [apply cmdline_only_cle|].
    destruct (negb (nonempty ads)); [apply cmdline_only_cle|].
    cbn. unfold add_paired_modifier. rewrite Hp. apply cmdline_only_inr.
  - unfold mk_AdapterCutter.
    destruct (nonempty ads), (nonempty ads2), (ace ads times act idx), (ace ads2 times act idx);
      cbn; try apply cmdline_only_cle;
      destruct paired; unfold add1, add2; rewrite ?Hp;
      repeat match goal with |- context [if ?b then _ else _] => destruct b end;
      cbn; try apply cmdline_only_cle; try apply cmdline_only_inr;
      unfold add1; rewrite Hp; apply cmdline_only_inr.
Qed.

Lemma add_renamer_cmdline_only p paired t :
  pl_paired p = paired -> cmdline_only (add_renamer p paired t).
Proof.
  intro Hp. unfold add_renamer. destruct paired; cbn zeta.
  - unfold mk_PairedEndRenamer, check_template.
    destruct (filter _ _); cbn; [unfold add_paired_modifier; rewrite Hp; apply cmdline_only_inr|].
    apply cmdline_only_cle.
  - unfold mk_Renamer, check_template.
    destruct (filter _ _); cbn; [unfold add1; rewrite Hp; apply cmdline_only_inr|].
    apply cmdline_only_cle.
Qed.

Lemma parse_length_fields_inl fs e :
  parse_length_fields fs = inl e -> exists v, e = ValueError v.
Proof.
  induction fs as [|f fs IH]; simpl; [discriminate|].
  unfold parse_length_field.
  destruct (String.eqb f ""); [|destruct (python_int f)]; cbn [bind ret raise].
  - destruct (parse_length_fields fs); cbn [bind]; [exact IH | discriminate].
  - destruct (parse_length_fields fs); cbn [bind]; [exact IH | discriminate].
  - intro H. injection H as <-. eauto.
Qed.

Lemma parse_lengths_cmdline_only s : cmdline_only (parse_lengths s).
Proof.
  unfold parse_lengths. destruct (negb _); [apply cmdline_only_cle|].
  destruct (parse_length_fields _) as [e|vs] eqn:E.
  - destruct (parse_length_fields_inl _ _ E) as [v ->]. apply cmdline_only_cle.
  - destruct vs as [|[]  [|[] [|]]]; first [apply cmdline_only_cle | apply cmdline_only_inr].
Qed.

Lemma parse_length_param_cmdline_only paired param :
  cmdline_only (parse_length_param paired param).
Proof.
  unfold parse_length_param. destruct param as [s|]; [|apply cmdline_only_inr].
  apply cmdline_only_bind; [apply parse_lengths_cmdline_only|intros l _].
  destruct (_ && _); [apply cmdline_only_cle|].
  destruct (_ && _); apply cmdline_only_inr.
Qed.

Lemma pipeline_init_paired a paired ads ads2 : pl_paired (pipeline_init a paired ads ads2) = paired.
Proof.
  unfold pipeline_init, initial_pipeline.
  destruct paired; destruct (overrides_untrimmed_pair_filter _ _ _ _); reflexivity.
Qed.

Lemma flags_paired p q : flags p = flags q -> pl_paired p = pl_paired q.
Proof. unfold flags. congruence. Qed.

(** When the mode is consistent with the options ([-U] and
    [--pair-adapters] only in paired-end mode), every exception
    [pipeline_from_parsed_args] raises is a [CommandLineError]. *)
Lemma pipeline_from_parsed_args_cmdline_only ace a paired ads ads2 :
  (paired = false -> cut2 a = []) -> (pair_adapters a = true -> paired = true) ->
  cmdline_only (pipeline_from_parsed_args ace a paired ads ads2).
Proof.
  intros Hcut Hpa. unfold pipeline_from_parsed_args. cbv zeta.
  pose proof (pipeline_init_paired a paired ads ads2) as H0.
  apply cmdline_only_bind.
  { apply add_unconditional_cutters_cmdline_only. rewrite H0.
    destruct paired; [left; reflexivity | right; apply Hcut; reflexivity]. }
  intros x Ex.
  pose proof (flags_paired _ _ (add_unconditional_cutters_flags _ _ _ _ Ex)) as Hx.
  rewrite H0 in Hx.
  apply cmdline_only_bind.
  { destruct (nextseq_trim a); [|apply cmdline_only_inr].
    destruct (pipeline_add_ok paired x (NextseqQualityTrimmer z (quality_base a)) Hx) as [q [Eq _]].
    rewrite Eq. apply cmdline_only_inr. }
  intros x0 Ex0.
  assert (Hx0 : pl_paired x0 = paired).
  { destruct (nextseq_trim a).
    - destruct (pipeline_add_ok paired x (NextseqQualityTrimmer z (quality_base a)) Hx) as [q [Eq Hq]].
      rewrite Eq in Ex0. injection Ex0 as <-. exact Hq.
    - injection Ex0 as <-. exact Hx. }
  apply cmdline_only_bind; [apply add_quality_trimmers_cmdline_only|]. intros x1 Ex1.
  pose proof (flags_paired _ _ (add_quality_trimmers_flags _ _ _ _ _ Ex1)) as Hx1.
  rewrite Hx0 in Hx1.
  apply cmdline_only_bind; [apply add_adapter_cutter_cmdline_only; assumption|]. intros x2 Ex2.
  pose proof (flags_paired _ _ (add_adapter_cutter_flags _ _ _ _ _ _ _ _ _ _ _ _ Ex2)) as Hx2.
  rewrite Hx1 in Hx2.
  destruct (fold_pipeline_add_ok paired (modifiers_applying_to_both_ends_if_paired a) x2 Hx2)
    as [x3 [Eq3 Hx3]].
  change (ret x2) with (@inr exn pipeline x2). rewrite Eq3. cbn [bind].
  apply cmdline_only_bind; [destruct (_ && _); [apply cmdline_only_cle | apply cmdline_only_inr]|].
  intros [] _.
  apply cmdline_only_bind.
  { destruct (rename a) as [r|]; [|apply cmdline_only_inr].
    destruct (_ && _); [apply add_renamer_cmdline_only; exact Hx3 | apply cmdline_only_inr]. }
  intros x5 _.
  apply cmdline_only_bind; [apply parse_length_param_cmdline_only|intros minl _].
  apply cmdline_only_bind; [apply parse_length_param_cmdline_only|intros maxl _].
  apply cmdline_only_inr.
Qed.

Lemma pipeline_reaches_adapter_cutter ace a paired ads ads2 p' :
  pipeline_from_parsed_args ace a paired ads ads2 = inr p' ->
  exists x1 act suf x2, pl_paired x1 = paired /\
    add_adapter_cutter ace x1 ads ads2 paired (pair_adapters a) act (times a)
      (reverse_complement a) suf (index a) = inr x2.
Proof.
  unfold pipeline_from_parsed_args. cbv zeta. intro H.
  res_destruct H. res_destruct H. res_destruct H. res_destruct H.
  do 4 eexists. split; [|exact E2].
  apply add_unconditional_cutters_flags, flags_paired in E.
  apply add_quality_trimmers_flags, flags_paired in E1.
  rewrite pipeline_init_paired in E.
  assert (E0' : pl_paired x0 = pl_paired x).
  { destruct (nextseq_trim a).
    - apply flags_paired. destruct paired; [apply add_both_flags in E0 | apply add1_flags in E0]; exact E0.
    - inversion E0; reflexivity. }
  congruence.
Qed.

Lemma pipeline_reaches_renamer ace a paired ads ads2 r p' :
  rename a = Some r -> str_truthy r && negb (String.eqb r "{header}") = true ->
  pipeline_from_parsed_args ace a paired ads ads2 = inr p' ->
  exists x y, pl_paired x = paired /\ add_renamer x paired r = inr y.
Proof.
  intros Hr Hc. unfold pipeline_from_parsed_args. cbv zeta. intro H.
  res_destruct H. res_destruct H. res_destruct H. res_destruct H. res_destruct H.
  res_destruct H. res_destruct H.
  rewrite Hr, Hc in E5. exists x3, x5. split; [|exact E5].
  apply add_unconditional_cutters_flags, flags_paired in E.
  apply add_quality_trimmers_flags, flags_paired in E1.
  apply add_adapter_cutter_flags, flags_paired in E2.
  rewrite pipeline_init_paired in E.
  assert (E0' : pl_paired x0 = pl_paired x).
  { destruct (nextseq_trim a).
    - apply flags_paired. destruct paired; [apply add_both_flags in E0 | apply add1_flags in E0]; exact E0.
    - inversion E0; reflexivity. }
  assert (E3' : pl_paired x3 = pl_paired x2).
  { apply flags_paired. eapply fold_pipeline_add_flags; [| | exact E3].
    - destruct paired; [exact add_both_flags | exact add1_flags].
    - intros q Hq; inversion Hq; reflexivity. }
  congruence.
Qed.

(** ** The checks before the pipeline is built *)

Lemma check_pair_outputs_cmdline_only a : cmdline_only (check_pair_outputs a).
Proof.
  unfold check_pair_outputs. cbn [fold_left].
  repeat (apply cmdline_only_bind; [|intros [] _]);
    repeat match goal with |- context [if ?b then _ else _] => destruct b end;
    first [apply cmdline_only_inr | apply cmdline_only_cle].
Qed.

Lemma check_arguments_cmdline_only a paired : cmdline_only (check_arguments a paired).
Proof.
  unfold check_arguments.
  apply cmdline_only_bind.
  { destruct (negb paired); [|apply cmdline_only_inr].
    destruct (truthy _); [apply cmdline_only_cle|].
    destruct (pair_adapters a); [apply cmdline_only_cle | apply cmdline_only_inr]. }
  intros [] _. apply cmdline_only_bind.
  { destruct (paired && _); [|apply cmdline_only_inr].
    destruct (negb (truthy (paired_output a))); [apply cmdline_only_cle|].
    destruct (negb (truthy (output a))); [apply cmdline_only_cle|].
    apply check_pair_outputs_cmdline_only. }
  intros [] _.
  repeat match goal with |- context [if ?b then _ else _] => destruct b end;
    first [apply cmdline_only_inr | apply cmdline_only_cle].
Qed.

Lemma check_arguments_pair_adapters a paired :
  check_arguments a paired = inr tt -> pair_adapters a = true -> paired = true.
Proof.
  intros H Hpa. destruct paired; [reflexivity|].
  unfold check_arguments in H. cbn [negb] in H.
  destruct (truthy (untrimmed_paired_output a)); [discriminate H|].
  rewrite Hpa in H. discriminate H.
Qed.

Lemma determine_paired_cut2 a : determine_paired a = false -> cut2 a = [].
Proof.
  unfold determine_paired. intro H.
  repeat (apply orb_false_elim in H as [H ?]).
  destruct (cut2 a); [reflexivity | discriminate].
Qed.

Lemma setup_input_files_cmdline_only ins paired il :
  cmdline_only (setup_input_files ins paired il).
Proof.
  unfold setup_input_files. destruct ins as [|i rest]; [apply cmdline_only_cle|].
  destruct (Nat.ltb _ _); [apply cmdline_only_cle|].
  destruct (paired && _); destruct rest; first [apply cmdline_only_cle | apply cmdline_only_inr].
Qed.

(** When every exception before the pipeline is built is a
    [CommandLineError] and building the pipeline raises one,
    [main_setup] raises one. *)
Lemma main_setup_pipeline_error ace can_open afa setup a paired d :
  cmdline_only (afa a) ->
  (check_arguments a paired = inr tt -> forall ads, afa a = inr ads ->
     exists m, pipeline_from_parsed_args ace a paired (fst ads) (snd ads)
               = inl (CommandLineError m)) ->
  exists m, main_setup ace can_open afa setup a paired d = inl (CommandLineError m).
Proof.
  intros Hafa Hpl. unfold main_setup. cbv zeta.
  destruct (setup_input_files _ _ _) as [e|x] eqn:E1; cbn [bind].
  { apply setup_input_files_cmdline_only in E1 as [m ->]. eauto. }
  destruct (check_arguments a paired) as [e|[]] eqn:E2; cbn [bind].
  { apply check_arguments_cmdline_only in E2 as [m ->]. eauto. }
  destruct (afa a) as [e|ads] eqn:E3; cbn [bind].
  { destruct (Hafa e eq_refl) as [m ->]. eauto. }
  destruct (Hpl eq_refl ads eq_refl) as [m ->]. cbn [bind]. eauto.
Qed.

(** A [CommandLineError] from [main_setup] ends [main] through
    [parser.error], whatever the earlier checks of [main] do. *)
Lemma main_setup_error_exit ace can_open afa setup prog a leftover d run :
  (exists m, main_setup ace can_open afa setup a (determine_paired a) d
             = inl (CommandLineError m)) ->
  exists m, main ace can_open afa setup prog (Parsed a leftover) d run = parser_error prog m.
Proof.
  intros [m Hm]. unfold main.
  destruct (quiet a && truthy (report a)); [eauto|].
  destruct (nonempty leftover); [eauto|].
  destruct (cores a <? 0); [eauto|].
  rewrite Hm. eauto.
Qed.

(** ** C7: [--pair-adapters] with adapter lists that cannot be paired *)

Lemma add_adapter_cutter_pair_adapters_error ace p ads ads2 paired act times rc suf idx :
  (rc = true \/ List.length ads <> List.length ads2 \/ ads = [] \/ ads2 = []) ->
  exists m, add_adapter_cutter ace p ads ads2 paired true act times rc suf idx
            = inl (CommandLineError m).
Proof.
  intro H. unfold add_adapter_cutter. destruct rc; [eauto|].
  unfold mk_PairedAdapterCutter.
  destruct (Nat.eqb_spec (List.length ads) (List.length ads2)) as [Hl|Hl]; cbn [negb]; [|eexists; reflexivity].
  destruct ads as [|ad ads]; cbn [nonempty negb]; [eexists; reflexivity|].
  destruct ads2 as [|ad2 ads2]; [simpl in Hl; discriminate Hl|].
  destruct H as [H|[H|[H|H]]]; try discriminate H; contradiction.
Qed.

(** Claim C7: with [--pair-adapters], [add_adapter_cutter] rejects
    [--revcomp] with a [CommandLineError] and turns the failure of
    [PairedAdapterCutter] on R1 and R2 adapter lists of different lengths
    or with an empty side into a [CommandLineError] prefixed with
    [--pair-adapters: ]; [pipeline_from_parsed_args] then fails with a
    [CommandLineError] (the mode being paired-end, as [check_arguments]
    requires for [--pair-adapters]), and [main] stops at startup through
    [parser.error] (exit status 2, nothing run) for every adapter lists
    [adapters_from_args] may return, provided it raises no other
    exception than [CommandLineError].  The adapter-pairing behaviour of
    [PairedAdapterCutter] is modelled from the spec. *)
Theorem pair_adapters_rejected :
  (forall ace p ads ads2 paired act times suf idx,
     add_adapter_cutter ace p ads ads2 paired true act times true suf idx
     = inl (CommandLineError "Cannot use --revcomp with --pair-adapters")) /\
  (forall ace p ads ads2 paired act times suf idx,
     (List.length ads <> List.length ads2 \/ ads = [] \/ ads2 = []) ->
     exists m, add_adapter_cutter ace p ads ads2 paired true act times false suf idx
               = inl (CommandLineError ("--pair-adapters: " ++ m))) /\
  (forall ace a ads ads2,
     pair_adapters a = true ->
     (reverse_complement a = true \/ List.length ads <> List.length ads2 \/
      ads = [] \/ ads2 = []) ->
     check_arguments a (determine_paired a) = inr tt ->
     exists m, pipeline_from_parsed_args ace a (determine_paired a) ads ads2
               = inl (CommandLineError m)) /\
  (forall ace can_open afa setup prog a leftover d run,
     pair_adapters a = true -> cmdline_only (afa a) ->
     (reverse_complement a = true \/
      forall ads, afa a = inr ads ->
        List.length (fst ads) <> List.length (snd ads) \/ fst ads = [] \/ snd ads = []) ->
     exists m, main ace can_open afa setup prog (Parsed a leftover) d run = parser_error prog m).
Proof.
  assert (Hpl : forall ace a ads ads2,
     pair_adapters a = true ->
     (reverse_complement a = true \/ List.length ads <> List.length ads2 \/
      ads = [] \/ ads2 = []) ->
     check_arguments a (determine_paired a) = inr tt ->
     exists m, pipeline_from_parsed_args ace a (determine_paired a) ads ads2
               = inl (CommandLineError m)).
  { intros ace a ads ads2 Hpa Hbad Hck.
    pose proof (check_arguments_pair_adapters a _ Hck Hpa) as Hpd.
    destruct (pipeline_from_parsed_args ace a (determine_paired a) ads ads2) as [e|p'] eqn:E.
    - assert (Hco : cmdline_only (pipeline_from_parsed_args ace a (determine_paired a) ads ads2)).
      { apply pipeline_from_parsed_args_cmdline_only.
        - rewrite Hpd. discriminate.
        - intros _. exact Hpd. }
      rewrite E in Hco. apply cmdline_only_inl in Hco as [m ->]. eauto.
    - destruct (pipeline_reaches_adapter_cutter _ _ _ _ _ _ E) as [x1 [act [suf [x2 [_ Ex]]]]].
      rewrite Hpa in Ex.
      destruct (add_adapter_cutter_pair_adapters_error ace x1 ads ads2 (determine_paired a)
                  act (times a) (reverse_complement a) suf (index a)) as [m Em].
      + destruct Hbad as [H|H]; [left; exact H | right; exact H].
      + rewrite Em in Ex. discriminate Ex. }
  split; [|split; [|split]].
  - intros. reflexivity.
  - intros ace p ads ads2 paired act times suf idx H. unfold add_adapter_cutter, mk_PairedAdapterCutter.
    destruct (Nat.eqb_spec (List.length ads) (List.length ads2)) as [Hl|Hl]; cbn [negb]; [|eexists; reflexivity].
    destruct ads as [|ad ads]; cbn [nonempty negb]; [eexists; reflexivity|].
    destruct ads2 as [|ad2 ads2]; [simpl in Hl; discriminate Hl|].
    destruct H as [H|[H|H]]; try discriminate H; contradiction.
  - exact Hpl.
  - intros ace can_open afa setup prog a leftover d run Hpa Hafa Hbad.
    apply main_setup_error_exit. apply main_setup_pipeline_error; [exact Hafa|].
    intros Hck ads Eads. apply Hpl; [exact Hpa| |exact Hck].
    destruct Hbad as [H|H]; [left; exact H | right; exact (H ads Eads)].
Qed.

Lemma pair_adapters_rejected_witness :
  exists m, pipeline_from_parsed_args (fun _ _ _ _ => None)
    (set_pair_adapters true (set_output (Some "out.1.fastq")
       (set_paired_output (Some "out.2.fastq") default_args)))
    (determine_paired (set_pair_adapters true (set_output (Some "out.1.fastq")
       (set_paired_output (Some "out.2.fastq") default_args))))
    [mkAdapter "A" "back" "ACGT"] [] = inl (CommandLineError m).
Proof.
  destruct pair_adapters_rejected as [_ [_ [H _]]].
  apply H; [reflexivity | right; right; right; reflexivity | vm_compute; reflexivity].
Defined.

(** ** C6: unknown variables in a [--rename] template *)

Lemma check_template_error t vars v :
  In v (template_vars t) -> mem v vars = false ->
  exists m, check_template t vars = inl (InvalidTemplate m).
Proof.
  intros Hin Hm. unfold check_template.
  destruct (filter (fun v => negb (mem v vars)) (template_vars t)) as [|w ws] eqn:E.
  - exfalso.
    assert (Hf : In v (filter (fun v => negb (mem v vars)) (template_vars t))).
    { apply filter_In. split; [exact Hin | rewrite Hm; reflexivity]. }
    rewrite E in Hf. exact Hf.
  - eexists; reflexivity.
Qed.

Lemma add_renamer_error p paired t v :
  In v (template_vars t) -> mem v (supported_variables paired) = false ->
  exists m, add_renamer p paired t = inl (CommandLineError m).
Proof.
  intros Hin Hm. unfold add_renamer, supported_variables in *.
  destruct paired; cbn zeta.
  - unfold mk_PairedEndRenamer.
    destruct (check_template_error t _ v Hin Hm) as [m ->]. eexists; reflexivity.
  - unfold mk_Renamer.
    destruct (check_template_error t _ v Hin Hm) as [m ->]. eexists; reflexivity.
Qed.

Lemma unknown_variable_renames t v paired :
  In v (template_vars t) -> mem v (supported_variables paired) = false ->
  str_truthy t && negb (String.eqb t "{header}") = true.
Proof.
  intros Hin Hm. destruct t as [|c t']; [contradiction Hin|].
  destruct (String.eqb_spec (String c t') "{header}") as [E|E].
  - rewrite E in Hin. simpl in Hin. destruct Hin as [<-|[]].
    destruct paired; discriminate Hm.
  - reflexivity.
Qed.

(** Claim C6: a [--rename] template with a variable outside the set the
    renamer of the mode supports makes [pipeline_from_parsed_args] fail
    with a [CommandLineError] (converted from [InvalidTemplate]), and
    makes [main] stop at startup through [parser.error] (exit status 2,
    no read processed), provided [adapters_from_args] raises no other
    exception than [CommandLineError].  The variables the renamers
    support and their [InvalidTemplate] are modelled from the spec. *)
Theorem rename_unknown_variable_rejected :
  (forall p paired t v,
     In v (template_vars t) -> mem v (supported_variables paired) = false ->
     exists m, add_renamer p paired t = inl (CommandLineError m)) /\
  (forall ace a ads ads2 t v,
     rename a = Some t -> In v (template_vars t) ->
     mem v (supported_variables (determine_paired a)) = false ->
     check_arguments a (determine_paired a) = inr tt ->
     exists m, pipeline_from_parsed_args ace a (determine_paired a) ads ads2
               = inl (CommandLineError m)) /\
  (forall ace can_open afa setup prog a leftover d run t v,
     rename a = Some t -> In v (template_vars t) ->
     mem v (supported_variables (determine_paired a)) = false ->
     cmdline_only (afa a) ->
     exists m, main ace can_open afa setup prog (Parsed a leftover) d run = parser_error prog m).
Proof.
  assert (Hpl : forall ace a ads ads2 t v,
     rename a = Some t -> In v (template_vars t) ->
     mem v (supported_variables (determine_paired a)) = false ->
     check_arguments a (determine_paired a) = inr tt ->
     exists m, pipeline_from_parsed_args ace a (determine_paired a) ads ads2
               = inl (CommandLineError m)).
  { intros ace a ads ads2 t v Hr Hin Hm Hck.
    destruct (pipeline_from_parsed_args ace a (determine_paired a) ads ads2) as [e|p'] eqn:E.
    - assert (Hco : cmdline_only (pipeline_from_parsed_args ace a (determine_paired a) ads ads2)).
      { apply pipeline_from_parsed_args_cmdline_only.
        - apply determine_paired_cut2.
        - apply check_arguments_pair_adapters. exact Hck. }
      rewrite E in Hco. apply cmdline_only_inl in Hco as [m ->]. eauto.
    - destruct (pipeline_reaches_renamer ace a _ ads ads2 t p' Hr
                  (unknown_variable_renames t v _ Hin Hm) E) as [x [y [_ Ey]]].
      destruct (add_renamer_error x _ t v Hin Hm) as [m Em].
      rewrite Em in Ey. discriminate Ey. }
  split; [|split].
  - intros p paired t v. apply add_renamer_error.
  - exact Hpl.
  - intros ace can_open afa setup prog a leftover d run t v Hr Hin Hm Hafa.
    apply main_setup_error_exit. apply main_setup_pipeline_error; [exact Hafa|].
    intros Hck ads _. exact (Hpl ace a (fst ads) (snd ads) t v Hr Hin Hm Hck).
Qed.

Lemma rename_unknown_variable_rejected_witness :
  exists m, main (fun _ _ _ _ => None) (fun _ => true) (fun _ => inr ([], [])) (inr tt)
    "cutadapt" (Parsed (set_rename (Some "{id} {bogus}") (set_inputs ["in.fastq"] default_args)) [])
    "<stdout>" (inr tt) = parser_error "cutadapt" m.
Proof.
  destruct rename_unknown_variable_rejected as [_ [_ H]].
  apply (H _ _ _ _ _ _ _ _ _ "{id} {bogus}" "bogus");
    [reflexivity | simpl; auto | reflexivity | apply cmdline_only_inr].
Defined.

(** ** C2: how [main] ends *)

(** Claim C2, counterexample: without input files, [main] stops with
    exit status 2, but what it writes to standard error is five lines
    (four newline characters), not a single-line message. *)
Lemma C2_usage_error_not_single_line :
  let r := main (fun _ _ _ _ => None) (fun _ => true) (fun _ => inr ([], [])) (inr tt)
             "cutadapt" (Parsed default_args []) "<stdout>" (inr tt) in
  mr_termination r = Exit 2 /\ count_newlines (mr_stderr r) = 4%nat.
Proof. vm_compute. split; reflexivity. Qed.

(** Claim C2 (amended): [parser.error] ends the process with exit status
    2 before anything is run, writing two hint lines, a blank line and
    the line [<prog>: error: <message>] to standard error; [main] ends
    this way for an argument the parser rejects, for [--quiet] with
    [--report], for unrecognized arguments, for a negative [--cores] and
    for every [CommandLineError] raised while it sets up the run; once
    the run has started, a [KeyboardInterrupt] ends it with exit status
    130 after writing [Interrupted], and a [BrokenPipeError] with exit
    status 1. *)
Theorem main_exit_statuses :
  (forall prog m,
     mr_termination (parser_error prog m) = Exit 2 /\ mr_ran (parser_error prog m) = false /\
     mr_stderr (parser_error prog m) = (usage_hint ++ nl ++ prog ++ ": error: " ++ m ++ nl)%string /\
     count_newlines usage_hint = 2%nat) /\
  (forall ace can_open afa setup prog d run m,
     main ace can_open afa setup prog (ParseError m) d run = parser_error prog m) /\
  (forall ace can_open afa setup prog d run a leftover,
     quiet a && truthy (report a) = true ->
     main ace can_open afa setup prog (Parsed a leftover) d run =
       parser_error prog "Options --quiet and --report cannot be used at the same time") /\
  (forall ace can_open afa setup prog d run a leftover,
     quiet a && truthy (report a) = false -> nonempty leftover = true ->
     main ace can_open afa setup prog (Parsed a leftover) d run =
       parser_error prog ("unrecognized arguments: " ++ join " " leftover)) /\
  (forall ace can_open afa setup prog d run a leftover,
     quiet a && truthy (report a) = false -> nonempty leftover = false -> cores a < 0 ->
     main ace can_open afa setup prog (Parsed a leftover) d run =
       parser_error prog "Value for --cores cannot be negative") /\
  (forall ace can_open afa setup prog d run a leftover m,
     main_guards_pass a leftover = true ->
     main_setup ace can_open afa setup a (determine_paired a) d = inl (CommandLineError m) ->
     main ace can_open afa setup prog (Parsed a leftover) d run = parser_error prog m) /\
  (forall ace can_open afa setup prog d a leftover x,
     main_guards_pass a leftover = true ->
     main_setup ace can_open afa setup a (determine_paired a) d = inr x ->
     main ace can_open afa setup prog (Parsed a leftover) d (inl KeyboardInterrupt) =
       mkMainResult (Exit 130) ("Interrupted" ++ nl) true) /\
  (forall ace can_open afa setup prog d a leftover x,
     main_guards_pass a leftover = true ->
     main_setup ace can_open afa setup a (determine_paired a) d = inr x ->
     mr_termination (main ace can_open afa setup prog (Parsed a leftover) d (inl BrokenPipeError))
       = Exit 1).
Proof.
  assert (Hg : forall a leftover, main_guards_pass a leftover = true ->
            quiet a && truthy (report a) = false /\ nonempty leftover = false /\
            (cores a <? 0) = false).
  { intros a leftover H. unfold main_guards_pass in H.
    apply andb_prop in H as [H H3]. apply andb_prop in H as [H1 H2].
    apply negb_true_iff in H1, H2. apply Z.leb_le in H3.
    repeat split; [exact H1 | exact H2 | apply Z.ltb_ge; exact H3]. }
  split; [|split; [|split; [|split; [|split; [|split; [|split]]]]]].
  - intros prog m. split; [reflexivity|]. split; [reflexivity|].
    split; reflexivity.
  - intros. reflexivity.
  - intros ace can_open afa setup prog d run a leftover H. unfold main. rewrite H. reflexivity.
  - intros ace can_open afa setup prog d run a leftover H1 H2. unfold main.
    rewrite H1, H2. reflexivity.
  - intros ace can_open afa setup prog d run a leftover H1 H2 H3. unfold main.
    rewrite H1, H2. apply Z.ltb_lt in H3. rewrite H3. reflexivity.
  - intros ace can_open afa setup prog d run a leftover m H Hs.
    destruct (Hg a leftover H) as [H1 [H2 H3]]. unfold main.
    rewrite H1, H2, H3. cbv zeta. rewrite Hs. reflexivity.
  - intros ace can_open afa setup prog d a leftover x H Hs.
    destruct (Hg a leftover H) as [H1 [H2 H3]]. unfold main.
    rewrite H1, H2, H3. cbv zeta. rewrite Hs. reflexivity.
  - intros ace can_open afa setup prog d a leftover x H Hs.
    destruct (Hg a leftover H) as [H1 [H2 H3]]. unfold main.
    rewrite H1, H2, H3. cbv zeta. rewrite Hs. reflexivity.
Qed.

Lemma main_exit_statuses_witness :
  main (fun _ _ _ _ => None) (fun _ => true) (fun _ => inr ([], [])) (inr tt)
    "cutadapt" (Parsed default_args []) "<stdout>" (inr tt) =
  parser_error "cutadapt"
    "You did not provide any input file names. Please give me something to do!" /\
  main (fun _ _ _ _ => None) (fun _ => true) (fun _ => inr ([], [])) (inr tt)
    "cutadapt" (Parsed (set_inputs ["in.fastq"] default_args) []) "<stdout>"
    (inl KeyboardInterrupt) = mkMainResult (Exit 130) ("Interrupted" ++ nl) true.
Proof.
  destruct main_exit_statuses as [_ [_ [_ [_ [_ [H5 [H6 _]]]]]]]. split.
  - apply H5; vm_compute; reflexivity.
  - apply (H6 _ _ _ _ _ _ _ _ tt); vm_compute; reflexivity.
Defined.

(** * Further properties of [__main__.py] *)

(** ** Input files *)

(** [setup_input_files] succeeds exactly for one input file outside
    paired-end mode or with interleaved input, giving no second file,
    and for two input files in paired-end mode without interleaved
    input, giving both; every failure is a [CommandLineError].  As
    [main] calls it, [--interleaved] accepts one input file (read pairs
    interleaved in it) or two (read pairs interleaved across them). *)
Theorem setup_input_files_result :
  (forall ins paired il r,
     setup_input_files ins paired il = inr r <->
     (exists f, ins = [f] /\ (paired = false \/ il = true) /\ r = (f, None)) \/
     (exists f1 f2, ins = [f1; f2] /\ paired = true /\ il = false /\ r = (f1, Some f2))) /\
  (forall ins paired il, cmdline_only (setup_input_files ins paired il)) /\
  (forall a, interleaved a = true ->
     (exists r, setup_input_files (inputs a) (determine_paired a)
                  (interleaved a && Nat.eqb (List.length (inputs a)) 1) = inr r) <->
     (List.length (inputs a) = 1 \/ List.length (inputs a) = 2)%nat).
Proof.
  assert (Hres : forall ins paired il r,
     setup_input_files ins paired il = inr r <->
     (exists f, ins = [f] /\ (paired = false \/ il = true) /\ r = (f, None)) \/
     (exists f1 f2, ins = [f1; f2] /\ paired = true /\ il = false /\ r = (f1, Some f2))).
  { intros ins paired il r. split.
    - destruct ins as [|f [|f2 [|f3 rest]]]; destruct paired, il; cbn; intro H;
        try discriminate H; injection H as <-; eauto 10.
    - intros [[f [E [P R]]]|[f1 [f2 [E [P [I R]]]]]]; subst.
      + destruct P as [P|P]; subst; [|destruct paired]; reflexivity.
      + reflexivity. }
  split; [exact Hres|]. split; [exact setup_input_files_cmdline_only|].
  intros a Hi. assert (Hp : determine_paired a = true)
    by (unfold determine_paired; rewrite Hi; rewrite !orb_true_r; reflexivity).
  rewrite Hi, Hp. cbn [andb]. split.
  - intros [r Hr]. apply Hres in Hr as [[f [E _]]|[f1 [f2 [E _]]]]; rewrite E; auto.
  - destruct (inputs a) as [|f [|f2 [|f3 rest]]]; cbn; intro H; try lia; eexists; reflexivity.
Qed.

Lemma setup_input_files_result_witness :
  setup_input_files ["r1.fastq"; "r2.fastq"] true false = inr ("r1.fastq", Some "r2.fastq") /\
  (exists r, setup_input_files (inputs (set_inputs ["in.fastq"] (set_interleaved true default_args)))
     (determine_paired (set_inputs ["in.fastq"] (set_interleaved true default_args)))
     (interleaved (set_inputs ["in.fastq"] (set_interleaved true default_args)) &&
      Nat.eqb (List.length (inputs (set_inputs ["in.fastq"] (set_interleaved true default_args)))) 1)
     = inr r).
Proof.
  destruct setup_input_files_result as [H1 [_ H3]]. split.
  - apply H1. right. exists "r1.fastq", "r2.fastq". repeat split.
  - apply H3; [reflexivity | left; reflexivity].
Defined.

(** ** Length bounds *)

Lemma z_to_string_no_char c n :
  is_digit c = false -> c <> "-"%char -> has_char c (z_to_string n) = false.
Proof.
  intros Hd Hm. destruct (z_to_string_chars n) as [ds [E [_ [Hds _]]]].
  rewrite has_char_list, E.
  assert (Hx : existsb (fun x => Ascii.eqb x c) ds = false).
  { destruct (existsb _ ds) eqn:Ex; [|reflexivity].
    apply existsb_exists in Ex as [x [Hx Hxe]]. apply Ascii.eqb_eq in Hxe. subst x.
    rewrite Forall_forall in Hds. rewrite (Hds _ Hx) in Hd. discriminate Hd. }
  destruct (n <? 0); [|exact Hx].
  cbn [existsb]. destruct (Ascii.eqb_spec "-"%char c); [congruence | exact Hx].
Qed.

Lemma z_to_string_nonempty n : String.eqb (z_to_string n) "" = false.
Proof.
  destruct (z_to_string_chars n) as [ds [E [Hne _]]].
  destruct (z_to_string n) as [|c s]; [|reflexivity].
  destruct (n <? 0); simpl in E; [discriminate E | subst; contradiction].
Qed.

Lemma parse_length_field_int n : parse_length_field (z_to_string n) = inr (Some n).
Proof.
  unfold parse_length_field. rewrite z_to_string_nonempty, python_int_z_to_string. reflexivity.
Qed.

Lemma split_on_colon_one n : split_on ":"%char (z_to_string n) = [z_to_string n].
Proof.
  rewrite <- (append_empty_r (z_to_string n)) at 1.
  rewrite split_on_app by (apply z_to_string_no_char; [reflexivity | discriminate]).
  simpl. rewrite append_empty_r. reflexivity.
Qed.

Lemma parse_length_fields_length fs ws :
  parse_length_fields fs = inr ws -> List.length ws = List.length fs.
Proof.
  revert ws. induction fs as [|f fs IH]; intros ws Hw; simpl in Hw.
  - injection Hw as <-. reflexivity.
  - destruct (parse_length_field f); [discriminate|]. cbn [bind] in Hw.
    destruct (parse_length_fields fs) as [|ws0] eqn:Ef; [discriminate|].
    cbn [bind ret] in Hw. injection Hw as <-. simpl. f_equal. apply IH. reflexivity.
Qed.

Lemma reject_both_missing s (ws vs : list (option Z)) :
  match ws with
  | [None; None] =>
      raise (CommandLineError
        ("Cannot parse '" ++ s ++ "': At least one length needs to be given"))
  | _ => ret ws
  end = inr vs -> vs = ws /\ ws <> [None; None].
Proof.
  intro H.
  destruct ws as [|[x|] [|[y|] [|z zs]]]; try discriminate H;
    injection H as <-; split; (reflexivity || discriminate).
Qed.

Lemma parse_lengths_inr s vs : parse_lengths s = inr vs ->
  (List.length vs = 1 \/ List.length vs = 2)%nat /\ vs <> [None; None].
Proof.
  unfold parse_lengths.
  destruct (Nat.eqb (List.length (split_on ":"%char s)) 1
            || Nat.eqb (List.length (split_on ":"%char s)) 2) eqn:Ho; cbn [negb].
  - destruct (parse_length_fields _) as [e|ws] eqn:E; [destruct e; discriminate|].
    intro H. apply reject_both_missing in H as [-> Hn]. split; [|exact Hn].
    apply parse_length_fields_length in E. rewrite E.
    apply orb_prop in Ho as [Ho|Ho]; apply Nat.eqb_eq in Ho; lia.
  - discriminate.
Qed.

(** [parse_lengths] returns one or two values, not both of them missing,
    and raises only [CommandLineError]; it reads [N], [N:M], [:M] and
    [N:] written with [str] back as the values they denote, and the
    empty string as a single missing value. *)
Theorem parse_lengths_spec :
  (forall s vs, parse_lengths s = inr vs ->
     (List.length vs = 1 \/ List.length vs = 2)%nat /\ vs <> [None; None]) /\
  (forall s, cmdline_only (parse_lengths s)) /\
  (forall n, parse_lengths (z_to_string n) = inr [Some n]) /\
  (forall a b, parse_lengths (z_to_string a ++ ":" ++ z_to_string b) = inr [Some a; Some b]) /\
  (forall b, parse_lengths (":" ++ z_to_string b) = inr [None; Some b]) /\
  (forall a, parse_lengths (z_to_string a ++ ":") = inr [Some a; None]) /\
  parse_lengths "" = inr [None] /\ is_cmdline_error (parse_lengths ":") = true.
Proof.
  assert (Hcol : forall n, has_char ":"%char (z_to_string n) = false)
    by (intro n; apply z_to_string_no_char; [reflexivity | discriminate]).
  split; [|split; [exact parse_lengths_cmdline_only|split; [|split; [|split; [|split]]]]].
  - exact parse_lengths_inr.
  - intro n. unfold parse_lengths. rewrite split_on_colon_one. cbn -[parse_length_field].
    rewrite parse_length_field_int. reflexivity.
  - intros a b. unfold parse_lengths.
    rewrite split_on_app by apply Hcol.
    change (":" ++ z_to_string b)%string with (String ":"%char (z_to_string b)).
    cbn [split_on]. rewrite Ascii.eqb_refl, split_on_colon_one.
    rewrite append_empty_r. cbn -[parse_length_field].
    rewrite !parse_length_field_int. reflexivity.
  - intro b. unfold parse_lengths.
    change (":" ++ z_to_string b)%string with (String ":"%char (z_to_string b)).
    cbn [split_on]. rewrite Ascii.eqb_refl, split_on_colon_one. cbn -[parse_length_field].
    rewrite parse_length_field_int. reflexivity.
  - intro a. unfold parse_lengths.
    rewrite split_on_app by apply Hcol. cbn [split_on]. rewrite Ascii.eqb_refl.
    cbn [split_on]. rewrite append_empty_r. cbn -[parse_length_field].
    rewrite parse_length_field_int. reflexivity.
  - split; reflexivity.
Qed.

Lemma parse_lengths_spec_witness :
  parse_lengths "17:25" = inr [Some 17; Some 25] /\ parse_lengths ":25" = inr [None; Some 25].
Proof.
  destruct parse_lengths_spec as [_ [_ [_ [H2 [H3 _]]]]]. split.
  - exact (H2 17 25).
  - exact (H3 25).
Defined.

Lemma parse_length_param_inr paired param r :
  parse_length_param paired param = inr r ->
  (r = None <-> param = None) /\
  (forall l, r = Some l -> List.length l = (if paired then 2 else 1)%nat).
Proof.
  unfold parse_length_param. destruct param as [s|].
  - intro H. res_destruct H. apply parse_lengths_inr in E as [Hl _].
    destruct paired; cbn [negb andb] in H.
    + destruct (Nat.eqb_spec (List.length x) 1) as [H1|H1]; injection H as <-.
      * split; [split; discriminate|]. intros l Hl'. injection Hl' as <-.
        rewrite length_app, H1. reflexivity.
      * split; [split; discriminate|]. intros l Hl'. injection Hl' as <-. lia.
    + destruct (Nat.eqb_spec (List.length x) 2) as [H2|H2]; [discriminate H|].
      injection H as <-. split; [split; discriminate|]. intros l Hl'. injection Hl' as <-. lia.
  - intro H. injection H as <-. split; [split; reflexivity | discriminate].
Qed.

(** The length filters of a pipeline that [pipeline_from_parsed_args]
    returns are set exactly when [-m]/[-M] are given, and then hold two
    values for paired-end data and one for single-end data. *)
Theorem pipeline_length_filters ace a paired ads ads2 p :
  pipeline_from_parsed_args ace a paired ads ads2 = inr p ->
  (pl_minimum_length p = None <-> minimum_length a = None) /\
  (pl_maximum_length p = None <-> maximum_length a = None) /\
  (forall l, pl_minimum_length p = Some l -> List.length l = (if paired then 2 else 1)%nat) /\
  (forall l, pl_maximum_length p = Some l -> List.length l = (if paired then 2 else 1)%nat).
Proof.
  unfold pipeline_from_parsed_args. cbv zeta. intro H.
  res_destruct H. res_destruct H. res_destruct H. res_destruct H. res_destruct H.
  res_destruct H. res_destruct H. res_destruct H. res_destruct H.
  injection H as <-. cbn [pl_minimum_length pl_maximum_length].
  apply parse_length_param_inr in E6 as [Hn1 Hl1].
  apply parse_length_param_inr in E7 as [Hn2 Hl2].
  auto.
Qed.

Lemma pipeline_length_filters_witness :
  pipeline_from_parsed_args (fun _ _ _ _ => None)
    (set_minimum_length (Some "10") default_args) true [] [] =
    inr (mkPipeline true (Some "any") false [] (Some [Some 10; Some 10]) None
           None None false false false) /\
  List.length [Some 10; Some 10] = 2%nat.
Proof.
  split; [vm_compute; reflexivity|].
  destruct (pipeline_length_filters (fun _ _ _ _ => None)
              (set_minimum_length (Some "10") default_args) true [] []
              (mkPipeline true (Some "any") false [] (Some [Some 10; Some 10]) None
                 None None false false false)) as [_ [_ [H _]]].
  - vm_compute. reflexivity.
  - exact (H _ eq_refl).
Defined.

Lemma cmdline_only_not_inr {A} (r : Res A) :
  cmdline_only r -> (forall x, r <> inr x) -> exists m, r = inl (CommandLineError m).
Proof.
  intros Hc Hn. destruct r as [e|x]; [|exfalso; exact (Hn x eq_refl)].
  destruct (Hc e eq_refl) as [m ->]. eauto.
Qed.

(** ** Rejected option combinations *)

(** [--rename] together with a non-empty [--prefix] or [--suffix] makes
    [pipeline_from_parsed_args] raise a [CommandLineError] (when [-U] is
    only given for paired-end data and [--pair-adapters] only with
    paired-end data, as [main] ensures). *)
Theorem rename_with_prefix_suffix_rejected ace a paired ads ads2 :
  (paired = false -> cut2 a = []) -> (pair_adapters a = true -> paired = true) ->
  truthy (rename a) = true -> str_truthy (prefix a) || str_truthy (suffix a) = true ->
  exists m, pipeline_from_parsed_args ace a paired ads ads2 = inl (CommandLineError m).
Proof.
  intros Hcut Hpa Hr Hps. apply cmdline_only_not_inr.
  - apply pipeline_from_parsed_args_cmdline_only; assumption.
  - intros p. unfold pipeline_from_parsed_args. cbv zeta. intro H.
    res_destruct H. res_destruct H. res_destruct H. res_destruct H. res_destruct H.
    rewrite Hr, Hps in H. discriminate H.
Qed.

Lemma rename_with_prefix_suffix_rejected_witness :
  exists m, pipeline_from_parsed_args (fun _ _ _ _ => None)
    (set_rename (Some "{id}") (set_prefix "pre_" default_args)) false [] [] =
    inl (CommandLineError m).
Proof.
  apply rename_with_prefix_suffix_rejected.
  - intros _. reflexivity.
  - intro H. discriminate H.
  - reflexivity.
  - reflexivity.
Defined.

(** [--revcomp] with paired-end data makes [pipeline_from_parsed_args]
    raise a [CommandLineError]. *)
Theorem paired_revcomp_rejected ace a ads ads2 :
  reverse_complement a = true ->
  exists m, pipeline_from_parsed_args ace a true ads ads2 = inl (CommandLineError m).
Proof.
  intros Hrc. apply cmdline_only_not_inr.
  - apply pipeline_from_parsed_args_cmdline_only; [discriminate | reflexivity].
  - intros p H.
    destruct (pipeline_reaches_adapter_cutter ace a true ads ads2 p H)
      as [x1 [act [suf [x2 [_ Ha]]]]].
    rewrite Hrc in Ha. unfold add_adapter_cutter in Ha.
    destruct (pair_adapters a); [discriminate Ha|].
    destruct (let* _ := _ in _) as [[]|[ac ac2]]; discriminate Ha.
Qed.

Lemma paired_revcomp_rejected_witness :
  exists m, pipeline_from_parsed_args (fun _ _ _ _ => None)
    (set_reverse_complement true default_args) true
    [mkAdapter "1" "back" "AGATCGGAAGAGC"] [] = inl (CommandLineError m).
Proof. apply paired_revcomp_rejected. reflexivity. Defined.

(** ** Unconditional cutters *)

Lemma fold_add_cut_inr i l : forall p p',
  fold_left (add_cut i) l (inr p) = inr p' ->
  p' = with_modifiers p (pl_modifiers p ++
         map (fun c => match i with
                       | O => if pl_paired p then Pair (Some (UnconditionalCutter c)) None
                              else Single (UnconditionalCutter c)
                       | _ => Pair None (Some (UnconditionalCutter c))
                       end) (filter (fun c => negb (c =? 0)) l)) /\
  (i <> O -> pl_paired p = false -> filter (fun c => negb (c =? 0)) l = []).
Proof.
  induction l as [|c l IH]; intros p p' H.
  - injection H as <-. split; [|reflexivity].
    destruct p; cbn. rewrite app_nil_r. reflexivity.
  - cbn [fold_left] in H. cbn [filter]. unfold add_cut at 2 in H. cbn [bind] in H.
    destruct (c =? 0) eqn:Ec; cbn [negb].
    + exact (IH p p' H).
    + destruct i as [|i].
      * destruct (pl_paired p) eqn:Ep; unfold add1, add2 in H; rewrite Ep in H;
          apply IH in H as [-> _];
          (split; [|intro Hi; exfalso; apply Hi; reflexivity]);
          unfold with_modifiers; cbn [pl_paired pl_modifiers]; rewrite Ep;
          cbn [map]; rewrite <- app_assoc; reflexivity.
      * destruct (pl_paired p) eqn:Ep.
        -- unfold add2 in H. rewrite Ep in H. apply IH in H as [-> _].
           split; [|discriminate]. unfold with_modifiers. cbn [pl_paired pl_modifiers map].
           rewrite <- app_assoc. reflexivity.
        -- cbn [raise] in H. rewrite fold_add_cut_inl in H. discriminate H.
Qed.

Lemma add_cut_arg_fold i p l p' :
  add_cut_arg i p l = inr p' -> fold_left (add_cut i) l (inr p) = inr p'.
Proof.
  unfold add_cut_arg. destruct l as [|c0 l]; [intro H; exact H|].
  destruct (Nat.ltb 2 _); [discriminate|].
  destruct l as [|c1 [|c2 l]]; try (intro H; exact H).
  destruct (0 <? c0 * c1); [discriminate | intro H; exact H].
Qed.

(** When [add_unconditional_cutters] succeeds, it has appended one
    [UnconditionalCutter] per non-zero [-u] value, in order (for R1 only
    on paired-end pipelines), then one per non-zero [-U] value for R2, and
    changed nothing else; a single-end pipeline only succeeds when every
    [-U] value is zero. *)
Theorem add_unconditional_cutters_result p cut1 cut2 p' :
  add_unconditional_cutters p cut1 cut2 = inr p' ->
  p' = with_modifiers p (pl_modifiers p
         ++ map (fun c => if pl_paired p then Pair (Some (UnconditionalCutter c)) None
                          else Single (UnconditionalCutter c))
              (filter (fun c => negb (c =? 0)) cut1)
         ++ map (fun c => Pair None (Some (UnconditionalCutter c)))
              (filter (fun c => negb (c =? 0)) cut2)) /\
  (pl_paired p = false -> filter (fun c => negb (c =? 0)) cut2 = []).
Proof.
  unfold add_unconditional_cutters. intro H. res_destruct H.
  apply add_cut_arg_fold, fold_add_cut_inr in E as [-> _].
  apply add_cut_arg_fold, fold_add_cut_inr in H as [-> H2].
  split.
  - unfold with_modifiers. cbn [pl_paired pl_modifiers]. rewrite <- app_assoc. reflexivity.
  - apply H2. discriminate.
Qed.

Lemma add_unconditional_cutters_result_witness :
  add_unconditional_cutters (PairedEndPipeline "any") [5; 0] [-3] =
    inr (with_modifiers (PairedEndPipeline "any")
           [Pair (Some (UnconditionalCutter 5)) None; Pair None (Some (UnconditionalCutter (-3)))]) /\
  (pl_paired (PairedEndPipeline "any") = false -> filter (fun c => negb (c =? 0)) [-3] = []).
Proof.
  split; [reflexivity|].
  exact (proj2 (add_unconditional_cutters_result (PairedEndPipeline "any") [5; 0] [-3] _ eq_refl)).
Defined.

(** ** Quality trimmers *)

(** For paired-end data, [-q] given without [-Q] trims R1 and R2 with
    the same cutoffs; for single-end data, [-Q] never changes a pipeline
    that [add_quality_trimmers] returns; and cutoffs that are absent or
    ["0"] add nothing. *)
Theorem add_quality_trimmers_behaviour p b :
  (forall c f bk, pl_paired p = true -> String.eqb c "0" = false ->
     parse_cutoffs c = inr (f, bk) ->
     add_quality_trimmers p (Some c) None b =
       inr (with_modifiers p (pl_modifiers p ++
              [Pair (Some (QualityTrimmer f bk b)) (Some (QualityTrimmer f bk b))]))) /\
  (forall c1 c2 p', pl_paired p = false -> add_quality_trimmers p c1 c2 b = inr p' ->
     add_quality_trimmers p c1 None b = inr p') /\
  (forall c1 c2, (c1 = None \/ c1 = Some "0") -> (c2 = None \/ c2 = Some "0") ->
     add_quality_trimmers p c1 c2 b = inr p).
Proof.
  split; [|split].
  - intros c f bk Hp Hc Hpc. unfold add_quality_trimmers, qtrimmer.
    rewrite Hc, Hpc. cbn. unfold add2. rewrite Hp. reflexivity.
  - intros c1 c2 p' Hp H. unfold add_quality_trimmers in *.
    res_destruct H. res_destruct H. cbn. rewrite Hp in *. exact H.
  - intros c1 c2 H1 H2. unfold add_quality_trimmers, qtrimmer.
    destruct H1 as [->| ->], H2 as [->| ->]; cbn;
      destruct (pl_paired p); reflexivity.
Qed.

Lemma add_quality_trimmers_behaviour_witness :
  add_quality_trimmers (PairedEndPipeline "any") (Some "5,20") None 33 =
    inr (with_modifiers (PairedEndPipeline "any")
           [Pair (Some (QualityTrimmer 5 20 33)) (Some (QualityTrimmer 5 20 33))]) /\
  add_quality_trimmers SingleEndPipeline (Some "20") None 33 =
    inr (with_modifiers SingleEndPipeline [Single (QualityTrimmer 0 20 33)]) /\
  add_quality_trimmers SingleEndPipeline (Some "0") None 33 = inr SingleEndPipeline.
Proof.
  destruct (add_quality_trimmers_behaviour (PairedEndPipeline "any") 33) as [H1 _].
  destruct (add_quality_trimmers_behaviour SingleEndPipeline 33) as [_ [H2 H3]].
  split; [|split].
  - exact (H1 "5,20" 5 20 eq_refl eq_refl eq_refl).
  - exact (H2 (Some "20") (Some "15") _ eq_refl eq_refl).
  - exact (H3 (Some "0") (Some "0") (or_intror eq_refl) (or_intror eq_refl)).
Defined.

(** ** The reverse complementer of single-end data *)

Lemma add1_appends p m p' : add1 p m = inr p' ->
  pl_modifiers p' = (pl_modifiers p ++ [Single m])%list.
Proof. unfold add1. destruct (pl_paired p); intro H; inversion H; reflexivity. Qed.

Lemma fold_add1_extends ms : forall r p0 p',
  (forall p, r = inr p -> exists l, pl_modifiers p = (pl_modifiers p0 ++ l)%list) ->
  fold_left (fun acc m => let* p := acc in add1 p m) ms r = inr p' ->
  exists l, pl_modifiers p' = (pl_modifiers p0 ++ l)%list.
Proof.
  induction ms as [|m ms IH]; simpl; intros r p0 p' Hr H.
  - auto.
  - refine (IH _ p0 p' _ H). intros p Hp.
    destruct r as [e|q]; cbn [bind] in Hp; [discriminate|].
    destruct (Hr q eq_refl) as [l Hl]. apply add1_appends in Hp.
    exists (l ++ [Single m])%list. rewrite Hp, Hl, app_assoc. reflexivity.
Qed.

(** With single-end data and [--revcomp], a pipeline built from R1
    adapters contains the [AdapterCutter] wrapped in a
    [ReverseComplementer], whose suffix is [" rc"] unless [--rename] is
    given. *)
Theorem single_end_revcomp_suffix ace a ads ads2 p :
  reverse_complement a = true -> nonempty ads = true ->
  pipeline_from_parsed_args ace a false ads ads2 = inr p ->
  In (Single (ReverseComplementer
                (AdapterCutter ads (times a)
                   (match action a with
                    | Some x => if String.eqb x "none" then None else Some x
                    | None => None
                    end) (index a))
                (if truthy (rename a) then None else Some " rc")))
     (pl_modifiers p).
Proof.
  intros Hrc Hne. unfold pipeline_from_parsed_args. cbv zeta. intro H.
  res_destruct H. res_destruct H. res_destruct H. res_destruct H. res_destruct H.
  res_destruct H. res_destruct H. res_destruct H. res_destruct H.
  injection H as <-. cbn [pl_modifiers].
  assert (H2 : pl_modifiers x2 = (pl_modifiers x1 ++
            [Single (ReverseComplementer
               (AdapterCutter ads (times a)
                  (match action a with
                   | Some x => if String.eqb x "none" then None else Some x
                   | None => None
                   end) (index a))
               (if truthy (rename a) then None else Some " rc"))])%list).
  { revert E2. unfold add_adapter_cutter. rewrite Hrc, Hne.
    destruct (pair_adapters a); [discriminate|].
    unfold mk_AdapterCutter.
    destruct (ace ads _ _ _); [destruct (nonempty ads2); cbn; discriminate|].
    destruct (nonempty ads2); [destruct (ace ads2 _ _ _)|]; cbn; try discriminate;
      intro E2; apply add1_appends in E2; rewrite E2;
      destruct (truthy (rename a)); reflexivity. }
  assert (H3 : exists l, pl_modifiers x3 = (pl_modifiers x2 ++ l)%list).
  { eapply fold_add1_extends; [|exact E3]. intros q Hq. cbv [ret] in Hq. injection Hq as <-.
    exists []. rewrite app_nil_r. reflexivity. }
  assert (H5 : exists l, pl_modifiers x5 = (pl_modifiers x3 ++ l)%list).
  { destruct (rename a) as [r|]; [|inversion E5; subst; exists []; rewrite app_nil_r; reflexivity].
    destruct (str_truthy r && negb (String.eqb r "{header}")); [|inversion E5; subst; exists []; rewrite app_nil_r; reflexivity].
    revert E5. unfold add_renamer, mk_Renamer. cbv zeta.
    destruct (check_template r renamer_variables) as [e|[]]; cbn [bind].
    - destruct e; discriminate.
    - intro E5. unfold add1 in E5.
      destruct (pl_paired x3); cbn in E5; cbv [raise ret] in E5; inversion E5; subst.
      exists [Single (Renamer r)]. reflexivity. }
  destruct H3 as [l3 H3], H5 as [l5 H5].
  rewrite H5, H3, H2. apply in_or_app. left. apply in_or_app. left.
  apply in_or_app. right. left. reflexivity.
Qed.

Lemma single_end_revcomp_suffix_witness :
  In (Single (ReverseComplementer
                (AdapterCutter [mkAdapter "1" "back" "AGATCGGAAGAGC"] 1 (Some "trim") true)
                (Some " rc")))
     [Single (ReverseComplementer
                (AdapterCutter [mkAdapter "1" "back" "AGATCGGAAGAGC"] 1 (Some "trim") true)
                (Some " rc"))].
Proof.
  apply (single_end_revcomp_suffix (fun _ _ _ _ => None)
           (set_reverse_complement true default_args) [mkAdapter "1" "back" "AGATCGGAAGAGC"] []
           (mkPipeline false None false
              [Single (ReverseComplementer
                 (AdapterCutter [mkAdapter "1" "back" "AGATCGGAAGAGC"] 1 (Some "trim") true)
                 (Some " rc"))] None None None None false false false)).
  - reflexivity.
  - reflexivity.
  - vm_compute. reflexivity.
Defined.

(** ** Files opened for demultiplexing *)

Lemma length_concat_comb_entries o po keys :
  List.length (List.concat (map (comb_entries o po) keys)) = (2 * List.length keys)%nat.
Proof. induction keys as [|k ks IH]; simpl; [reflexivity | rewrite IH; lia]. Qed.

(** With every path openable and both [-o] and [-p] given,
    [open_combinatorial_out] opens two files per key: one per pair of an
    R1 and an R2 adapter name, plus, unless [--discard-untrimmed] is given,
    one for no adapter, one per R2 name alone and one per R1 name alone. *)
Theorem combinatorial_file_count names names2 a o po log :
  output a = Some o -> paired_output a = Some po ->
  List.length (fst (open_combinatorial_out (fun _ => true) names names2 a log)) =
    (List.length log + 2 * (List.length names * List.length names2
       + (if discard_untrimmed a then 0 else 1 + List.length names2 + List.length names)))%nat.
Proof.
  intros Ho Hpo. rewrite (open_combinatorial_out_exact names names2 a o po log Ho Hpo).
  cbn [fst]. rewrite length_app, length_concat_comb_entries.
  unfold combinatorial_keys. rewrite length_app, length_prod, !length_map.
  destruct (discard_untrimmed a); cbn [List.length app]; rewrite ?length_app, ?length_map; lia.
Qed.

Lemma combinatorial_file_count_witness :
  List.length (fst (open_combinatorial_out (fun _ => true) ["A"; "B"] ["C"]
    (set_paired_output (Some "{name1}-{name2}.2.fq") (set_output (Some "{name1}-{name2}.1.fq") default_args)) [])) = 12%nat.
Proof.
  rewrite (combinatorial_file_count ["A"; "B"] ["C"]
    (set_paired_output (Some "{name1}-{name2}.2.fq") (set_output (Some "{name1}-{name2}.1.fq") default_args))
    "{name1}-{name2}.1.fq" "{name1}-{name2}.2.fq" [] eq_refl eq_refl).
  reflexivity.
Defined.

Lemma flat_map_some_snd (po : string) names :
  flat_map (fun '(n, f) => match f with Some f => [(n, f)] | None => [] end)
    (map (fun n => (n, Some (replace po "{name}" n))) names) =
  map (fun n => (n, replace po "{name}" n)) names.
Proof. induction names as [|n ns IH]; simpl; [reflexivity | rewrite IH; reflexivity]. Qed.

(** With every path openable and [-o] given, [open_demultiplex_out]
    opens, for each adapter name in order, the [-o] template with
    [{name}] replaced by the name (then the [-p] one, if given); then,
    unless [--discard-untrimmed] is given, the untrimmed file: the
    [--untrimmed-output] path if it is non-empty, else the template with
    ["unknown"] (likewise for R2).  It returns the name-to-path maps and
    the untrimmed paths. *)
Theorem open_demultiplex_out_exact names a o log :
  output a = Some o ->
  let u1 := match untrimmed_output a with
            | Some u => if str_truthy u then u else replace o "{name}" "unknown"
            | None => replace o "{name}" "unknown"
            end in
  let u2 po := match untrimmed_paired_output a with
               | Some u => if str_truthy u then u else replace po "{name}" "unknown"
               | None => replace po "{name}" "unknown"
               end in
  open_demultiplex_out (fun _ => true) names a log =
    ((log
      ++ List.concat (map (fun n => (DemultiplexOut n, replace o "{name}" n)
                                    :: match paired_output a with
                                       | Some po => [(DemultiplexOut2 n, replace po "{name}" n)]
                                       | None => []
                                       end) names)
      ++ (if discard_untrimmed a then [] else [(Untrimmed, u1)])
      ++ match paired_output a with
         | Some po => if discard_untrimmed a then [] else [(Untrimmed2, u2 po)]
         | None => []
         end)%list,
     inr (map (fun n => (n, replace o "{name}" n)) names,
          match paired_output a with
          | Some po => Some (map (fun n => (n, replace po "{name}" n)) names)
          | None => None
          end,
          if discard_untrimmed a then None else Some u1,
          match paired_output a with
          | Some po => if discard_untrimmed a then None else Some (u2 po)
          | None => None
          end)).
Proof.
  intros Ho u1 u2. unfold open_demultiplex_out. unfold fbind at 1.
  rewrite (fmap_list_exact _
             (fun n => (DemultiplexOut n, replace o "{name}" n)
                       :: match paired_output a with
                          | Some po => [(DemultiplexOut2 n, replace po "{name}" n)]
                          | None => []
                          end)
             (fun n => ((n, replace o "{name}" n),
                        (n, match paired_output a with
                            | Some po => Some (replace po "{name}" n)
                            | None => None
                            end)))).
  - unfold fbind, lift, py_replace, fret, xopen, ret, truthy. rewrite Ho.
    subst u1 u2. rewrite !map_map. cbn [fst snd]. unfold str_truthy.
    destruct (untrimmed_output a) as [u|], (untrimmed_paired_output a) as [u'|],
             (discard_untrimmed a), (paired_output a) as [po|];
      try destruct (String.eqb u ""); try destruct (String.eqb u' ""); cbn [negb];
      rewrite ?flat_map_some_snd, ?app_nil_r, <- ?app_assoc; reflexivity.
  - intros n log'. unfold fbind, lift, py_replace, xopen, fret. rewrite Ho. cbn.
    destruct (paired_output a) as [po|]; cbn; rewrite <- ?app_assoc; reflexivity.
Qed.

Lemma open_demultiplex_out_exact_witness :
  fst (open_demultiplex_out (fun _ => true) ["A"]
         (set_output (Some "{name}.fq") default_args) []) =
    [(DemultiplexOut "A", "A.fq"); (Untrimmed, "unknown.fq")].
Proof.
  rewrite (open_demultiplex_out_exact ["A"] (set_output (Some "{name}.fq") default_args)
             "{name}.fq" [] eq_refl).
  reflexivity.
Defined.

(** ** [open_output_files] *)






Lemma open_side_files_all_open can_open a log :
  (forall p, can_open p = true) -> side_pairs_ok a = true ->
  exists v, snd (open_side_files can_open a log) = inr v.
Proof.
  intro Hall.
  unfold side_pairs_ok, lone_second, open_side_files, xopen_pair, xopen_or_none, xopen, fbind, fret.
  destruct (rest_file a), (info_file a), (wildcard_file a), (is_some (minimum_length a)),
    (too_short_output a), (too_short_paired_output a), (is_some (maximum_length a)),
    (too_long_output a), (too_long_paired_output a); rewrite ?Hall; simpl; intro H;
    try discriminate H; eexists; reflexivity.
Qed.

(** With [--discard-trimmed] and a demultiplexing output template,
    [open_output_files] fails without opening any file for trimmed reads;
    when every path is openable, no too-short/too-long pair that is opened
    has a lone second path, and at most one discard option is given, it
    raises the [CommandLineError] about [--discard-trimmed]. *)
Theorem discard_trimmed_demultiplex_rejected can_open a d names names2 log m :
  discard_trimmed a = true -> determine_demultiplex_mode a = inr (Some m) ->
  exists l e, open_output_files can_open a d names names2 log = ((log ++ l)%list, inl e) /\
    Forall (fun x => no_trimmed (fst x) = true) l /\
    ((forall p, can_open p = true) -> side_pairs_ok a = true ->
     discard_options_count a <= 1 ->
     e = CommandLineError "Do not use --discard-trimmed when demultiplexing.").
Proof.
  intros Hd Hm. unfold open_output_files. unfold fbind at 1.
  destruct (open_side_files_writes can_open a log) as [l [Hl Hf]].
  destruct (open_side_files can_open a log) as [log1 [e|v]] eqn:Es; cbn [fst] in Hl; subst log1.
  - exists l, e. split; [reflexivity|]. split; [exact Hf|].
    intros Hall Hside _. destruct (open_side_files_all_open can_open a log Hall Hside) as [v Hv].
    rewrite Es in Hv. discriminate Hv.
  - destruct v as [[[[rf inf] wc] [ts ts2]] [tl tl2]].
    destruct (1 <? discard_options_count a) eqn:Ec.
    + unfold fraise. exists l, (CommandLineError "Only one of the --discard-trimmed, --discard-untrimmed and --untrimmed-output options can be used at the same time.").
      split; [reflexivity|]. split; [exact Hf|].
      intros _ _ Hc. apply Z.ltb_lt in Ec. lia.
    + unfold fbind at 1, lift. rewrite Hm, Hd. cbn [is_some andb]. unfold fraise.
      exists l, (CommandLineError "Do not use --discard-trimmed when demultiplexing.").
      split; [reflexivity|]. split; [exact Hf|]. intros; reflexivity.
Qed.

Lemma discard_trimmed_demultiplex_rejected_witness :
  exists l e, open_output_files (fun _ => true)
    (set_discard_trimmed true (set_output (Some "{name}.fq") default_args)) "stdout" ["A"] [] [] =
    (([] ++ l)%list, inl e) /\
    Forall (fun x => no_trimmed (fst x) = true) l /\
    ((forall p, (fun _ : string => true) p = true) ->
     side_pairs_ok (set_discard_trimmed true (set_output (Some "{name}.fq") default_args)) = true ->
     discard_options_count (set_discard_trimmed true (set_output (Some "{name}.fq") default_args)) <= 1 ->
     e = CommandLineError "Do not use --discard-trimmed when demultiplexing.").
Proof.
  apply (discard_trimmed_demultiplex_rejected (fun _ => true)
           (set_discard_trimmed true (set_output (Some "{name}.fq") default_args))
           "stdout" ["A"] [] [] Normal).
  - reflexivity.
  - vm_compute. reflexivity.
Defined.

(** ** [check_arguments] *)

Lemma check_arguments_tail a :
  (if overlap a <? 1 then raise (CommandLineError "The overlap must be at least 1.")
   else if negb (Qle_bool 0 (gc_content a) && Qle_bool (gc_content a) 100) then
     raise (CommandLineError "GC content must be given as percentage between 0 and 100")
   else if pair_adapters a && negb (times a =? 1) then
     raise (CommandLineError "--pair-adapters cannot be used with --times")
   else ret tt) = inr tt <->
  1 <= overlap a /\ (0 <= gc_content a)%Q /\ (gc_content a <= 100)%Q /\
  (pair_adapters a = true -> times a = 1).
Proof.
  destruct (Z.ltb_spec (overlap a) 1) as [Ho|Ho].
  - split; [discriminate | intros [H _]; lia].
  - destruct (Qle_bool 0 (gc_content a)) eqn:G1, (Qle_bool (gc_content a) 100) eqn:G2;
      cbn [andb negb].
    + apply Qle_bool_iff in G1, G2.
      destruct (pair_adapters a), (Z.eqb_spec (times a) 1) as [Ht|Ht]; cbn [andb negb];
        (split; [intro H | intros [_ [_ [_ H]]]]);
        try discriminate; try (exfalso; apply Ht; apply H; reflexivity);
        repeat split; auto; discriminate.
    + split; [discriminate|]. intros [_ [_ [H _]]]. apply Qle_bool_iff in H. congruence.
    + split; [discriminate|]. intros [_ [H _]]. apply Qle_bool_iff in H. congruence.
    + split; [discriminate|]. intros [_ [H _]]. apply Qle_bool_iff in H. congruence.
Qed.

Lemma check_pair_outputs_ok a :
  check_pair_outputs a = inr tt <->
  truthy (untrimmed_output a) = truthy (untrimmed_paired_output a) /\
  truthy (too_short_output a) = truthy (too_short_paired_output a) /\
  truthy (too_long_output a) = truthy (too_long_paired_output a).
Proof.
  unfold check_pair_outputs. cbn [fold_left].
  destruct (Bool.eqb_spec (truthy (untrimmed_output a)) (truthy (untrimmed_paired_output a))),
    (Bool.eqb_spec (truthy (too_short_output a)) (truthy (too_short_paired_output a))),
    (Bool.eqb_spec (truthy (too_long_output a)) (truthy (too_long_paired_output a)));
    cbn; (split; [intro H | intros [H1 [H2 H3]]]); try discriminate; try contradiction; auto.
Qed.

(** [check_arguments] accepts exactly the option combinations where:
    for single-end data, neither [--untrimmed-paired-output] nor
    [--pair-adapters] is given; for non-interleaved paired-end data, [-p]
    and [-o] are given and each of the untrimmed, too-short and too-long
    outputs is given for both reads or for neither; the overlap is at
    least 1; the GC content lies between 0 and 100; and [--pair-adapters]
    comes with [--times 1]. *)
Theorem check_arguments_accepts a paired :
  check_arguments a paired = inr tt <->
  (paired = false -> truthy (untrimmed_paired_output a) = false /\ pair_adapters a = false) /\
  (paired = true -> interleaved a = false ->
     truthy (paired_output a) = true /\ truthy (output a) = true /\
     truthy (untrimmed_output a) = truthy (untrimmed_paired_output a) /\
     truthy (too_short_output a) = truthy (too_short_paired_output a) /\
     truthy (too_long_output a) = truthy (too_long_paired_output a)) /\
  1 <= overlap a /\ (0 <= gc_content a)%Q /\ (gc_content a <= 100)%Q /\
  (pair_adapters a = true -> times a = 1).
Proof.
  unfold check_arguments. rewrite <- check_arguments_tail.
  destruct paired; cbn [negb andb].
  - destruct (interleaved a); cbn [negb bind].
    + split; [intro H; split; [discriminate|split; [discriminate|exact H]]|].
      intros [_ [_ H]]. exact H.
    + destruct (truthy (paired_output a)) eqn:Hp; cbn [negb].
      * destruct (truthy (output a)) eqn:Ho; cbn [negb].
        -- pose proof (check_pair_outputs_ok a) as Hc.
           destruct (check_pair_outputs a) as [e|[]]; cbn [bind].
           ++ split; [destruct e; discriminate|].
              intros [_ [H _]]. destruct (H eq_refl eq_refl) as [_ [_ H']].
              apply Hc in H'. discriminate H'.
           ++ split.
              ** intro H. split; [discriminate|]. split; [|exact H].
                 intros _ _. split; [reflexivity|]. split; [reflexivity|]. apply Hc. reflexivity.
              ** intros [_ [_ H]]. exact H.
        -- split; [discriminate|]. intros [_ [H _]]. destruct (H eq_refl eq_refl) as [_ [H' _]].
           discriminate H'.
      * split; [discriminate|]. intros [_ [H _]]. destruct (H eq_refl eq_refl) as [H' _].
        discriminate H'.
  - destruct (truthy (untrimmed_paired_output a)) eqn:Hu; cbn [bind].
    + split; [discriminate|]. intros [H _]. destruct (H eq_refl) as [H' _]. discriminate H'.
    + destruct (pair_adapters a) eqn:Hpa; cbn [bind].
      * split; [discriminate|]. intros [H _]. destruct (H eq_refl) as [_ H']. discriminate H'.
      * split.
        -- intro H. split; [intros _; split; reflexivity|]. split; [discriminate|exact H].
        -- intros [_ [_ H]]. exact H.
Qed.

(** ** [main] *)

(** [main] starts the run exactly when the command line was parsed, the
    option guards pass and every setup step succeeded; once started, it
    returns normally exactly when the run succeeds, and a
    [FileFormatError], [UnknownFileFormat] or [EOFError] during the run
    ends it with exit status 1 and the line [cutadapt: error: <message>]. *)
Theorem main_run_outcomes ace can_open afa setup prog a leftover d run :
  (mr_ran (main ace can_open afa setup prog (Parsed a leftover) d run) = true <->
   main_guards_pass a leftover = true /\
   exists u, main_setup ace can_open afa setup a (determine_paired a) d = inr u) /\
  (mr_ran (main ace can_open afa setup prog (Parsed a leftover) d run) = true ->
   (mr_termination (main ace can_open afa setup prog (Parsed a leftover) d run) = Returned <->
    exists u, run = inr u) /\
   (forall m, run = inl (FileFormatError m) \/ run = inl (UnknownFileFormat m)
              \/ run = inl (EOFError m) ->
    main ace can_open afa setup prog (Parsed a leftover) d run =
      mkMainResult (Exit 1) ("cutadapt: error: " ++ m ++ nl) true)).
Proof.
  unfold main, main_guards_pass.
  destruct (quiet a && truthy (report a)); cbn [negb andb].
  { split; [split; [discriminate | intros [H _]; discriminate H] | intro H; discriminate H]. }
  destruct (nonempty leftover); cbn [negb andb].
  { split; [split; [discriminate | intros [H _]; discriminate H] | intro H; discriminate H]. }
  destruct (Z.ltb_spec (cores a) 0) as [Hc|Hc].
  { assert (Hf : (0 <=? cores a) = false) by (apply Z.leb_gt; exact Hc). rewrite Hf.
    split; [split; [discriminate | intros [H _]; discriminate H] | intro H; discriminate H]. }
  assert (Ht : (0 <=? cores a) = true) by (apply Z.leb_le; exact Hc). rewrite Ht.
  destruct (main_setup ace can_open afa setup a (determine_paired a) d) as [e|u].
  - assert (Hr : mr_ran (match e with
                         | CommandLineError m => parser_error prog m
                         | _ => mkMainResult (Uncaught e) "" false
                         end) = false) by (destruct e; reflexivity).
    rewrite Hr. split; [split; [discriminate | intros [_ [u H]]; discriminate H]|].
    intro H; discriminate H.
  - split; [split; [intros _; split; [reflexivity | exists u; reflexivity] | intros _]|].
    + destruct run as [[]|]; reflexivity.
    + intros _. split.
      * destruct run as [[]|v]; cbn; (split; [intro H; try discriminate H | intros [v' H]]);
          try discriminate H; eauto.
      * intros m [->|[->| ->]]; reflexivity.
Qed.

Lemma main_run_outcomes_witness :
  main (fun _ _ _ _ => None) (fun _ => true) (fun _ => inr ([], [])) (inr tt)
    "cutadapt" (Parsed (set_inputs ["in.fastq"] default_args) []) "<stdout>"
    (inl (FileFormatError "truncated record")) =
  mkMainResult (Exit 1) ("cutadapt: error: " ++ "truncated record" ++ nl) true.
Proof.
  destruct (main_run_outcomes (fun _ _ _ _ => None) (fun _ => true) (fun _ => inr ([], [])) (inr tt)
              "cutadapt" (set_inputs ["in.fastq"] default_args) [] "<stdout>"
              (inl (FileFormatError "truncated record"))) as [[_ Hran] Hrun].
  apply (proj2 (Hrun (Hran (conj eq_refl (ex_intro _ tt eq_refl))))).
  left. reflexivity.
Defined.

(** ** The end of the modifier list *)

Lemma fold_pipeline_add_appends (paired : bool) ms : forall p p',
  pl_paired p = paired ->
  fold_left (fun acc m => let* p := acc in (if paired then add_both else add1) p m)
    ms (inr p) = inr p' ->
  pl_modifiers p' =
    (pl_modifiers p ++ map (fun m => if paired then Pair (Some m) (Some m) else Single m) ms)%list.
Proof.
  induction ms as [|m ms IH]; intros p p' Hp H; cbn [fold_left] in H.
  - injection H as <-. rewrite app_nil_r. reflexivity.
  - cbn [bind] in H. destruct paired; unfold add_both, add2, add1 in H; rewrite Hp in H;
      cbn [ret] in H; apply IH in H; try exact Hp; rewrite H; unfold with_modifiers;
      cbn [pl_modifiers map]; rewrite <- app_assoc; reflexivity.
Qed.

Lemma add_renamer_appends p paired r p' :
  add_renamer p paired r = inr p' ->
  pl_modifiers p' =
    (pl_modifiers p ++ [if paired then PairedStep (PairedEndRenamer r) else Single (Renamer r)])%list.
Proof.
  unfold add_renamer, mk_PairedEndRenamer, mk_Renamer. destruct paired; cbv zeta.
  - destruct (check_template r paired_renamer_variables) as [e|[]]; cbn [bind].
    + destruct e; cbv [raise]; discriminate.
    + unfold add_paired_modifier. destruct (pl_paired p); cbv [raise ret];
        intro H; inversion H; reflexivity.
  - destruct (check_template r renamer_variables) as [e|[]]; cbn [bind].
    + destruct e; cbv [raise]; discriminate.
    + unfold add1. destruct (pl_paired p); cbv [raise ret]; intro H; inversion H; reflexivity.
Qed.

(** In a pipeline that [pipeline_from_parsed_args] returns, the
    modifiers of [modifiers_applying_to_both_ends_if_paired] come last, in
    their order (for paired-end data each applied to both reads), followed
    only by the renamer of [--rename], which is left out for an empty
    template and for ["{header}"]. *)
Theorem pipeline_modifier_tail ace a paired ads ads2 p :
  pipeline_from_parsed_args ace a paired ads ads2 = inr p ->
  exists l, pl_modifiers p =
    (l ++ map (fun m => if paired then Pair (Some m) (Some m) else Single m)
              (modifiers_applying_to_both_ends_if_paired a)
       ++ match rename a with
          | Some r => if str_truthy r && negb (String.eqb r "{header}")
                      then [if paired then PairedStep (PairedEndRenamer r) else Single (Renamer r)]
                      else []
          | None => []
          end)%list.
Proof.
  unfold pipeline_from_parsed_args. cbv zeta. intro H.
  res_destruct H. res_destruct H. res_destruct H. res_destruct H. res_destruct H.
  res_destruct H. res_destruct H. res_destruct H. res_destruct H.
  injection H as <-. cbn [pl_modifiers]. exists (pl_modifiers x2).
  apply add_unconditional_cutters_flags, flags_paired in E.
  apply add_quality_trimmers_flags, flags_paired in E1.
  pose proof (flags_paired _ _ (add_adapter_cutter_flags _ _ _ _ _ _ _ _ _ _ _ _ E2)) as E2'.
  rewrite pipeline_init_paired in E.
  assert (E0' : pl_paired x0 = pl_paired x).
  { destruct (nextseq_trim a).
    - apply flags_paired. destruct paired; [apply add_both_flags in E0 | apply add1_flags in E0]; exact E0.
    - inversion E0; reflexivity. }
  assert (Hx2 : pl_paired x2 = paired) by congruence.
  apply (fold_pipeline_add_appends paired _ x2 x3 Hx2) in E3.
  rewrite app_assoc, <- E3.
  destruct (rename a) as [r|]; [|inversion E5; subst; rewrite app_nil_r; reflexivity].
  destruct (str_truthy r && negb (String.eqb r "{header}")).
  - apply add_renamer_appends in E5. exact E5.
  - inversion E5; subst. rewrite app_nil_r. reflexivity.
Qed.

Lemma pipeline_modifier_tail_witness :
  exists l, pl_modifiers (mkPipeline true (Some "any") false
      [Pair (Some (PrefixSuffixAdder "p_" "")) (Some (PrefixSuffixAdder "p_" ""))] None None None None false false false) =
    (l ++ [Pair (Some (PrefixSuffixAdder "p_" "")) (Some (PrefixSuffixAdder "p_" ""))] ++ [])%list.
Proof.
  apply (pipeline_modifier_tail (fun _ _ _ _ => None)
           (set_prefix "p_" default_args) true [] []).
  vm_compute. reflexivity.
Defined.
